(** * E-Netra: the change pipeline (observer, summarizer, filter, dispatcher)

    A shallow embedding of the four library modules of the extension
    ([content-detection.js], [ai-summarization.js], [priority-filtering.js],
    [alert-system.js]) and the properties of the pipeline stated in the
    specification.

    Conventions of the embedding:
    - a JavaScript string is a [string] of 8-bit code units (the Latin-1
      range); case mapping and the white-space class are the ECMAScript ones
      restricted to that range;
    - a JavaScript object used as a dictionary is a [gmap string _] of its
      own properties (what it inherits from [Object.prototype] is left
      out); the spread [{...a, ...b}] is the left-biased union [b ∪ a];
    - [this] is an explicit state record threaded through a small
      state-and-exception monad; a [TypeError] raised by reading a property
      of [undefined] is the exceptional outcome;
    - [Date.now()] is an argument [now]; timers and rendering are not
      modelled (a suspended [await] is a separate step of a transition
      system). *)

From Stdlib Require Import ZArith QArith List String Ascii Bool Lia Permutation.
From stdpp Require Import base option list gmap strings.
From stdpp Require Import pretty.

Close Scope Q_scope.
Open Scope list_scope.
Open Scope string_scope.

Set Default Proof Using "Type".

(* ===================================================================== *)
(** * JavaScript string primitives used by the modules *)
(* ===================================================================== *)

Module JS.

(** [s.includes(sub)] *)
Fixpoint includes (s sub : string) : bool :=
  if String.prefix sub s then true
  else match s with
       | EmptyString => false
       | String _ s' => includes s' sub
       end.

(** [s.startsWith(p)] *)
Definition startsWith (s p : string) : bool := String.prefix p s.

(** One code unit of [toLowerCase]: A-Z, and the upper-case letters of the
    Latin-1 supplement (U+00C0..U+00DE without the multiplication sign). *)
Definition lower_unit (c : ascii) : ascii :=
  let n := nat_of_ascii c in
  if ((65 <=? n) && (n <=? 90))%nat then ascii_of_nat (n + 32)
  else if ((192 <=? n) && (n <=? 222) && negb (n =? 215))%nat
       then ascii_of_nat (n + 32)
  else c.

(** [s.toLowerCase()] *)
Fixpoint toLowerCase (s : string) : string :=
  match s with
  | EmptyString => EmptyString
  | String c s' => String (lower_unit c) (toLowerCase s')
  end.

(** The class [\s] on code units below 256. *)
Definition is_space (c : ascii) : bool :=
  let n := nat_of_ascii c in
  ((9 <=? n) && (n <=? 13) || (n =? 32) || (n =? 160))%nat.

(** [s.substring(0, n)]; a negative end index counts as 0, which is what
    truncated subtraction on [nat] gives the callers. *)
Definition substring0 (n : nat) (s : string) : string := String.substring 0 n s.

(** [s.split(/\s+/)]: [cur] is the field being read, [in_run]
    tells that the previous code unit was white space. *)
Fixpoint split_ws_from (s : string) (cur : string) (in_run : bool) : list string :=
  match s with
  | EmptyString => [cur]
  | String c s' =>
      if is_space c then
        if in_run then split_ws_from s' cur true
        else cur :: split_ws_from s' EmptyString true
      else split_ws_from s' (cur ++ String c EmptyString) false
  end.

Definition split_ws (s : string) : list string := split_ws_from s EmptyString false.

(** [arr.includes(x)] on an array of strings *)
Definition arr_includes (arr : list string) (x : string) : bool :=
  existsb (String.eqb x) arr.

(** [arr.slice(-n)]: the last [n] elements (all of them when there are
    fewer). *)
Definition slice_last {A} (n : nat) (arr : list A) : list A :=
  skipn (List.length arr - n) arr.

(** [a / b > c] on numbers, for integral [a], [b]: the quotient as an exact
    rational.  On IEEE doubles the comparison with the literals used in
    the modules (0.8, 0.7, 0.3) has the same outcome for operands below
    2^50, since a quotient that differs from the literal differs by more
    than an ulp and one that equals it rounds to the literal itself. *)
Definition ratio (a b : nat) : Q := (inject_Z (Z.of_nat a) / inject_Z (Z.of_nat b))%Q.

Definition Qgtb (x y : Q) : bool := negb (Qle_bool x y).

(** [s.trim()] *)
Fixpoint trimStart_units (l : list ascii) : list ascii :=
  match l with
  | [] => []
  | c :: rest => if is_space c then trimStart_units rest else l
  end.

Definition trim (s : string) : string :=
  string_of_list_ascii
    (rev (trimStart_units (rev (trimStart_units (list_ascii_of_string s))))).

(** [arr.join(sep)] on an array of strings *)
Definition join (sep : string) (arr : list string) : string := String.concat sep arr.

(** A [Map] from keys to arrays, in insertion order of the keys:
    [if (!m.has(key)) m.set(key, []); m.get(key).push(x)]. *)
Fixpoint push_group {K A} (eqb : K -> K -> bool) (key : K) (x : A)
         (m : list (K * list A)) : list (K * list A) :=
  match m with
  | [] => [(key, [x])]
  | (k, members) :: rest =>
      if eqb key k then (k, (members ++ [x])%list) :: rest
      else (k, members) :: push_group eqb key x rest
  end.

(** The map after a loop that files every element under its key. *)
Definition group_by {K A} (eqb : K -> K -> bool) (key : A -> K) (l : list A)
  : list (K * list A) :=
  fold_left (fun m x => push_group eqb (key x) x m) l [].

(** An entry of such a map holds at least one element, and its elements
    share the key. *)
Definition wellGrouped {K A} (key : A -> K) (g : K * list A) : Prop :=
  snd g <> [] /\ Forall (fun x => key x = fst g) (snd g).

End JS.

(* ===================================================================== *)
(** * Change events: the data handed from stage to stage *)
(* ===================================================================== *)

(** The [type] of a change event, as [_categorizeChangeType] and
    [_summarizeChangeGroup] produce it. *)
Inductive ChangeType :=
  | addition | removal | replacement | attribute | text | group | unknown.

Record ParentContext := {
  heading : string;
  section : string
}.

(** The [context] object of [_extractContextInfo]; an absent string is the
    empty string, which JavaScript treats as false like [undefined]. *)
Record Context := {
  role : string;
  label : string;
  parentContext : option ParentContext;
  isForm : bool;
  isInteractive : bool;
  isLiveRegion : bool
}.

Record Content := {
  c_text : string;
  c_html : string;
  c_old : string;
  c_new : string
}.

(** A change data object; [element] is the identity of the target node. *)
Record ChangeData := {
  type : ChangeType;
  content : Content;
  element : nat;
  cd_timestamp : Z;
  context : option Context
}.

(* ===================================================================== *)
(** * content-detection.js : ContentDetectionModule *)
(* ===================================================================== *)

Module Detection.

(** [MutationRecord.type] *)
Inductive MutationType := childList | attributes | characterData.

Record MutationRecord := {
  m_type : MutationType;
  target : nat;
  addedNodes : list nat;
  removedNodes : list nat;
  attributeName : option string;
  oldValue : option string
}.

Definition is_childList (m : MutationRecord) : bool :=
  match m_type m with childList => true | _ => false end.
Definition is_attributes (m : MutationRecord) : bool :=
  match m_type m with attributes => true | _ => false end.
Definition is_characterData (m : MutationRecord) : bool :=
  match m_type m with characterData => true | _ => false end.

(** [arr.length > 0] *)
Definition nonempty {A} (l : list A) : bool := (0 <? List.length l)%nat.

(** [_categorizeChangeType(mutationGroup)]; [some] is [existsb]. *)
Definition _categorizeChangeType (mutationGroup : list MutationRecord) : ChangeType :=
  let hasAdditions :=
    existsb (fun m => is_childList m && nonempty (addedNodes m)) mutationGroup in
  let hasRemovals :=
    existsb (fun m => is_childList m && nonempty (removedNodes m)) mutationGroup in
  let hasAttributeChanges := existsb is_attributes mutationGroup in
  let hasTextChanges := existsb is_characterData mutationGroup in
  if hasAdditions && negb hasRemovals then addition
  else if hasRemovals && negb hasAdditions then removal
  else if hasAdditions && hasRemovals then replacement
  else if hasAttributeChanges then attribute
  else if hasTextChanges then text
  else unknown.

(** ** Listener notification

    A listener is consumer code: it acts on the consumer's own state [W]
    and either returns or throws.  The observer's side of the world
    records, in order, which listener was called with which batch
    ([invoked]) and what was written by [console.error]. *)
Section Notify.
Context {Changes W Exn : Type}.

Inductive Completion (A : Type) :=
  | Returned (a : A)
  | Thrown (e : Exn).
Arguments Returned {A} a.
Arguments Thrown {A} e.

Definition Listener := Changes -> W -> Completion unit * W.

Record World := {
  consumer : W;
  invoked : list (Listener * Changes);
  console_error : list Exn
}.

Definition D (A : Type) := World -> Completion A * World.

Definition ret {A} (a : A) : D A := fun w => (Returned a, w).

Definition bind {A B} (m : D A) (k : A -> D B) : D B :=
  fun w => match m w with
           | (Returned a, w') => k a w'
           | (Thrown e, w') => (Thrown e, w')
           end.

(** [try { body } catch (error) { handler(error) }] *)
Definition try_catch {A} (body : D A) (handler : Exn -> D A) : D A :=
  fun w => match body w with
           | (Returned a, w') => (Returned a, w')
           | (Thrown e, w') => handler e w'
           end.

(** [listener(changes)] *)
Definition call (listener : Listener) (changes : Changes) : D unit :=
  fun w =>
    let '(r, c') := listener changes (consumer w) in
    (r, {| consumer := c';
           invoked := (invoked w ++ [(listener, changes)])%list;
           console_error := console_error w |}).

(** [console.error('Error in change listener:', error)] *)
Definition log_error (e : Exn) : D unit :=
  fun w => (Returned tt,
            {| consumer := consumer w;
               invoked := invoked w;
               console_error := (console_error w ++ [e])%list |}).

(** [_notifyChangeListeners(changes)] over [this.changeListeners] *)
Fixpoint _notifyChangeListeners (changeListeners : list Listener)
         (changes : Changes) : D unit :=
  match changeListeners with
  | [] => ret tt
  | listener :: rest =>
      bind (try_catch (call listener changes) (fun error => log_error error))
           (fun _ => _notifyChangeListeners rest changes)
  end.

(** What the listeners make of the consumer's state when they are called
    one after the other on [changes], each on the state the one before
    left, whether it returned or threw. *)
Fixpoint consumerAfter (changeListeners : list Listener) (changes : Changes) (c : W) : W :=
  match changeListeners with
  | [] => c
  | listener :: rest => consumerAfter rest changes (snd (listener changes c))
  end.

(** The exceptions that the listeners throw on that way, in order. *)
Fixpoint thrownBy (changeListeners : list Listener) (changes : Changes) (c : W)
  : list Exn :=
  match changeListeners with
  | [] => []
  | listener :: rest =>
      match fst (listener changes c) with
      | Thrown e => e :: thrownBy rest changes (snd (listener changes c))
      | Returned _ => thrownBy rest changes (snd (listener changes c))
      end
  end.

End Notify.

Arguments Returned {Exn A} a.
Arguments Thrown {Exn A} e.
Arguments World : clear implicits.
Arguments Listener : clear implicits.

(** ** Vocabulary for statements about classification

    Which kinds of record a group holds, as membership statements. *)
Definition adds (g : list MutationRecord) : Prop :=
  exists m, In m g /\ m_type m = childList /\ addedNodes m <> [].

Definition removes (g : list MutationRecord) : Prop :=
  exists m, In m g /\ m_type m = childList /\ removedNodes m <> [].

Definition hasAttributeRecord (g : list MutationRecord) : Prop :=
  exists m, In m g /\ m_type m = attributes.

Definition hasCharacterDataRecord (g : list MutationRecord) : Prop :=
  exists m, In m g /\ m_type m = characterData.

Definition onlyAttributeRecords (g : list MutationRecord) : Prop :=
  forall m, In m g -> m_type m = attributes.

Definition onlyCharacterDataRecords (g : list MutationRecord) : Prop :=
  forall m, In m g -> m_type m = characterData.

(** Two groups hold the same records, whatever their order or repetition. *)
Definition sameRecords (g g' : list MutationRecord) : Prop :=
  forall m, In m g <-> In m g'.

(** ** Sample data *)

(** A removal followed by an addition on the same target. *)
Definition sampleReplacementGroup : list MutationRecord :=
  [ {| m_type := childList; target := 1; addedNodes := []; removedNodes := [7];
       attributeName := None; oldValue := None |};
    {| m_type := childList; target := 1; addedNodes := [8]; removedNodes := [];
       attributeName := None; oldValue := None |} ].

(** Three listeners over a counter: the first and the last count the batch,
    the middle one throws. *)
Definition countingListener : Listener (list nat) nat string :=
  fun changes n => (Returned tt, n + List.length changes).

Definition faultyListener : Listener (list nat) nat string :=
  fun _ n => (Thrown "boom", n).

(** ** Grouping of mutation records *)

(** [_groupRelatedMutations(mutations)]: a [Map] keyed by the target node,
    read out in insertion order. *)
Definition _groupRelatedMutations (mutations : list MutationRecord)
  : list (list MutationRecord) :=
  map snd (JS.group_by Nat.eqb target mutations).

(** ** Throttling

    [this], as far as [_handleMutations] and [_processPendingChanges] use
    it.  [timers] counts the timeouts that were set and have not fired;
    [processedBatches] lists, in call order, the arrays handed to
    [_processMutations].  Such a call returns or throws (it reads the page
    and nothing catches what that raises); neither method has a [try], so
    a throw leaves the method at the call. *)
Record Observer := {
  throttleTime : Z;
  lastProcessedTime : Z;
  pendingChanges : list MutationRecord;
  isProcessing : bool;
  timers : nat;
  processedBatches : list (list MutationRecord)
}.

Definition newObserver (throttleTime : Z) : Observer :=
  {| throttleTime := throttleTime; lastProcessedTime := 0; pendingChanges := [];
     isProcessing := false; timers := 0; processedBatches := [] |}.

(** [_handleMutations(mutations)], with [now] what [Date.now()] reads.
    The call of [_processMutations] is its last statement: whether the call
    returns or throws, the observer is left the same. *)
Definition _handleMutations (now : Z) (mutations : list MutationRecord) (this : Observer)
  : Observer :=
  if (now - lastProcessedTime this <? throttleTime this)%Z then
    let pending := (pendingChanges this ++ mutations)%list in
    if negb (isProcessing this) then
      {| throttleTime := throttleTime this;
         lastProcessedTime := lastProcessedTime this;
         pendingChanges := pending;
         isProcessing := true;
         timers := S (timers this);
         processedBatches := processedBatches this |}
    else
      {| throttleTime := throttleTime this;
         lastProcessedTime := lastProcessedTime this;
         pendingChanges := pending;
         isProcessing := isProcessing this;
         timers := timers this;
         processedBatches := processedBatches this |}
  else
    {| throttleTime := throttleTime this;
       lastProcessedTime := now;
       pendingChanges := pendingChanges this;
       isProcessing := isProcessing this;
       timers := timers this;
       processedBatches := (processedBatches this ++ [mutations])%list |}.

(** [_processPendingChanges()]; [returns] tells whether the call of
    [_processMutations], when there is one, returns.  When it throws, the
    assignments to [pendingChanges] and [isProcessing] after it are not
    reached. *)
Definition _processPendingChanges (returns : bool) (this : Observer) : Observer :=
  if nonempty (pendingChanges this) then
    if returns then
      {| throttleTime := throttleTime this;
         lastProcessedTime := lastProcessedTime this;
         pendingChanges := [];
         isProcessing := false;
         timers := timers this;
         processedBatches := (processedBatches this ++ [pendingChanges this])%list |}
    else
      {| throttleTime := throttleTime this;
         lastProcessedTime := lastProcessedTime this;
         pendingChanges := pendingChanges this;
         isProcessing := isProcessing this;
         timers := timers this;
         processedBatches := (processedBatches this ++ [pendingChanges this])%list |}
  else
    {| throttleTime := throttleTime this;
       lastProcessedTime := lastProcessedTime this;
       pendingChanges := pendingChanges this;
       isProcessing := false;
       timers := timers this;
       processedBatches := processedBatches this |}.

(** A timeout fires and runs its callback; without a timeout that was set
    nothing fires. *)
Definition timeout (returns : bool) (this : Observer) : Observer :=
  match timers this with
  | O => this
  | S n =>
      _processPendingChanges returns
        {| throttleTime := throttleTime this;
           lastProcessedTime := lastProcessedTime this;
           pendingChanges := pendingChanges this;
           isProcessing := isProcessing this;
           timers := n;
           processedBatches := processedBatches this |}
  end.

(** What can happen to the observer, and a run of such events. *)
Inductive ObserverEvent :=
  | Mutations (now : Z) (mutations : list MutationRecord)
  | Timeout (returns : bool).

Definition observerStep (this : Observer) (e : ObserverEvent) : Observer :=
  match e with
  | Mutations now mutations => _handleMutations now mutations this
  | Timeout returns => timeout returns this
  end.

Definition observerRun (events : list ObserverEvent) (this : Observer) : Observer :=
  fold_left observerStep events this.

(** The records delivered by a run, in delivery order. *)
Fixpoint delivered (events : list ObserverEvent) : list MutationRecord :=
  match events with
  | [] => []
  | Mutations _ mutations :: rest => (mutations ++ delivered rest)%list
  | Timeout _ :: rest => delivered rest
  end.

(** No timer callback of the run throws. *)
Definition callbacksReturn (events : list ObserverEvent) : Prop :=
  forall e, In e events -> e <> Timeout false.

(** The throttle after a throw in the timer callback: [isProcessing] is
    set and no timeout is. *)
Definition blocked (this : Observer) : Prop :=
  isProcessing this = true /\ timers this = 0%nat.

(** ** The content of a change

    The page, as far as [_extractContentFromChange] asks it: the
    [textContent] of a node ([None] is [null]), its [outerHTML] ([None] is
    [undefined], as on a text node) and [getAttribute] on a target ([None]
    is [null]). *)
Definition truthy (s : string) : bool := (0 <? String.length s)%nat.

(** [v || ''] *)
Definition orEmpty (v : option string) : string :=
  match v with Some s => s | None => "" end.

(** A value inside a template literal. *)
Definition interpolated (v : option string) : string :=
  match v with Some s => s | None => "null" end.

Definition dquote : string := String (ascii_of_nat 34) EmptyString.

Section Page.
Variable textContent : nat -> option string.
Variable outerHTML : nat -> option string.
Variable getAttribute : nat -> string -> option string.

(** [if (node.textContent) acc += node.textContent + ' '] *)
Definition addText (acc : string) (node : nat) : string :=
  if truthy (orEmpty (textContent node))
  then acc ++ orEmpty (textContent node) ++ " " else acc.

(** [if (node.outerHTML) acc += node.outerHTML] *)
Definition addHTML (acc : string) (node : nat) : string :=
  if truthy (orEmpty (outerHTML node)) then acc ++ orEmpty (outerHTML node) else acc.

(** The loops of the [addition] and [replacement] cases over the
    [childList] records; the state is [(old, text, html)]. *)
Definition collectNodes (withRemoved : bool) (mutationGroup : list MutationRecord)
  : string * string * string :=
  fold_left
    (fun acc mutation =>
       if is_childList mutation then
         let '(old, t, html) := acc in
         let old := if withRemoved
                    then fold_left addText (removedNodes mutation) old else old in
         fold_left (fun acc node =>
                      let '(old, t, html) := acc in
                      (old, addText t node, addHTML html node))
                   (addedNodes mutation) (old, t, html)
       else acc)
    mutationGroup ("", "", "").

(** The loop of the [text] case; the state is [(old, new)]. *)
Definition lastCharacterData (mutationGroup : list MutationRecord) : string * string :=
  fold_left
    (fun acc mutation =>
       if is_characterData mutation
       then (orEmpty (oldValue mutation), orEmpty (textContent (target mutation)))
       else acc)
    mutationGroup ("", "").

(** [attrName + ' changed from "' + oldValue + '" to "' + newValue + '"'] *)
Definition attributeText (attrName : string) (old new : option string) : string :=
  attrName ++ " changed from " ++ dquote ++ interpolated old ++ dquote
           ++ " to " ++ dquote ++ interpolated new ++ dquote.

(** The loop of the [attribute] case; the state is the text, and [None]
    is the [TypeError] of [attrName.startsWith] on a record without an
    attribute name. *)
Fixpoint attributeLoop (mutationGroup : list MutationRecord) (t : string)
  : option string :=
  match mutationGroup with
  | [] => Some t
  | mutation :: rest =>
      if is_attributes mutation then
        match attributeName mutation with
        | None => None
        | Some attrName =>
            let newValue := getAttribute (target mutation) attrName in
            if JS.startsWith attrName "aria-" || String.eqb attrName "role"
            then attributeLoop rest (attributeText attrName (oldValue mutation) newValue)
            else attributeLoop rest t
        end
      else attributeLoop rest t
  end.

(** [if (mutationGroup[0].target.textContent) textContent = ....trim()],
    entered with [t]; [None] is the [TypeError] on an empty group. *)
Definition targetText (mutationGroup : list MutationRecord) (t : string) : option string :=
  match mutationGroup with
  | [] => None
  | first :: _ =>
      if truthy (orEmpty (textContent (target first)))
      then Some (JS.trim (orEmpty (textContent (target first))))
      else Some t
  end.

(** [_extractContentFromChange(mutationGroup, changeType)]; [None] when it
    throws. *)
Definition _extractContentFromChange (mutationGroup : list MutationRecord)
           (changeType : ChangeType) : option Content :=
  match changeType with
  | addition =>
      let '(oldContent, textContent, htmlContent) := collectNodes false mutationGroup in
      let newContent := JS.trim textContent in
      Some {| c_text := textContent; c_html := htmlContent;
              c_old := JS.trim oldContent; c_new := JS.trim newContent |}
  | removal =>
      Some {| c_text := ""; c_html := "";
              c_old := JS.trim ""; c_new := JS.trim "[Content removed]" |}
  | replacement =>
      let '(oldContent, newContent, htmlContent) := collectNodes true mutationGroup in
      Some {| c_text := JS.trim newContent; c_html := htmlContent;
              c_old := JS.trim oldContent; c_new := JS.trim newContent |}
  | text =>
      let '(oldContent, newContent) := lastCharacterData mutationGroup in
      Some {| c_text := newContent; c_html := "";
              c_old := JS.trim oldContent; c_new := JS.trim newContent |}
  | attribute =>
      match attributeLoop mutationGroup "" with
      | None => None
      | Some textContent =>
          match (if truthy textContent then Some textContent
                 else targetText mutationGroup textContent) with
          | None => None
          | Some textContent =>
              Some {| c_text := textContent; c_html := "";
                      c_old := JS.trim ""; c_new := JS.trim "" |}
          end
      end
  | _ =>
      match targetText mutationGroup "" with
      | None => None
      | Some textContent =>
          Some {| c_text := textContent; c_html := "";
                  c_old := JS.trim ""; c_new := JS.trim "" |}
      end
  end.

End Page.

(** [_isSignificantChange(content, changeType)] *)
Definition _isSignificantChange (minTextLength : Z) (content : Content)
           (changeType : ChangeType) : bool :=
  if (match changeType with attribute => true | _ => false end)
     && JS.startsWith (c_text content) "aria-" then true
  else if (Z.of_nat (String.length (c_text content)) <? minTextLength)%Z
          && (Z.of_nat (String.length (c_new content)) <? minTextLength)%Z then false
  else if (match changeType with text => true | _ => false end)
          && String.eqb (c_old content) (c_new content) then false
  else true.

(** ** Sample records and pages *)

(** A child node removed from element 1. *)
Definition removalRecord : MutationRecord :=
  {| m_type := childList; target := 1; addedNodes := []; removedNodes := [7];
     attributeName := None; oldValue := None |}.

(** [aria-expanded] of element 2 changed from "false". *)
Definition ariaRecord : MutationRecord :=
  {| m_type := attributes; target := 2; addedNodes := []; removedNodes := [];
     attributeName := Some "aria-expanded"; oldValue := Some "false" |}.

(** The text node 3 held "Hello " before. *)
Definition textRecord : MutationRecord :=
  {| m_type := characterData; target := 3; addedNodes := []; removedNodes := [];
     attributeName := None; oldValue := Some "Hello " |}.

(** A page on which every node reads " Hello", no node has markup and
    every attribute reads "true". *)
Definition helloText : nat -> option string := fun _ => Some " Hello".
Definition noMarkup : nat -> option string := fun _ => None.
Definition allTrue : nat -> string -> option string := fun _ _ => Some "true".

End Detection.

(* ===================================================================== *)
(** * ai-summarization.js : AISummarizationModule *)
(* ===================================================================== *)

Module Summarization.

Record Options := {
  maxSummaryLength : nat;
  minContentLength : nat;
  preserveContext : bool;
  localProcessingOnly : bool
}.

(** The constructor's defaults. *)
Definition defaultOptions : Options :=
  {| maxSummaryLength := 150;
     minContentLength := 20;
     preserveContext := true;
     localProcessingOnly := false |}.

Record ContextEntry := {
  h_timestamp : Z;
  h_summary : string;
  h_changeType : ChangeType;
  h_elementRole : string;
  h_elementLabel : string
}.

(** [this]: the options and the rolling context history. *)
Record Engine := {
  options : Options;
  contextHistory : list ContextEntry
}.

Definition maxContextItems : nat := 5.

Definition newEngine (o : Options) : Engine :=
  {| options := o; contextHistory := [] |}.

(** The summary object returned by the engine. *)
Record Summary := {
  original : ChangeData;
  summary : string;
  priority : Z;
  timestamp : Z;
  isDirectSummary : bool
}.

(** The double-quote character of the form-field templates. *)
Definition dquote : string := String (ascii_of_nat 34) EmptyString.

(** [_extractRelevantText(changeData)] *)
Definition _extractRelevantText (changeData : ChangeData) : string :=
  let content := content changeData in
  if (0 <? String.length (c_new content))%nat then c_new content
  else if (0 <? String.length (c_text content))%nat then c_text content
  else "".

(** [_determinePriority(changeData, summary)] *)
Definition _determinePriority (changeData : ChangeData) (summary : string) : Z :=
  let priority := 5%Z in
  let priority :=
    match context changeData with
    | Some ctx =>
        let priority := if isLiveRegion ctx then (priority + 3)%Z else priority in
        let priority := if isInteractive ctx then (priority + 1)%Z else priority in
        let priority :=
          if isForm ctx &&
             (JS.includes summary "error" || JS.includes summary "Error")
          then (priority + 3)%Z else priority in
        let priority :=
          if String.eqb (role ctx) "heading" then (priority + 2)%Z else priority in
        priority
    | None => priority
    end in
  let priority :=
    if JS.includes summary "error" || JS.includes summary "Error" ||
       JS.includes summary "alert" || JS.includes summary "Alert" ||
       JS.includes summary "warning" || JS.includes summary "Warning"
    then (priority + 2)%Z else priority in
  let priority :=
    match type changeData with
    | addition => (priority + 1)%Z
    | removal => (priority - 1)%Z
    | group => (priority + 1)%Z
    | _ => priority
    end in
  Z.max 1 (Z.min 10 priority).

(** [roleMap[context.role] || context.role] *)
Definition roleName (r : string) : string :=
  if String.eqb r "button" then "Button"
  else if String.eqb r "link" then "Link"
  else if String.eqb r "checkbox" then "Checkbox"
  else if String.eqb r "radio" then "Radio button"
  else if String.eqb r "textbox" then "Text field"
  else if String.eqb r "combobox" then "Dropdown"
  else if String.eqb r "heading" then "Heading"
  else r.

Definition truthy (s : string) : bool := (0 <? String.length s)%nat.

(** The text of [_createDirectSummary(changeData, text)]. *)
Definition directSummaryText (changeData : ChangeData) (text : string) : string :=
  let summary := text in
  match context changeData with
  | Some context =>
      let summary :=
        if truthy (role context) then
          let roleName := roleName (role context) in
          if isInteractive context then
            match type changeData with
            | addition => roleName ++ " added: " ++ text
            | removal => roleName ++ " removed"
            | text => roleName ++ " updated to: " ++ text
            | attribute => roleName ++ " state changed: " ++ text
            | _ => roleName ++ ": " ++ text
            end
          else summary
        else summary in
      let summary :=
        if isForm context then
          let label := label context in
          if truthy label
          then "Form field " ++ dquote ++ label ++ dquote ++ " updated to: " ++ text
          else summary
        else summary in
      let summary := if isLiveRegion context then text else summary in
      summary
  | None => summary
  end.

(** [_createDirectSummary(changeData, text)] *)
Definition _createDirectSummary (changeData : ChangeData) (text : string) (now : Z)
  : Summary :=
  let summary := directSummaryText changeData text in
  {| original := changeData;
     summary := summary;
     priority := _determinePriority changeData summary;
     timestamp := now;
     isDirectSummary := true |}.

(** [_generateLocalSummary(changeData, text)]; [None] is the [TypeError] of
    reading [context.role] or [context.isForm] when the change has no
    context. *)
Definition _generateLocalSummary (o : Options) (changeData : ChangeData) (text : string)
  : option string :=
  if (maxSummaryLength o <? String.length text)%nat then
    Some (JS.substring0 (maxSummaryLength o - 3) text ++ "...")
  else
    let context := context changeData in
    match type changeData with
    | addition =>
        match context with
        | None => None
        | Some context =>
            if String.eqb (role context) "heading" then Some ("New section: " ++ text)
            else if isInteractive context then
              Some ("New " ++ (if truthy (role context) then role context else "element")
                      ++ " added: " ++ text)
            else Some ("New content: " ++ text)
        end
    | removal => Some ("Content removed: " ++ text)
    | text =>
        match context with
        | None => None
        | Some context =>
            if isForm context then Some ("Form updated: " ++ text)
            else if isLiveRegion context then Some text
            else Some ("Updated: " ++ text)
        end
    | attribute =>
        if JS.startsWith text "aria-" then Some ("Accessibility state changed: " ++ text)
        else Some ("Element state changed: " ++ text)
    | group => Some ("Multiple updates: " ++ text)
    | _ => Some text
    end.

(** The object built by [_buildSummarizationContext(changeData)]. *)
Record SummarizationContext := {
  changeType : ChangeType;
  elementRole : string;
  elementLabel : string;
  sc_isInteractive : bool;
  sc_isForm : bool;
  sc_isLiveRegion : bool;
  parentHeading : string;
  parentSection : string;
  previousContext : list ContextEntry
}.

Definition _buildSummarizationContext (this : Engine) (changeData : ChangeData)
  : SummarizationContext :=
  let ctx := context changeData in
  let parent := ctx ≫= parentContext in
  {| changeType := type changeData;
     elementRole := from_option role "" ctx;
     elementLabel := from_option label "" ctx;
     sc_isInteractive := from_option isInteractive false ctx;
     sc_isForm := from_option isForm false ctx;
     sc_isLiveRegion := from_option isLiveRegion false ctx;
     parentHeading := from_option heading "" parent;
     parentSection := from_option section "" parent;
     previousContext := JS.slice_last 2 (contextHistory this) |}.

Definition mentions_failure (text : string) : bool :=
  JS.includes text "error" || JS.includes text "Error" || JS.includes text "failed".

(** [_simulateAISummarization(text, context, changeData)]; the 50 ms delay
    it awaits first is not modelled. *)
Definition _simulateAISummarization (o : Options) (text : string)
           (context : SummarizationContext) (changeData : ChangeData) : string :=
  let text :=
    if (maxSummaryLength o * 2 <? String.length text)%nat
    then JS.substring0 (maxSummaryLength o * 2) text else text in
  let summary :=
    match type changeData with
    | addition =>
        if sc_isLiveRegion context then text
        else if String.eqb (elementRole context) "heading" then "New section: " ++ text
        else if sc_isForm context then
          "New form field added: " ++
            (if truthy (elementLabel context) then elementLabel context else text)
        else if sc_isInteractive context then
          "New " ++ (if truthy (elementRole context) then elementRole context
                     else "interactive element") ++ " added: " ++ text
        else if mentions_failure text then "Error message: " ++ text
        else if (100 <? String.length text)%nat then
          "New content added: " ++ JS.substring0 100 text ++ "..."
        else "New content: " ++ text
    | removal =>
        if sc_isInteractive context then
          (if truthy (elementRole context) then elementRole context else "Element")
            ++ " removed"
        else "Content removed"
    | text =>
        if sc_isForm context then
          let label :=
            if truthy (elementLabel context)
            then dquote ++ elementLabel context ++ dquote else "" in
          "Form field " ++ label ++ " updated to: " ++ text
        else if sc_isLiveRegion context then text
        else if mentions_failure text then "Error message: " ++ text
        else "Updated content: " ++ text
    | attribute =>
        if JS.startsWith text "aria-" then "Accessibility state changed: " ++ text
        else "Element state changed: " ++ text
    | group => "Multiple updates: " ++ JS.substring0 (maxSummaryLength o) text
    | _ => text
    end in
  if (maxSummaryLength o <? String.length summary)%nat
  then JS.substring0 (maxSummaryLength o - 3) summary ++ "..."
  else summary.

(** [_generateSummary(changeData, text)]; [None] when it throws. *)
Definition _generateSummary (this : Engine) (changeData : ChangeData) (text : string)
  : option string :=
  if localProcessingOnly (options this) then
    _generateLocalSummary (options this) changeData text
  else
    let context := _buildSummarizationContext this changeData in
    Some (_simulateAISummarization (options this) text context changeData).

(** [_updateContextHistory(changeData, summary)] *)
Definition _updateContextHistory (this : Engine) (changeData : ChangeData)
           (summary : string) (now : Z) : Engine :=
  let pushed :=
    (contextHistory this ++
      [{| h_timestamp := now;
          h_summary := summary;
          h_changeType := type changeData;
          h_elementRole := from_option role "" (context changeData);
          h_elementLabel := from_option label "" (context changeData) |}])%list in
  {| options := options this;
     contextHistory :=
       if (maxContextItems <? List.length pushed)%nat then tail pushed else pushed |}.

(** [_processSingleChange(changeData)]: the summary and the engine
    afterwards.  The [catch] branch is the [None] of [_generateSummary]. *)
Definition _processSingleChange (this : Engine) (changeData : ChangeData) (now : Z)
  : Summary * Engine :=
  let relevantText := _extractRelevantText changeData in
  if (String.length relevantText <? minContentLength (options this))%nat then
    (_createDirectSummary changeData relevantText now, this)
  else
    match _generateSummary this changeData relevantText with
    | Some summary =>
        let this' :=
          if preserveContext (options this)
          then _updateContextHistory this changeData summary now else this in
        ({| original := changeData;
            summary := summary;
            priority := _determinePriority changeData summary;
            timestamp := now;
            isDirectSummary := false |}, this')
    | None => (_createDirectSummary changeData relevantText now, this)
    end.

(** ** Vocabulary for statements about priority

    The adjustments of the specification, one per condition. *)
Definition clamp (p : Z) : Z := Z.max 1 (Z.min 10 p).

Definition liveRegionAdjustment (changeData : ChangeData) : Z :=
  match context changeData with
  | Some ctx => if isLiveRegion ctx then 3%Z else 0%Z
  | None => 0%Z
  end.

Definition interactiveAdjustment (changeData : ChangeData) : Z :=
  match context changeData with
  | Some ctx => if isInteractive ctx then 1%Z else 0%Z
  | None => 0%Z
  end.

Definition formErrorAdjustment (changeData : ChangeData) (summary : string) : Z :=
  match context changeData with
  | Some ctx =>
      if isForm ctx && (JS.includes summary "error" || JS.includes summary "Error")
      then 3%Z else 0%Z
  | None => 0%Z
  end.

Definition headingAdjustment (changeData : ChangeData) : Z :=
  match context changeData with
  | Some ctx => if String.eqb (role ctx) "heading" then 2%Z else 0%Z
  | None => 0%Z
  end.

Definition kindAdjustment (changeData : ChangeData) : Z :=
  match type changeData with
  | addition => 1%Z
  | removal => (-1)%Z
  | group => 1%Z
  | _ => 0%Z
  end.

(** The summary holds one of the three words in one of the two spellings
    the engine looks for. *)
Definition mentionsKeywordAsWritten (summary : string) : bool :=
  JS.includes summary "error" || JS.includes summary "Error" ||
  JS.includes summary "alert" || JS.includes summary "Alert" ||
  JS.includes summary "warning" || JS.includes summary "Warning".

(** The summary holds one of the three words in any letter casing. *)
Definition mentionsKeywordAnyCase (summary : string) : bool :=
  JS.includes (JS.toLowerCase summary) "error" ||
  JS.includes (JS.toLowerCase summary) "alert" ||
  JS.includes (JS.toLowerCase summary) "warning".

Definition keywordAdjustment (summary : string) : Z :=
  if mentionsKeywordAsWritten summary then 2%Z else 0%Z.

(** Base score and every adjustment but the keyword one. *)
Definition scoreBesidesKeyword (changeData : ChangeData) (summary : string) : Z :=
  (5 + liveRegionAdjustment changeData + interactiveAdjustment changeData
     + formErrorAdjustment changeData summary + headingAdjustment changeData
     + kindAdjustment changeData)%Z.

(** ** Sample data *)

Definition plainContent (t : string) : Content :=
  {| c_text := t; c_html := ""; c_old := ""; c_new := t |}.

(** A text change without context. *)
Definition bareTextChange (t : string) : ChangeData :=
  {| type := text; content := plainContent t; element := 0;
     cd_timestamp := 0; context := None |}.

Definition headingContext : Context :=
  {| role := "heading"; label := ""; parentContext := None;
     isForm := false; isInteractive := false; isLiveRegion := false |}.

(** Scenario B: a heading is added with the text "Breaking News". *)
Definition breakingNews : ChangeData :=
  {| type := addition; content := plainContent "Breaking News"; element := 1;
     cd_timestamp := 0; context := Some headingContext |}.

(** An engine whose direct-summary gate is lowered to 10 characters. *)
Definition eagerOptions : Options :=
  {| maxSummaryLength := 150; minContentLength := 10;
     preserveContext := true; localProcessingOnly := false |}.

(** ** Batches *)

(** The array with its positions: [assignedChanges] is a set of object
    identities, and every position of the array counts as an object of its
    own. *)
Definition numbered {A} (l : list A) : list (nat * A) :=
  combine (seq 0 (List.length l)) l.

(** [assignedChanges.has(change)] *)
Definition isAssigned (i : nat) (assignedChanges : list nat) : bool :=
  existsb (Nat.eqb i) assignedChanges.

(** The first pass of [_groupRelatedChanges]: by target element. *)
Definition groupByTarget (changes : list (nat * ChangeData))
  : list (nat * list ChangeData) * list nat :=
  fold_left
    (fun acc entry =>
       (JS.push_group Nat.eqb (element (snd entry)) (snd entry) (fst acc),
        (snd acc ++ [fst entry])%list))
    changes ([], []).

(** The key of the second pass; [None] is the [TypeError] of reading
    [parentContext] or [heading] of [undefined]. *)
Definition contextKey (change : ChangeData) : option string :=
  match context change with
  | Some ctx =>
      match parentContext ctx with
      | Some p => Some (heading p ++ "|" ++ section p)
      | None => None
      end
  | None => None
  end.

(** The second pass: changes not yet assigned, by parent context. *)
Fixpoint groupByContext (changes : list (nat * ChangeData))
         (contextGroups : list (string * list ChangeData)) (assignedChanges : list nat)
  : option (list (string * list ChangeData) * list nat) :=
  match changes with
  | [] => Some (contextGroups, assignedChanges)
  | (i, change) :: rest =>
      if isAssigned i assignedChanges then groupByContext rest contextGroups assignedChanges
      else
        match contextKey change with
        | None => None
        | Some key =>
            groupByContext rest (JS.push_group String.eqb key change contextGroups)
                           (assignedChanges ++ [i])%list
        end
  end.

(** The third pass: what is left, one group each. *)
Definition leftoverGroups (changes : list (nat * ChangeData)) (assignedChanges : list nat)
  : list (list ChangeData) :=
  map (fun entry => [snd entry])
      (List.filter (fun entry => negb (isAssigned (fst entry) assignedChanges)) changes).

Definition nonemptyGroup (g : list ChangeData) : bool := (0 <? List.length g)%nat.

(** [_groupRelatedChanges(changes)]; [None] when it throws. *)
Definition _groupRelatedChanges (changes : list ChangeData)
  : option (list (list ChangeData)) :=
  let entries := numbered changes in
  let firstPass := groupByTarget entries in
  let groups := List.filter nonemptyGroup (map snd (fst firstPass)) in
  match groupByContext entries [] (snd firstPass) with
  | None => None
  | Some (contextGroups, assignedChanges) =>
      let groups := (groups ++ List.filter nonemptyGroup (map snd contextGroups))%list in
      Some (groups ++ leftoverGroups entries assignedChanges)%list
  end.

(** A summarized group with the changes it stands for, which is what
    [group.original.changes || [group.original]] evaluates to. *)
Record ProcessedGroup := {
  processed : Summary;
  members : list ChangeData
}.

(** The text and the context that [_summarizeChangeGroup] collects. *)
Definition combinedTextOf (changeGroup : list ChangeData) : string :=
  JS.trim
    (fold_left
       (fun combinedText change =>
          let t := _extractRelevantText change in
          if truthy t then combinedText ++ t ++ " " else combinedText)
       changeGroup "").

Definition combinedContextOf (changeGroup : list ChangeData) : option Context :=
  fold_left
    (fun combinedContext change =>
       match combinedContext with
       | Some c => Some c
       | None => context change
       end)
    changeGroup None.

(** [_summarizeChangeGroup(changeGroup)]; [None] is the [TypeError] of
    [changeGroup[0].element] on an empty group. *)
Definition _summarizeChangeGroup (this : Engine) (changeGroup : list ChangeData) (now : Z)
  : option (ProcessedGroup * Engine) :=
  match changeGroup with
  | [change] =>
      let r := _processSingleChange this change now in
      Some ({| processed := fst r; members := [change] |}, snd r)
  | [] => None
  | first :: _ =>
      let combinedText := combinedTextOf changeGroup in
      let groupChangeData :=
        {| type := group;
           content := {| c_text := combinedText; c_html := "";
                         c_old := ""; c_new := combinedText |};
           element := element first;
           cd_timestamp := now;
           context := combinedContextOf changeGroup |} in
      let r := _processSingleChange this groupChangeData now in
      Some ({| processed := fst r; members := changeGroup |}, snd r)
  end.

(** [processedGroups.sort((a, b) => b.priority - a.priority)]: a stable
    sort by descending priority. *)
Fixpoint insertByPriority (x : ProcessedGroup) (l : list ProcessedGroup)
  : list ProcessedGroup :=
  match l with
  | [] => [x]
  | y :: rest =>
      if (priority (processed y) <=? priority (processed x))%Z then x :: y :: rest
      else y :: insertByPriority x rest
  end.

Definition sortByPriority (l : list ProcessedGroup) : list ProcessedGroup :=
  fold_right insertByPriority [] l.

(** The combined result: the main summary and its [allChanges]. *)
Record BatchSummary := {
  main : Summary;
  allChanges : list ChangeData
}.

(** [_combineGroupResults(processedGroups)]; [None] is the [TypeError] of
    assigning to [mainResult] when there is no group. *)
Definition _combineGroupResults (processedGroups : list ProcessedGroup)
  : option BatchSummary :=
  let sorted := sortByPriority processedGroups in
  match sorted with
  | [] => None
  | mainResult :: others =>
      let summaryText :=
        if (1 <? List.length sorted)%nat then
          let otherChangesCount := (List.length sorted - 1)%nat in
          let otherChangesSummary :=
            JS.join ". " (map (fun g => summary (processed g)) (firstn 2 others)) in
          let additionalInfo :=
            if (2 <? otherChangesCount)%nat
            then " Plus " ++ pretty (otherChangesCount - 2)%nat ++ " more changes."
            else "" in
          summary (processed mainResult) ++ ". " ++ otherChangesSummary ++ additionalInfo
        else summary (processed mainResult) in
      Some {| main := {| original := original (processed mainResult);
                         summary := summaryText;
                         priority := priority (processed mainResult);
                         timestamp := timestamp (processed mainResult);
                         isDirectSummary := isDirectSummary (processed mainResult) |};
              allChanges := concat (map members sorted) |}
  end.

(** [Promise.all(groupedChanges.map(group => this._summarizeChangeGroup(group)))]:
    the groups are summarized in array order.  Their summaries do not depend
    on the context history, and the history entries are pushed in array
    order when the awaited steps complete, so one pass in order gives the
    summaries and the history of the concurrent run. *)
Fixpoint summarizeGroups (this : Engine) (groups : list (list ChangeData)) (now : Z)
  : option (list ProcessedGroup * Engine) :=
  match groups with
  | [] => Some ([], this)
  | g :: rest =>
      match _summarizeChangeGroup this g now with
      | None => None
      | Some (p, this') =>
          match summarizeGroups this' rest now with
          | None => None
          | Some (ps, this'') => Some (p :: ps, this'')
          end
      end
  end.

(** [_processBatchChanges(changes)]; [now] is what [Date.now()] reads
    while the batch is processed, taken as one reading for the batch. *)
Definition _processBatchChanges (this : Engine) (changes : list ChangeData) (now : Z)
  : option (BatchSummary * Engine) :=
  match _groupRelatedChanges changes with
  | None => None
  | Some groupedChanges =>
      match summarizeGroups this groupedChanges now with
      | None => None
      | Some (processedGroups, this') =>
          match _combineGroupResults processedGroups with
          | None => None
          | Some r => Some (r, this')
          end
      end
  end.

(** ** Vocabulary for further statements about the engine *)

(** The engine after a series of single changes. *)
Definition processAll (changes : list (ChangeData * Z)) (this : Engine) : Engine :=
  fold_left (fun this c => snd (_processSingleChange this (fst c) (snd c))) changes this.

(** Sorted by descending priority. *)
Fixpoint descending (l : list ProcessedGroup) : Prop :=
  match l with
  | [] => True
  | x :: rest =>
      Forall (fun y => (priority (processed y) <= priority (processed x))%Z) rest /\
      descending rest
  end.

End Summarization.

(* ===================================================================== *)
(** * priority-filtering.js : PriorityFilteringModule *)
(* ===================================================================== *)

Module Filtering.

Record Options := {
  defaultPriorityThreshold : Z;
  enableLearning : bool;
  siteSpecificSettings : bool
}.

Definition defaultOptions : Options :=
  {| defaultPriorityThreshold := 5;
     enableLearning := true;
     siteSpecificSettings := true |}.

(** One entry of [contentTypePreferences]. *)
Record TypePrefs := {
  enabled : bool;
  minPriority : Z
}.

(** [userPreferences.global], which is also the shape of the effective
    preferences that [_getApplicablePreferences] returns. *)
Record GlobalPrefs := {
  priorityThreshold : Z;
  contentTypePreferences : gmap string TypePrefs
}.

(** A partial override: an entry of [userPreferences.sites] and the
    [newPreferences] argument of [updatePreferences]. *)
Record SitePrefs := {
  site_priorityThreshold : option Z;
  site_contentTypePreferences : option (gmap string TypePrefs)
}.

(** [this.userPreferences].  Keys the module never reads are not
    represented. *)
Record UserPreferences := {
  global : GlobalPrefs;
  sites : gmap string SitePrefs
}.

(** The persisted object handed to [initializePreferences]: each of the
    two top-level keys may be absent. *)
Record StoredPreferences := {
  stored_global : option GlobalPrefs;
  stored_sites : option (gmap string SitePrefs)
}.

Inductive Interaction := viewed | dismissed | clicked.

(** An entry of [this.interactionHistory]. *)
Record InteractionRecord := {
  i_timestamp : Z;
  i_summary : string;
  contentType : string;
  i_priority : Z;
  interaction : Interaction
}.

(** [this] *)
Record Filter := {
  options : Options;
  userPreferences : UserPreferences;
  interactionHistory : list InteractionRecord
}.

Definition maxHistoryItems : nat := 100.

Definition defaultContentTypePreferences : gmap string TypePrefs :=
  <["text" := {| enabled := true; minPriority := 5 |}]>
  (<["form" := {| enabled := true; minPriority := 6 |}]>
  (<["error" := {| enabled := true; minPriority := 3 |}]>
  (<["navigation" := {| enabled := true; minPriority := 7 |}]>
  (<["media" := {| enabled := true; minPriority := 8 |}]>
  (<["chat" := {| enabled := true; minPriority := 4 |}]>
  (<["advertisement" := {| enabled := false; minPriority := 10 |}]> ∅)))))).

(** The seven content categories. *)
Definition categories : list string :=
  ["text"; "form"; "error"; "navigation"; "media"; "chat"; "advertisement"].

(** [new PriorityFilteringModule(options)] *)
Definition newFilter (o : Options) : Filter :=
  {| options := o;
     userPreferences :=
       {| global := {| priorityThreshold := defaultPriorityThreshold o;
                       contentTypePreferences := defaultContentTypePreferences |};
          sites := ∅ |};
     interactionHistory := [] |}.

(** ** Methods as computations over [this] *)

Inductive Result (A : Type) :=
  | Ok (a : A)
  | TypeError.
Arguments Ok {A} a.
Arguments TypeError {A}.

Definition M (A : Type) : Type := Filter -> Result A * Filter.

#[export] Instance M_ret : MRet M := fun A a this => (Ok a, this).

#[export] Instance M_bind : MBind M := fun A B k m this =>
  match m this with
  | (Ok a, this') => k a this'
  | (TypeError, this') => (TypeError, this')
  end.

(** Reading a property of [this]. *)
Definition gets {A} (f : Filter -> A) : M A := fun this => (Ok (f this), this).

(** Assigning to properties of [this]. *)
Definition modify (f : Filter -> Filter) : M unit := fun this => (Ok tt, f this).

Definition throw {A} : M A := fun this => (TypeError, this).

Definition result {A} (m : M A) (this : Filter) : Result A := fst (m this).
Definition after {A} (m : M A) (this : Filter) : Filter := snd (m this).

Definition truthy (s : string) : bool := (0 <? String.length s)%nat.

(** What [_determineContentType] calls [context]:
    [change.original?.context || change.context || {}].  A summary of the
    engine carries [original] and has no [context] of its own, so the
    middle alternative is [undefined]; [{}] is [emptyContext]. *)
Definition emptyContext : Context :=
  {| role := ""; label := ""; parentContext := None;
     isForm := false; isInteractive := false; isLiveRegion := false |}.

Definition contextOf (change : Summarization.Summary) : Context :=
  from_option id emptyContext (context (Summarization.original change)).

(** [context.parentContext?.section?.toLowerCase().includes(w)] *)
Definition sectionMentions (context : Context) (w : string) : bool :=
  match parentContext context with
  | Some p => JS.includes (JS.toLowerCase (section p)) w
  | None => false
  end.

(** [_determineContentType(change)] *)
Definition _determineContentType (change : Summarization.Summary) : string :=
  let summary := Summarization.summary change in
  if JS.includes (JS.toLowerCase summary) "error" ||
     JS.includes (JS.toLowerCase summary) "warning" ||
     JS.includes (JS.toLowerCase summary) "alert"
  then "error"
  else
    let context := contextOf change in
    if isForm context then "form"
    else if String.eqb (role context) "navigation" ||
            String.eqb (role context) "link" ||
            String.eqb (role context) "button"
    then "navigation"
    else if String.eqb (role context) "img" ||
            String.eqb (role context) "video" ||
            String.eqb (role context) "audio"
    then "media"
    else if JS.includes summary "message" ||
            sectionMentions context "chat" ||
            sectionMentions context "message"
    then "chat"
    else if JS.includes (JS.toLowerCase summary) "ad" ||
            JS.includes (JS.toLowerCase summary) "sponsor" ||
            sectionMentions context "ad" ||
            sectionMentions context "sponsor"
    then "advertisement"
    else "text".

(** [_calculateSimilarity(str1, str2)] *)
Definition _calculateSimilarity (str1 str2 : string) : Q :=
  if String.eqb str1 str2 then 1%Q
  else if (String.length str1 =? 0)%nat || (String.length str2 =? 0)%nat then 0%Q
  else
    let s1 := JS.toLowerCase str1 in
    let s2 := JS.toLowerCase str2 in
    if JS.includes s1 s2 || JS.includes s2 s1 then
      let longerLength := Nat.max (String.length s1) (String.length s2) in
      let shorterLength := Nat.min (String.length s1) (String.length s2) in
      JS.ratio shorterLength longerLength
    else
      let words1 := JS.split_ws s1 in
      let words2 := JS.split_ws s2 in
      let matchCount :=
        fold_left
          (fun matchCount word =>
             if (3 <? String.length word)%nat && JS.arr_includes words2 word
             then S matchCount else matchCount)
          words1 0%nat in
      JS.ratio matchCount (Nat.max (List.length words1) (List.length words2)).

(** The loop of [_isDuplicate] over [recentItems]. *)
Fixpoint duplicateAmong (recentItems : list InteractionRecord) (summary : string) : bool :=
  match recentItems with
  | [] => false
  | item :: rest =>
      if String.eqb (i_summary item) summary then true
      else if JS.Qgtb (_calculateSimilarity (i_summary item) summary) (8 # 10) then true
      else duplicateAmong rest summary
  end.

(** [_isDuplicate(change)] *)
Definition _isDuplicate (change : Summarization.Summary) : M bool :=
  if negb (truthy (Summarization.summary change)) then mret false
  else
    recentItems ← gets (fun this => JS.slice_last 5 (interactionHistory this));
    mret (duplicateAmong recentItems (Summarization.summary change)).

(** [_shouldFilterByRules(change, contentType, preferences)] *)
Definition _shouldFilterByRules (change : Summarization.Summary) (contentType : string)
           (preferences : GlobalPrefs) : M bool :=
  if negb (String.eqb contentType "error") &&
     truthy (Summarization.summary change) &&
     (String.length (Summarization.summary change) <? 3)%nat
  then mret true
  else
    dup ← _isDuplicate change;
    if (dup : bool) then mret true else mret false.

(** ** Learning from interactions *)

(** The per-type counters of [typeInteractions]. *)
Record Counts := {
  n_viewed : nat;
  n_dismissed : nat;
  n_clicked : nat;
  total : nat
}.

Definition zeroCounts : Counts :=
  {| n_viewed := 0; n_dismissed := 0; n_clicked := 0; total := 0 |}.

(** [counts[item.interaction]++; counts.total++] *)
Definition bump (i : Interaction) (c : Counts) : Counts :=
  match i with
  | viewed =>
      {| n_viewed := S (n_viewed c); n_dismissed := n_dismissed c;
         n_clicked := n_clicked c; total := S (total c) |}
  | dismissed =>
      {| n_viewed := n_viewed c; n_dismissed := S (n_dismissed c);
         n_clicked := n_clicked c; total := S (total c) |}
  | clicked =>
      {| n_viewed := n_viewed c; n_dismissed := n_dismissed c;
         n_clicked := S (n_clicked c); total := S (total c) |}
  end.

(** [typeInteractions] is an object filled key by key and then walked with
    [Object.entries]: an association list in insertion order. *)
Fixpoint has_key (k : string) (l : list (string * Counts)) : bool :=
  match l with
  | [] => false
  | (k', _) :: rest => if String.eqb k k' then true else has_key k rest
  end.

Fixpoint alter_key (f : Counts -> Counts) (k : string) (l : list (string * Counts))
  : list (string * Counts) :=
  match l with
  | [] => []
  | (k', v) :: rest =>
      if String.eqb k k' then (k', f v) :: rest
      else (k', v) :: alter_key f k rest
  end.

(** The body of the counting loop. *)
Definition countItem (typeInteractions : list (string * Counts)) (item : InteractionRecord)
  : list (string * Counts) :=
  let typeInteractions :=
    if has_key (contentType item) typeInteractions then typeInteractions
    else (typeInteractions ++ [(contentType item, zeroCounts)])%list in
  alter_key (bump (interaction item)) (contentType item) typeInteractions.

(** The body of the loop over [Object.entries(typeInteractions)], acting on
    [userPreferences.global.contentTypePreferences].  The entries are
    values here: this is the loop on a filter none of whose entry objects
    is held in two places.  [Objects] below has the loop on entry objects
    with an identity. *)
Definition adjustType (prefs : gmap string TypePrefs) (entry : string * Counts)
  : gmap string TypePrefs :=
  let '(type, counts) := entry in
  if (total counts <? 3)%nat then prefs
  else
    let dismissRate := JS.ratio (n_dismissed counts) (total counts) in
    let clickRate := JS.ratio (n_clicked counts) (total counts) in
    let prefs :=
      if JS.Qgtb dismissRate (7 # 10) then
        match prefs !! type with
        | Some currentPrefs =>
            <[type := {| enabled := enabled currentPrefs;
                         minPriority := Z.min 10 (minPriority currentPrefs + 1) |}]> prefs
        | None => prefs
        end
      else prefs in
    let prefs :=
      if JS.Qgtb clickRate (3 # 10) then
        match prefs !! type with
        | Some currentPrefs =>
            <[type := {| enabled := enabled currentPrefs;
                         minPriority := Z.max 1 (minPriority currentPrefs - 1) |}]> prefs
        | None => prefs
        end
      else prefs in
    prefs.

Definition set_global_contentTypePreferences (prefs : gmap string TypePrefs)
           (this : Filter) : Filter :=
  {| options := options this;
     userPreferences :=
       {| global := {| priorityThreshold :=
                         priorityThreshold (global (userPreferences this));
                       contentTypePreferences := prefs |};
          sites := sites (userPreferences this) |};
     interactionHistory := interactionHistory this |}.

Definition set_interactionHistory (h : list InteractionRecord) (this : Filter) : Filter :=
  {| options := options this;
     userPreferences := userPreferences this;
     interactionHistory := h |}.

(** [_updatePreferencesFromInteractions()] *)
Definition _updatePreferencesFromInteractions : M unit :=
  this ← gets id;
  if (List.length (interactionHistory this) <? 10)%nat then mret tt
  else
    let recentInteractions := JS.slice_last 20 (interactionHistory this) in
    let typeInteractions := fold_left countItem recentInteractions [] in
    modify (fun this =>
      set_global_contentTypePreferences
        (fold_left adjustType typeInteractions
                   (contentTypePreferences (global (userPreferences this))))
        this).

(** [recordInteraction(change, interaction)] *)
Definition recordInteraction (change : Summarization.Summary) (interaction : Interaction)
           (now : Z) : M unit :=
  this ← gets id;
  if negb (enableLearning (options this)) then mret tt
  else
    modify (fun this =>
      set_interactionHistory
        (interactionHistory this ++
           [{| i_timestamp := now;
               i_summary := Summarization.summary change;
               contentType := _determineContentType change;
               i_priority := Summarization.priority change;
               interaction := interaction |}])%list
        this);;
    this ← gets id;
    (if (maxHistoryItems <? List.length (interactionHistory this))%nat
     then modify (fun this => set_interactionHistory (tail (interactionHistory this)) this)
     else mret tt);;
    _updatePreferencesFromInteractions.

Section WithURL.
(** [new URL(url).hostname] of the host runtime; [None] when the
    constructor throws. *)
Variable hostname : string -> option string.

(** [_extractDomain(url)] *)
Definition _extractDomain (url : string) : string :=
  match hostname url with
  | Some h => h
  | None => url
  end.

(** [_getApplicablePreferences(siteUrl)] *)
Definition _getApplicablePreferences (siteUrl : string) : M GlobalPrefs :=
  this ← gets id;
  if negb (truthy siteUrl) || negb (siteSpecificSettings (options this)) then
    mret (global (userPreferences this))
  else
    let domain := _extractDomain siteUrl in
    match sites (userPreferences this) !! domain with
    | Some site =>
        let g := global (userPreferences this) in
        mret {| priorityThreshold :=
                  from_option id (priorityThreshold g) (site_priorityThreshold site);
                contentTypePreferences :=
                  from_option id ∅ (site_contentTypePreferences site)
                    ∪ contentTypePreferences g |}
    | None => mret (global (userPreferences this))
    end.

(** [_filterSingleChange(change, siteUrl)]; [None] is [null]. *)
Definition _filterSingleChange (change : Summarization.Summary) (siteUrl : string)
  : M (option Summarization.Summary) :=
  preferences ← _getApplicablePreferences siteUrl;
  let contentType := _determineContentType change in
  match (match contentTypePreferences preferences !! contentType with
         | Some p => Some p
         | None => contentTypePreferences preferences !! "text"
         end) with
  | None => throw
  | Some typePrefs =>
      if negb (enabled typePrefs) then mret None
      else
        let priority :=
          if (Summarization.priority change =? 0)%Z then 5%Z
          else Summarization.priority change in
        let threshold := Z.max (minPriority typePrefs) (priorityThreshold preferences) in
        if (priority <? threshold)%Z then mret None
        else
          filtered ← _shouldFilterByRules change contentType preferences;
          if (filtered : bool) then mret None else mret (Some change)
  end.

(** The argument of [filterChanges]: one change or an array. *)
Inductive Changes :=
  | One (change : Summarization.Summary)
  | Many (changes : list Summarization.Summary).

Inductive Filtered :=
  | FOne (r : option Summarization.Summary)
  | FMany (r : option (list Summarization.Summary)).

(** [filterChanges(changes, siteUrl)] *)
Definition filterChanges (changes : Changes) (siteUrl : string) : M Filtered :=
  match changes with
  | Many changes =>
      mapped ← mapM (fun change => _filterSingleChange change siteUrl) changes;
      let filteredChanges := omap id mapped in
      mret (FMany (if (0 <? List.length filteredChanges)%nat
                   then Some filteredChanges else None))
  | One change =>
      r ← _filterSingleChange change siteUrl;
      mret (FOne r)
  end.

(** [getPreferences(siteUrl)] *)
Definition getPreferences (siteUrl : string) : M GlobalPrefs :=
  _getApplicablePreferences siteUrl.

(** [{...old, ...newPreferences}] followed by the merge of
    [contentTypePreferences] that [updatePreferences] performs on the
    object it has just assigned. *)
Definition mergeGlobal (old : GlobalPrefs) (newPreferences : SitePrefs) : GlobalPrefs :=
  let assigned :=
    {| priorityThreshold :=
         from_option id (priorityThreshold old) (site_priorityThreshold newPreferences);
       contentTypePreferences :=
         from_option id (contentTypePreferences old)
                     (site_contentTypePreferences newPreferences) |} in
  match site_contentTypePreferences newPreferences with
  | Some newTypes =>
      {| priorityThreshold := priorityThreshold assigned;
         contentTypePreferences := newTypes ∪ contentTypePreferences assigned |}
  | None => assigned
  end.

Definition mergeSite (old : SitePrefs) (newPreferences : SitePrefs) : SitePrefs :=
  let assigned :=
    {| site_priorityThreshold :=
         match site_priorityThreshold newPreferences with
         | Some t => Some t
         | None => site_priorityThreshold old
         end;
       site_contentTypePreferences :=
         match site_contentTypePreferences newPreferences with
         | Some p => Some p
         | None => site_contentTypePreferences old
         end |} in
  match site_contentTypePreferences newPreferences with
  | Some newTypes =>
      {| site_priorityThreshold := site_priorityThreshold assigned;
         site_contentTypePreferences :=
           Some (newTypes ∪ from_option id ∅ (site_contentTypePreferences assigned)) |}
  | None => assigned
  end.

(** [updatePreferences(newPreferences, siteUrl)] *)
Definition updatePreferences (newPreferences : SitePrefs) (siteUrl : string) : M unit :=
  if negb (truthy siteUrl) then
    modify (fun this =>
      {| options := options this;
         userPreferences :=
           {| global := mergeGlobal (global (userPreferences this)) newPreferences;
              sites := sites (userPreferences this) |};
         interactionHistory := interactionHistory this |})
  else
    let domain := _extractDomain siteUrl in
    modify (fun this =>
      let old :=
        from_option id
          {| site_priorityThreshold := None;
             site_contentTypePreferences := Some ∅ |}
          (sites (userPreferences this) !! domain) in
      {| options := options this;
         userPreferences :=
           {| global := global (userPreferences this);
              sites := <[domain := mergeSite old newPreferences]>
                         (sites (userPreferences this)) |};
         interactionHistory := interactionHistory this |}).

End WithURL.

(** [getPreferencesForStorage()] *)
Definition getPreferencesForStorage : M UserPreferences := gets userPreferences.

(** [initializePreferences(storedPreferences)]: the object spread of the
    stored object over the current one, key by key at the top level. *)
Definition initializePreferences (storedPreferences : option StoredPreferences) : M unit :=
  match storedPreferences with
  | Some stored =>
      modify (fun this =>
        {| options := options this;
           userPreferences :=
             {| global := from_option id (global (userPreferences this))
                                      (stored_global stored);
                sites := from_option id (sites (userPreferences this))
                                     (stored_sites stored) |};
           interactionHistory := interactionHistory this |})
  | None => mret tt
  end.

(** ** Vocabulary for statements about the filter *)

(** A method that leaves [this] as it found it, whatever it returns. *)
Definition readOnly {A} (m : M A) : Prop := forall this, after m this = this.

(** The public methods of the module, as calls. *)
Inductive Call :=
  | CallInitializePreferences (storedPreferences : option StoredPreferences)
  | CallFilterChanges (changes : Changes) (siteUrl : string)
  | CallRecordInteraction (change : Summarization.Summary) (interaction : Interaction)
                          (now : Z)
  | CallUpdatePreferences (newPreferences : SitePrefs) (siteUrl : string)
  | CallGetPreferences (siteUrl : string)
  | CallGetPreferencesForStorage.

(** The filter after a call. *)
Definition perform (hostname : string -> option string) (c : Call) (this : Filter) : Filter :=
  match c with
  | CallInitializePreferences stored => after (initializePreferences stored) this
  | CallFilterChanges changes siteUrl => after (filterChanges hostname changes siteUrl) this
  | CallRecordInteraction change interaction now =>
      after (recordInteraction change interaction now) this
  | CallUpdatePreferences newPreferences siteUrl =>
      after (updatePreferences hostname newPreferences siteUrl) this
  | CallGetPreferences siteUrl => after (getPreferences hostname siteUrl) this
  | CallGetPreferencesForStorage => after getPreferencesForStorage this
  end.

(** The calls that assign to [this.userPreferences] or
    [this.interactionHistory]. *)
Definition assignsState (c : Call) : bool :=
  match c with
  | CallInitializePreferences _ => true
  | CallRecordInteraction _ _ _ => true
  | CallUpdatePreferences _ _ => true
  | _ => false
  end.

(** The entry that [recordInteraction] pushes. *)
Definition recordOf (change : Summarization.Summary) (interaction : Interaction) (now : Z)
  : InteractionRecord :=
  {| i_timestamp := now;
     i_summary := Summarization.summary change;
     contentType := _determineContentType change;
     i_priority := Summarization.priority change;
     interaction := interaction |}.

(** The history after the push and the size limit. *)
Definition limitHistory (h : list InteractionRecord) : list InteractionRecord :=
  if (maxHistoryItems <? List.length h)%nat then tail h else h.


(** The [minPriority] of a category in the global preferences. *)
Definition minPriorityOf (category : string) (this : Filter) : option Z :=
  minPriority <$> contentTypePreferences (global (userPreferences this)) !! category.



(** Recording a series of interactions with one notification, one call of
    [recordInteraction] after the other. *)
Fixpoint recordEach (change : Summarization.Summary) (interactions : list Interaction)
         (now : Z) : M unit :=
  match interactions with
  | [] => mret tt
  | i :: rest => recordInteraction change i now;; recordEach change rest now
  end.

(** ** Sample data *)

(** A host runtime whose URL parser rejects everything. *)
Definition noURL : string -> option string := fun _ => None.

(** A summary of the engine for a bare text change. *)
Definition textSummary (t : string) (p : Z) (now : Z) : Summarization.Summary :=
  {| Summarization.original := Summarization.bareTextChange t;
     Summarization.summary := t;
     Summarization.priority := p;
     Summarization.timestamp := now;
     Summarization.isDirectSummary := true |}.

Definition outageFirst : Summarization.Summary := textSummary "Server error occurred" 5 1.
Definition outageSecond : Summarization.Summary := textSummary "Server error occurred" 5 2.

Definition chatMessage : Summarization.Summary := textSummary "New message from Bob" 6 1.

(** Fifteen dismissals followed by five views. *)
Definition dismissalsThenViews : list Interaction :=
  (repeat dismissed 15 ++ repeat viewed 5)%list.

(** A persisted object whose [global] names one category only. *)
Definition partialStored : StoredPreferences :=
  {| stored_global :=
       Some {| priorityThreshold := 7;
               contentTypePreferences :=
                 {[ "text" := {| enabled := true; minPriority := 2 |} ]} |};
     stored_sites := None |}.

(** The persisted object of the background script: its keys are none of
    [global] and [sites]. *)
Definition foreignStored : StoredPreferences :=
  {| stored_global := None; stored_sites := None |}.

(** ** Vocabulary for further statements about the filter *)

(** A series of calls of the public methods. *)
Definition performAll (hostname : string -> option string) (calls : list Call)
           (this : Filter) : Filter :=
  fold_left (fun this c => perform hostname c this) calls this.

(** What external storage hands back for a preferences object that was
    saved whole: both top-level keys present. *)
Definition storedOf (p : UserPreferences) : StoredPreferences :=
  {| stored_global := Some (global p); stored_sites := Some (sites p) |}.

(** [change.priority || 5] *)
Definition effectivePriority (change : Summarization.Summary) : Z :=
  if (Summarization.priority change =? 0)%Z then 5%Z else Summarization.priority change.

(** How one category may differ after learning: it is neither created nor
    removed, its [enabled] flag stays, and a threshold within 1..10 stays
    within 1..10. *)
Definition steadyEntry (before later : option TypePrefs) : Prop :=
  match before, later with
  | None, None => True
  | Some a, Some b =>
      enabled b = enabled a /\
      ((1 <= minPriority a <= 10)%Z -> (1 <= minPriority b <= 10)%Z)
  | _, _ => False
  end.

(** A threshold moves by one step at most, within 1..10. *)
Definition oneStep (before later : option TypePrefs) : Prop :=
  match before, later with
  | None, None => True
  | Some a, Some b =>
      enabled b = enabled a /\
      (minPriority b = minPriority a \/
       minPriority b = Z.min 10 (minPriority a + 1) \/
       minPriority b = Z.max 1 (minPriority a - 1))
  | _, _ => False
  end.

(** The two rewritings of an entry by the learning pass. *)
Definition raised (p : TypePrefs) : TypePrefs :=
  {| enabled := enabled p; minPriority := Z.min 10 (minPriority p + 1) |}.

Definition lowered (p : TypePrefs) : TypePrefs :=
  {| enabled := enabled p; minPriority := Z.max 1 (minPriority p - 1) |}.

(** The counters of an entry add up. *)
Definition balanced (c : Counts) : Prop :=
  (n_viewed c + n_dismissed c + n_clicked c = total c)%nat.

(** The verdict of [_isDuplicate], read off the filter. *)
Definition flaggedDuplicate (change : Summarization.Summary) (this : Filter) : bool :=
  truthy (Summarization.summary change) &&
  duplicateAmong (JS.slice_last 5 (interactionHistory this)) (Summarization.summary change).

(** The first rule of [_shouldFilterByRules]. *)
Definition tooShort (contentType : string) (change : Summarization.Summary) : bool :=
  negb (String.eqb contentType "error") &&
  truthy (Summarization.summary change) &&
  (String.length (Summarization.summary change) <? 3)%nat.

(** [preferences.contentTypePreferences[contentType] ||
     preferences.contentTypePreferences.text] *)
Definition chosenTypePrefs (preferences : GlobalPrefs) (contentType : string)
  : option TypePrefs :=
  match contentTypePreferences preferences !! contentType with
  | Some p => Some p
  | None => contentTypePreferences preferences !! "text"
  end.

(** The same summary with another priority. *)
Definition withPriority (change : Summarization.Summary) (p : Z) : Summarization.Summary :=
  {| Summarization.original := Summarization.original change;
     Summarization.summary := Summarization.summary change;
     Summarization.priority := p;
     Summarization.timestamp := Summarization.timestamp change;
     Summarization.isDirectSummary := Summarization.isDirectSummary change |}.

(** ** Entry objects

    [currentPrefs.minPriority = ...] assigns to the entry object that
    [contentTypePreferences[type]] holds, and an entry object can be held
    in more than one place: the spreads of [updatePreferences] and
    [initializePreferences] copy one level and keep the entry objects of
    their argument, and [getPreferences] hands out the objects it reads.
    Here the entry objects have an identity, and the learning pass is the
    one of the source on objects. *)
Module Objects.

(** [this], as far as [recordInteraction] reads or writes it.  [objects]
    is what each entry object holds; [globalEntries] is
    [userPreferences.global.contentTypePreferences] and [siteEntries] the
    [contentTypePreferences] of each site, holding identities. *)
Record Filter := {
  enableLearning : bool;
  interactionHistory : list InteractionRecord;
  objects : gmap nat TypePrefs;
  globalEntries : gmap string nat;
  siteEntries : gmap string (gmap string nat)
}.

(** [const currentPrefs = contentTypePreferences[type];
     if (currentPrefs) { currentPrefs.minPriority = ... }] *)
Definition assign (f : TypePrefs -> TypePrefs) (globalEntries : gmap string nat)
           (type : string) (objects : gmap nat TypePrefs) : gmap nat TypePrefs :=
  match globalEntries !! type with
  | Some id =>
      match objects !! id with
      | Some currentPrefs => <[id := f currentPrefs]> objects
      | None => objects
      end
  | None => objects
  end.

(** The body of the loop over [Object.entries(typeInteractions)]. *)
Definition adjustType (globalEntries : gmap string nat) (objects : gmap nat TypePrefs)
           (entry : string * Counts) : gmap nat TypePrefs :=
  let '(type, counts) := entry in
  if (total counts <? 3)%nat then objects
  else
    let dismissRate := JS.ratio (n_dismissed counts) (total counts) in
    let clickRate := JS.ratio (n_clicked counts) (total counts) in
    let objects :=
      if JS.Qgtb dismissRate (7 # 10) then
        assign (fun currentPrefs =>
                  {| enabled := enabled currentPrefs;
                     minPriority := Z.min 10 (minPriority currentPrefs + 1) |})
               globalEntries type objects
      else objects in
    let objects :=
      if JS.Qgtb clickRate (3 # 10) then
        assign (fun currentPrefs =>
                  {| enabled := enabled currentPrefs;
                     minPriority := Z.max 1 (minPriority currentPrefs - 1) |})
               globalEntries type objects
      else objects in
    objects.

(** [_updatePreferencesFromInteractions()] *)
Definition _updatePreferencesFromInteractions (this : Filter) : Filter :=
  if (List.length (interactionHistory this) <? 10)%nat then this
  else
    let recentInteractions := JS.slice_last 20 (interactionHistory this) in
    let typeInteractions := fold_left countItem recentInteractions [] in
    {| enableLearning := enableLearning this;
       interactionHistory := interactionHistory this;
       objects := fold_left (adjustType (globalEntries this)) typeInteractions
                            (objects this);
       globalEntries := globalEntries this;
       siteEntries := siteEntries this |}.

(** [recordInteraction(change, interaction)] *)
Definition recordInteraction (change : Summarization.Summary) (interaction : Interaction)
           (now : Z) (this : Filter) : Filter :=
  if negb (enableLearning this) then this
  else
    let pushed :=
      (interactionHistory this ++
         [{| i_timestamp := now;
             i_summary := Summarization.summary change;
             contentType := _determineContentType change;
             i_priority := Summarization.priority change;
             interaction := interaction |}])%list in
    let limited :=
      if (maxHistoryItems <? List.length pushed)%nat then tail pushed else pushed in
    _updatePreferencesFromInteractions
      {| enableLearning := enableLearning this;
         interactionHistory := limited;
         objects := objects this;
         globalEntries := globalEntries this;
         siteEntries := siteEntries this |}.

(** [userPreferences.global.contentTypePreferences[category]] and
    [userPreferences.sites[domain].contentTypePreferences[category]], as
    they read. *)
Definition globalEntry (this : Filter) (category : string) : option TypePrefs :=
  globalEntries this !! category ≫= fun id => objects this !! id.

Definition siteEntry (this : Filter) (domain category : string) : option TypePrefs :=
  siteEntries this !! domain ≫= fun entries =>
  entries !! category ≫= fun id => objects this !! id.

(** The global [contentTypePreferences] read as a map of values. *)
Definition globalValues (globalEntries : gmap string nat) (objects : gmap nat TypePrefs)
  : gmap string TypePrefs :=
  omap (fun id => objects !! id) globalEntries.

(** No entry object is held under two categories of the global
    preferences. *)
Definition distinctGlobalEntries (globalEntries : gmap string nat) : Prop :=
  forall category category' id,
    globalEntries !! category = Some id ->
    globalEntries !! category' = Some id ->
    category = category'.

(** An entry of the history. *)
Definition sampleItem (type : string) (i : Interaction) : InteractionRecord :=
  {| i_timestamp := 0; i_summary := "update"; contentType := type;
     i_priority := 5; interaction := i |}.

(** A filter whose [text] and [chat] categories hold an object each, with
    the [chat] object held by the site example.com as well, after nine
    dismissed chat notifications. *)
Definition siteSharesChat : Filter :=
  {| enableLearning := true;
     interactionHistory := repeat (sampleItem "chat" dismissed) 9;
     objects := <[0%nat := {| enabled := true; minPriority := 5 |}]>
                {[ 1%nat := {| enabled := true; minPriority := 4 |} ]};
     globalEntries := <["text" := 0%nat]> {[ "chat" := 1%nat ]};
     siteEntries := {[ "example.com" := {[ "chat" := 1%nat ]} ]} |}.

(** A filter whose [text] and [chat] categories hold the same object,
    after five dismissed chat notifications and four dismissed text
    notifications. *)
Definition oneObjectTwice : Filter :=
  {| enableLearning := true;
     interactionHistory :=
       (repeat (sampleItem "chat" dismissed) 5 ++ repeat (sampleItem "text" dismissed) 4)%list;
     objects := {[ 0%nat := {| enabled := true; minPriority := 4 |} ]};
     globalEntries := <["text" := 0%nat]> {[ "chat" := 0%nat ]};
     siteEntries := ∅ |}.

End Objects.

End Filtering.

(* ===================================================================== *)
(** * alert-system.js : AlertSystemModule (the queue) *)
(* ===================================================================== *)

Module Alerts.

Record Options := {
  queueAlerts : bool;
  maxQueueSize : Z
}.

Definition defaultOptions : Options :=
  {| queueAlerts := true; maxQueueSize := 10 |}.

(** The [alertData] object handed to [showAlert]. *)
Record AlertData := {
  summary : string;
  priority : Z;
  contentType : string
}.

(** [this]; [shown] lists, in call order, the alerts that were handed to
    [_showSingleAlert], which is where rendering starts. *)
Record AlertSystem := {
  options : Options;
  alertQueue : list AlertData;
  isProcessing : bool;
  shown : list AlertData
}.

Definition newAlertSystem (o : Options) : AlertSystem :=
  {| options := o; alertQueue := []; isProcessing := false; shown := [] |}.

(** One turn of the [while] loop of [_processAlertQueue], from its test up
    to the [await] of [_showSingleAlert] (or to the end of the method when
    the queue is empty). *)
Definition drain (this : AlertSystem) : AlertSystem :=
  match alertQueue this with
  | alert :: rest =>
      {| options := options this;
         alertQueue := rest;
         isProcessing := isProcessing this;
         shown := (shown this ++ [alert])%list |}
  | [] =>
      {| options := options this;
         alertQueue := [];
         isProcessing := false;
         shown := shown this |}
  end.

(** [_processAlertQueue()] up to its first suspension. *)
Definition _processAlertQueue (this : AlertSystem) : AlertSystem :=
  drain {| options := options this;
           alertQueue := alertQueue this;
           isProcessing := true;
           shown := shown this |}.

(** [showAlert(alertData)] up to its first suspension. *)
Definition showAlert (alertData : AlertData) (this : AlertSystem) : AlertSystem :=
  if queueAlerts (options this) then
    let pushed := (alertQueue this ++ [alertData])%list in
    let limited :=
      if (maxQueueSize (options this) <? Z.of_nat (List.length pushed))%Z
      then tail pushed else pushed in
    let this := {| options := options this;
                   alertQueue := limited;
                   isProcessing := isProcessing this;
                   shown := shown this |} in
    if negb (isProcessing this) then _processAlertQueue this else this
  else
    {| options := options this;
       alertQueue := alertQueue this;
       isProcessing := isProcessing this;
       shown := (shown this ++ [alertData])%list |}.

(** The awaited [_showSingleAlert] of the loop settles and the loop takes
    its next turn; without a loop in flight nothing is resumed. *)
Definition renderDone (this : AlertSystem) : AlertSystem :=
  if isProcessing this then drain this else this.

(** What can happen to the dispatcher, and a run of such events. *)
Inductive Event :=
  | ShowAlert (alertData : AlertData)
  | RenderDone.

Definition step (this : AlertSystem) (e : Event) : AlertSystem :=
  match e with
  | ShowAlert alertData => showAlert alertData this
  | RenderDone => renderDone this
  end.

Definition run (events : list Event) (this : AlertSystem) : AlertSystem :=
  fold_left step events this.

(** The alerts submitted by a run, in submission order. *)
Fixpoint submitted (events : list Event) : list AlertData :=
  match events with
  | [] => []
  | ShowAlert alertData :: rest => alertData :: submitted rest
  | RenderDone :: rest => submitted rest
  end.

(** ** Vocabulary for statements about the queue *)

(** What holds of the dispatcher between any two events: the queue is within
    its capacity, and alerts are pending only while the loop is in flight. *)
Definition queueInvariant (this : AlertSystem) : Prop :=
  (Z.of_nat (List.length (alertQueue this)) <= maxQueueSize (options this))%Z /\
  (isProcessing this = false -> alertQueue this = []).

(** The queue as [showAlert] leaves it before the loop is looked at. *)
Definition limited (alertData : AlertData) (this : AlertSystem) : list AlertData :=
  let pushed := (alertQueue this ++ [alertData])%list in
  if (maxQueueSize (options this) <? Z.of_nat (List.length pushed))%Z
  then tail pushed else pushed.

(** ** Sample data *)

Definition sampleAlert (n : Z) : AlertData :=
  {| summary := "update"; priority := n; contentType := "text" |}.

(** Twelve alerts submitted before any rendering completes. *)
Definition burst : list Event :=
  map (fun n => ShowAlert (sampleAlert n)) [1; 2; 3; 4; 5; 6; 7; 8; 9; 10; 11; 12]%Z.

End Alerts.


(* ===================================================================== *)
(** * Properties *)
(* ===================================================================== *)

(** ** The string primitives on sample inputs *)

Example includes_ex1 : JS.includes "Server Error 500" "Error" = true.
Proof. reflexivity. Qed.

Example includes_ex2 : JS.includes "ERROR" "Error" = false.
Proof. reflexivity. Qed.

Example toLowerCase_ex : JS.toLowerCase "Chat ROOM" = "chat room".
Proof. reflexivity. Qed.

Example split_ws_ex1 : JS.split_ws "a  b" = ["a"; "b"].
Proof. reflexivity. Qed.

Example split_ws_ex2 : JS.split_ws " a " = [""; "a"; ""].
Proof. reflexivity. Qed.

Example slice_last_ex : JS.slice_last 2 [1; 2; 3]%nat = [2; 3]%nat.
Proof. reflexivity. Qed.

(** ** Change Observer *)

Module DetectionProps.
Import Detection.

Lemma nonempty_true {A} (l : list A) : nonempty l = true <-> l <> [].
Proof.
  unfold nonempty. destruct l; simpl; split; intros H; try congruence; auto.
Qed.

Lemma hasAdditions_adds (g : list MutationRecord) :
  existsb (fun m => is_childList m && nonempty (addedNodes m)) g = true <-> adds g.
Proof.
  rewrite existsb_exists. unfold adds, is_childList.
  split; intros (m & Hin & H); exists m; split; auto.
  - apply andb_prop in H as [Ht Hn]. apply nonempty_true in Hn.
    destruct (m_type m); try discriminate; auto.
  - destruct H as [Ht Hn]. rewrite Ht. simpl. now apply nonempty_true.
Qed.

Lemma hasRemovals_removes (g : list MutationRecord) :
  existsb (fun m => is_childList m && nonempty (removedNodes m)) g = true <-> removes g.
Proof.
  rewrite existsb_exists. unfold removes, is_childList.
  split; intros (m & Hin & H); exists m; split; auto.
  - apply andb_prop in H as [Ht Hn]. apply nonempty_true in Hn.
    destruct (m_type m); try discriminate; auto.
  - destruct H as [Ht Hn]. rewrite Ht. simpl. now apply nonempty_true.
Qed.

Lemma hasAttributeChanges_spec (g : list MutationRecord) :
  existsb is_attributes g = true <-> hasAttributeRecord g.
Proof.
  rewrite existsb_exists. unfold hasAttributeRecord, is_attributes.
  split; intros (m & Hin & H); exists m; split; auto.
  - destruct (m_type m); try discriminate; auto.
  - now rewrite H.
Qed.

Lemma hasTextChanges_spec (g : list MutationRecord) :
  existsb is_characterData g = true <-> hasCharacterDataRecord g.
Proof.
  rewrite existsb_exists. unfold hasCharacterDataRecord, is_characterData.
  split; intros (m & Hin & H); exists m; split; auto.
  - destruct (m_type m); try discriminate; auto.
  - now rewrite H.
Qed.

(** A Boolean test that reflects a proposition is false exactly when the
    proposition fails. *)
Lemma reflect_false (b : bool) (P : Prop) : (b = true <-> P) -> (b = false <-> ~ P).
Proof.
  intros H. destruct b; split; intros H'; try discriminate; auto.
  - exfalso. apply H'. now apply H.
  - intros HP. apply H in HP. discriminate.
Qed.

(** [existsb] looks at membership only. *)
Lemma existsb_sameRecords (f : MutationRecord -> bool) (g g' : list MutationRecord) :
  sameRecords g g' -> existsb f g' = existsb f g.
Proof.
  intros Hs.
  destruct (existsb f g) eqn:E.
  - apply existsb_exists in E as (m & Hin & Hm).
    apply existsb_exists. exists m. split; auto. now apply Hs.
  - destruct (existsb f g') eqn:E'; auto.
    apply existsb_exists in E' as (m & Hin & Hm).
    assert (existsb f g = true) as Ht
        by (apply existsb_exists; exists m; split; auto; now apply Hs).
    congruence.
Qed.

(** The decision of [_categorizeChangeType] in terms of what the group
    holds. *)
Lemma categorize_cases (g : list MutationRecord) :
  (adds g /\ ~ removes g /\ _categorizeChangeType g = addition) \/
  (removes g /\ ~ adds g /\ _categorizeChangeType g = removal) \/
  (adds g /\ removes g /\ _categorizeChangeType g = replacement) \/
  (~ adds g /\ ~ removes g /\ hasAttributeRecord g /\
     _categorizeChangeType g = attribute) \/
  (~ adds g /\ ~ removes g /\ ~ hasAttributeRecord g /\ hasCharacterDataRecord g /\
     _categorizeChangeType g = text) \/
  (~ adds g /\ ~ removes g /\ ~ hasAttributeRecord g /\ ~ hasCharacterDataRecord g /\
     _categorizeChangeType g = unknown).
Proof.
  unfold _categorizeChangeType.
  pose proof (hasAdditions_adds g) as Ha.
  pose proof (hasRemovals_removes g) as Hr.
  pose proof (hasAttributeChanges_spec g) as Hat.
  pose proof (hasTextChanges_spec g) as Hte.
  pose proof (reflect_false _ _ Ha) as Ha'.
  pose proof (reflect_false _ _ Hr) as Hr'.
  pose proof (reflect_false _ _ Hat) as Hat'.
  pose proof (reflect_false _ _ Hte) as Hte'.
  destruct (existsb (fun m => is_childList m && nonempty (addedNodes m)) g);
    destruct (existsb (fun m => is_childList m && nonempty (removedNodes m)) g);
    destruct (existsb is_attributes g);
    destruct (existsb is_characterData g); simpl; tauto.
Qed.

(** C6.  For every non-empty group of mutation records the classification
    is one kind, fixed by which kinds of record the group holds and not by
    their order or number: additions without removals give [addition],
    removals without additions give [removal], additions together with
    removals give [replacement] (one event, wherever the added node stands
    with respect to the removals), a group of attribute records only gives
    [attribute], a group of character-data records only gives [text], and a
    group holding none of these gives [unknown].  Where neither additions
    nor removals are present the tests run in the order attribute, then
    character data, which settles the groups the six cases leave open. *)
Theorem categorize_by_record_types (g : list MutationRecord) (Hne : g <> []) :
  (adds g /\ ~ removes g -> _categorizeChangeType g = addition) /\
  (removes g /\ ~ adds g -> _categorizeChangeType g = removal) /\
  (adds g /\ removes g -> _categorizeChangeType g = replacement) /\
  (onlyAttributeRecords g -> _categorizeChangeType g = attribute) /\
  (onlyCharacterDataRecords g -> _categorizeChangeType g = text) /\
  (~ adds g /\ ~ removes g /\ ~ hasAttributeRecord g /\ ~ hasCharacterDataRecord g ->
     _categorizeChangeType g = unknown) /\
  (~ adds g /\ ~ removes g /\ hasAttributeRecord g ->
     _categorizeChangeType g = attribute) /\
  (~ adds g /\ ~ removes g /\ ~ hasAttributeRecord g /\ hasCharacterDataRecord g ->
     _categorizeChangeType g = text) /\
  (forall g', sameRecords g g' -> _categorizeChangeType g' = _categorizeChangeType g).
Proof.
  assert (Hfirst : exists m, In m g).
  { destruct g as [|m g']; [congruence | exists m; now left]. }
  destruct Hfirst as (m0 & Hm0).
  pose proof (categorize_cases g) as Hc.
  repeat split.
  - tauto.
  - tauto.
  - tauto.
  - intros Honly.
    assert (Hat : hasAttributeRecord g) by (exists m0; split; auto).
    assert (Hna : ~ adds g).
    { intros (m & Hin & Ht & _). apply Honly in Hin. congruence. }
    assert (Hnr : ~ removes g).
    { intros (m & Hin & Ht & _). apply Honly in Hin. congruence. }
    tauto.
  - intros Honly.
    assert (Hte : hasCharacterDataRecord g) by (exists m0; split; auto).
    assert (Hna : ~ adds g).
    { intros (m & Hin & Ht & _). apply Honly in Hin. congruence. }
    assert (Hnr : ~ removes g).
    { intros (m & Hin & Ht & _). apply Honly in Hin. congruence. }
    assert (Hnat : ~ hasAttributeRecord g).
    { intros (m & Hin & Ht). apply Honly in Hin. congruence. }
    tauto.
  - tauto.
  - tauto.
  - tauto.
  - intros g' Hs. unfold _categorizeChangeType.
    now rewrite !(existsb_sameRecords _ g g' Hs).
Qed.

(** The witness of C6: a removal record followed by an addition record is a
    replacement. *)
Lemma categorize_by_record_types_witness :
  sampleReplacementGroup <> [] /\
  _categorizeChangeType sampleReplacementGroup = replacement.
Proof.
  split; [discriminate |].
  destruct (categorize_by_record_types sampleReplacementGroup) as (_ & _ & H & _);
    [discriminate |].
  apply H. split.
  - eexists; split; [right; left; reflexivity | split; [reflexivity | discriminate]].
  - eexists; split; [left; reflexivity | split; [reflexivity | discriminate]].
Defined.

Section NotifyProps.
Context {Changes W Exn : Type}.
Local Abbreviation Listener := (Listener Changes W Exn).
Local Abbreviation World := (World Changes W Exn).

(** One listener call inside its [try]/[catch]: it completes normally and
    records exactly that call, whether the listener returned or threw; the
    consumer's state is what the listener left, and what it threw is
    logged. *)
Lemma guarded_call (listener : Listener) (changes : Changes) (w : World) :
  exists w',
    try_catch (call listener changes) (fun error => log_error error) w = (Returned tt, w') /\
    invoked w' = (invoked w ++ [(listener, changes)])%list /\
    consumer w' = snd (listener changes (consumer w)) /\
    console_error w' =
      (console_error w ++
       match fst (listener changes (consumer w)) with
       | Thrown e => [e]
       | Returned _ => []
       end)%list.
Proof.
  unfold try_catch, call, log_error.
  destruct (listener changes (consumer w)) as [[[] | e] c']; simpl;
    eexists; repeat split; simpl; now rewrite ?app_nil_r.
Qed.

(** C9.  For every list of registered listeners and every batch, the call of
    [_notifyChangeListeners] completes normally (no exception leaves it), and
    every listener has been invoked once, in registration order, with that
    same batch, whatever any of them threw: the consumer's state is the one
    that all the listeners, run one after the other on the batch, leave
    behind, the throwing ones included and the ones after them too; and the
    exceptions thrown on the way are the ones logged, in order. *)
Theorem notify_never_throws_and_calls_all
        (changeListeners : list Listener) (changes : Changes) (w : World) :
  exists w',
    _notifyChangeListeners changeListeners changes w = (Returned tt, w') /\
    invoked w' = (invoked w ++ map (fun l => (l, changes)) changeListeners)%list /\
    consumer w' = consumerAfter changeListeners changes (consumer w) /\
    console_error w' =
      (console_error w ++ thrownBy changeListeners changes (consumer w))%list.
Proof.
  revert w. induction changeListeners as [|listener rest IH]; intros w.
  - exists w. simpl. now rewrite !app_nil_r.
  - destruct (guarded_call listener changes w) as (w1 & Hrun & Hinv & Hc & He).
    destruct (IH w1) as (w2 & Hrest & Hinv2 & Hc2 & He2).
    exists w2. split; [| split; [| split]].
    + simpl. unfold bind at 1. now rewrite Hrun.
    + rewrite Hinv2, Hinv. simpl. now rewrite <- app_assoc.
    + rewrite Hc2, Hc. reflexivity.
    + rewrite He2, He, Hc. simpl.
      destruct (fst (listener changes (consumer w))); simpl;
        now rewrite <- app_assoc.
Qed.

End NotifyProps.

(** A faulty listener between two counting ones: both counting listeners
    run, the error is logged once, and the call returns. *)
Example notify_with_faulty_listener :
  let w0 := {| consumer := 0; invoked := []; console_error := [] |} in
  let r := _notifyChangeListeners
             [countingListener; faultyListener; countingListener] [4; 5] w0 in
  fst r = Returned tt /\ consumer (snd r) = 4 /\ console_error (snd r) = ["boom"].
Proof. repeat split. Qed.

End DetectionProps.

(** ** Summarization Engine *)

Module SummarizationProps.
Import Summarization.

Lemma clamp_range (p : Z) : (1 <= clamp p <= 10)%Z.
Proof. unfold clamp. lia. Qed.

(** The score is the clamped sum of the base and the adjustments. *)
Lemma _determinePriority_sum (changeData : ChangeData) (summary : string) :
  _determinePriority changeData summary =
  clamp (scoreBesidesKeyword changeData summary + keywordAdjustment summary).
Proof.
  unfold _determinePriority, scoreBesidesKeyword, keywordAdjustment,
    mentionsKeywordAsWritten, liveRegionAdjustment, interactiveAdjustment,
    formErrorAdjustment, headingAdjustment, kindAdjustment, clamp.
  destruct (context changeData) as [ctx|].
  - destruct (isLiveRegion ctx), (isInteractive ctx),
      (isForm ctx && (JS.includes summary "error" || JS.includes summary "Error")),
      (String.eqb (role ctx) "heading"),
      (JS.includes summary "error" || JS.includes summary "Error" ||
       JS.includes summary "alert" || JS.includes summary "Alert" ||
       JS.includes summary "warning" || JS.includes summary "Warning"),
      (type changeData); f_equal; f_equal; reflexivity.
  - destruct
      (JS.includes summary "error" || JS.includes summary "Error" ||
       JS.includes summary "alert" || JS.includes summary "Alert" ||
       JS.includes summary "warning" || JS.includes summary "Warning"),
      (type changeData); reflexivity.
Qed.

(** C2.  For every change event and every summary text the priority is an
    integer between 1 and 10: it is the base 5 plus the adjustments (live
    region +3, interactive +1, form with an error indicator +3, heading +2,
    keyword +2, kind +1/-1/+1), each decided by its own condition, clamped
    once at the end. *)
Theorem priority_in_range (changeData : ChangeData) (summary : string) :
  (1 <= _determinePriority changeData summary <= 10)%Z /\
  _determinePriority changeData summary =
    Z.max 1 (Z.min 10
      (5 + liveRegionAdjustment changeData + interactiveAdjustment changeData
         + formErrorAdjustment changeData summary + headingAdjustment changeData
         + keywordAdjustment summary + kindAdjustment changeData)).
Proof.
  rewrite _determinePriority_sum. split; [apply clamp_range |].
  unfold clamp, scoreBesidesKeyword. f_equal. f_equal. lia.
Qed.

(** Scenarios A and C of the specification, on the priority alone. *)
Example priority_live_region_text :
  _determinePriority
    {| type := text; content := plainContent "3 new messages"; element := 0;
       cd_timestamp := 0;
       context := Some {| role := ""; label := ""; parentContext := None;
                          isForm := false; isInteractive := false;
                          isLiveRegion := true |} |}
    "3 new messages" = 8%Z.
Proof. reflexivity. Qed.

Example priority_button_removed :
  _determinePriority
    {| type := removal; content := plainContent "[Content removed]"; element := 0;
       cd_timestamp := 0;
       context := Some {| role := "button"; label := ""; parentContext := None;
                          isForm := false; isInteractive := true;
                          isLiveRegion := false |} |}
    "Button removed" = 5%Z.
Proof. reflexivity. Qed.

(** C5, as stated, fails: "ERROR" holds the word in upper case, and the
    score of a bare text change stays at the base 5 instead of 5 + 2. *)
Lemma keyword_any_case_counterexample :
  mentionsKeywordAnyCase "ERROR" = true /\
  _determinePriority (bareTextChange "ERROR") "ERROR" = 5%Z /\
  _determinePriority (bareTextChange "ERROR") "ERROR" <>
    clamp (scoreBesidesKeyword (bareTextChange "ERROR") "ERROR" + 2).
Proof. repeat split. discriminate. Qed.

(** C5, amended.  For every change event and summary text, if the summary
    holds one of error, Error, alert, Alert, warning, Warning (the lower-case
    word or the word with a capital first letter, matched as written), the
    score receives the +2 adjustment before clamping. *)
Theorem keyword_as_written_adds_two (changeData : ChangeData) (summary : string) :
  mentionsKeywordAsWritten summary = true ->
  _determinePriority changeData summary =
    clamp (scoreBesidesKeyword changeData summary + 2).
Proof.
  intros H. rewrite _determinePriority_sum. unfold keywordAdjustment. now rewrite H.
Qed.

Lemma keyword_as_written_adds_two_witness :
  mentionsKeywordAsWritten "Warning: low disk space" = true /\
  _determinePriority (bareTextChange "Warning: low disk space") "Warning: low disk space"
    = 7%Z.
Proof.
  split; [reflexivity |].
  rewrite (keyword_as_written_adds_two
             (bareTextChange "Warning: low disk space") "Warning: low disk space");
    reflexivity.
Defined.

(** Without one of the six spellings there is no keyword adjustment. *)
Lemma keyword_absent_adds_nothing (changeData : ChangeData) (summary : string) :
  mentionsKeywordAsWritten summary = false ->
  _determinePriority changeData summary = clamp (scoreBesidesKeyword changeData summary).
Proof.
  intros H. rewrite _determinePriority_sum. unfold keywordAdjustment. rewrite H.
  f_equal. lia.
Qed.

(** C4, as stated, fails: with the constructor's options the text
    "Breaking News" (13 characters) is below [minContentLength] (20), so the
    engine takes the direct-summary path, and the summary of a heading that
    is neither interactive, a labelled form field nor a live region is the
    text itself. *)
Lemma breaking_news_counterexample :
  type breakingNews = addition /\
  (role <$> context breakingNews) = Some "heading" /\
  _extractRelevantText breakingNews = "Breaking News" /\
  summary (fst (_processSingleChange (newEngine defaultOptions) breakingNews 0))
    = "Breaking News" /\
  summary (fst (_processSingleChange (newEngine defaultOptions) breakingNews 0))
    <> "New section: Breaking News".
Proof. repeat split. discriminate. Qed.

(** The direct summary of the same heading when it is interactive. *)
Example breaking_news_interactive_heading :
  directSummaryText
    {| type := addition; content := plainContent "Breaking News"; element := 1;
       cd_timestamp := 0;
       context := Some {| role := "heading"; label := ""; parentContext := None;
                          isForm := false; isInteractive := true;
                          isLiveRegion := false |} |}
    "Breaking News" = "Heading added: Breaking News".
Proof. reflexivity. Qed.

(** C4, amended.  For every [addition] event whose role is [heading] and
    whose extracted text is "Breaking News", an engine whose
    [minContentLength] is at most 13 (so that the text is not below the
    direct-summary gate) and whose [maxSummaryLength] is at least 26 produces
    the summary "New section: Breaking News", provided the element is not a
    live region or the engine runs with [localProcessingOnly]. *)
Theorem heading_addition_summary
        (this : Engine) (changeData : ChangeData) (ctx : Context) (now : Z) :
  type changeData = addition ->
  context changeData = Some ctx ->
  role ctx = "heading" ->
  _extractRelevantText changeData = "Breaking News" ->
  (minContentLength (options this) <= 13)%nat ->
  (26 <= maxSummaryLength (options this))%nat ->
  localProcessingOnly (options this) = true \/ isLiveRegion ctx = false ->
  summary (fst (_processSingleChange this changeData now)) = "New section: Breaking News".
Proof.
  intros Htype Hctx Hrole Htext Hmin Hmax Hpath.
  unfold _processSingleChange. rewrite Htext.
  change (String.length "Breaking News") with 13%nat.
  destruct (13 <? minContentLength (options this))%nat eqn:Egate;
    [apply Nat.ltb_lt in Egate; lia |].
  assert (Hgen : _generateSummary this changeData "Breaking News"
                 = Some "New section: Breaking News").
  { unfold _generateSummary.
    destruct (localProcessingOnly (options this)) eqn:Elocal.
    - unfold _generateLocalSummary.
      change (String.length "Breaking News") with 13%nat.
      destruct (maxSummaryLength (options this) <? 13)%nat eqn:E;
        [apply Nat.ltb_lt in E; lia |].
      now rewrite Htype, Hctx, Hrole.
    - destruct Hpath as [Hl | Hlive]; [congruence |].
      unfold _simulateAISummarization, _buildSummarizationContext.
      change (String.length "Breaking News") with 13%nat.
      destruct (maxSummaryLength (options this) * 2 <? 13)%nat eqn:E;
        [apply Nat.ltb_lt in E; lia |].
      rewrite Htype, Hctx. simpl. rewrite Hlive, Hrole. simpl.
      destruct (maxSummaryLength (options this) <? 26)%nat eqn:E';
        [apply Nat.ltb_lt in E'; lia |].
      reflexivity. }
  rewrite Hgen. reflexivity.
Qed.

Lemma heading_addition_summary_witness :
  summary (fst (_processSingleChange (newEngine eagerOptions) breakingNews 0))
    = "New section: Breaking News".
Proof.
  apply (heading_addition_summary (newEngine eagerOptions) breakingNews headingContext 0);
    try reflexivity; simpl; try lia.
Defined.

End SummarizationProps.

(** ** Alert Dispatcher *)

Module AlertsProps.
Import Alerts.

Lemma submitted_app (events1 events2 : list Event) :
  submitted (events1 ++ events2)%list = (submitted events1 ++ submitted events2)%list.
Proof.
  induction events1 as [|[a|] rest IH]; simpl; auto. now rewrite IH.
Qed.

Lemma run_snoc (events : list Event) (e : Event) (this : AlertSystem) :
  run (events ++ [e])%list this = step (run events this) e.
Proof. unfold run. now rewrite fold_left_app. Qed.

Lemma options_drain (this : AlertSystem) : options (drain this) = options this.
Proof. unfold drain. now destruct (alertQueue this). Qed.

Lemma options_step (this : AlertSystem) (e : Event) : options (step this e) = options this.
Proof.
  destruct e as [a|]; simpl.
  - unfold showAlert. destruct (queueAlerts (options this)); [|reflexivity].
    cbv zeta. simpl. destruct (isProcessing this); simpl; [reflexivity |].
    unfold _processAlertQueue. now rewrite options_drain.
  - unfold renderDone. destruct (isProcessing this); [apply options_drain | reflexivity].
Qed.

Lemma options_run (events : list Event) (this : AlertSystem) :
  options (run events this) = options this.
Proof.
  induction events as [|e rest IH] using rev_ind; [reflexivity |].
  now rewrite run_snoc, options_step.
Qed.

(** A turn of the loop moves the head of the queue, the oldest pending
    alert, to the end of the rendering order: first in, first out. *)
Lemma drain_order (this : AlertSystem) :
  (shown (drain this) ++ alertQueue (drain this))%list
  = (shown this ++ alertQueue this)%list.
Proof.
  unfold drain. destruct (alertQueue this) as [|a rest]; simpl; [reflexivity |].
  now rewrite <- app_assoc.
Qed.

Lemma drain_invariant (this : AlertSystem) :
  (Z.of_nat (List.length (alertQueue this)) <= maxQueueSize (options this))%Z ->
  isProcessing this = true ->
  queueInvariant (drain this).
Proof.
  intros Hlen Hproc. unfold queueInvariant, drain.
  destruct (alertQueue this) as [|a rest]; simpl in *.
  - split; [lia | reflexivity].
  - split; [lia | congruence].
Qed.

Lemma tail_sublist {A} (l : list A) : tail l `sublist_of` l.
Proof. destruct l; simpl; [constructor | now apply sublist_cons]. Qed.

Lemma length_tail_le {A} (l : list A) : (List.length (tail l) <= List.length l)%nat.
Proof. destruct l; simpl; lia. Qed.

Lemma limited_length (alertData : AlertData) (this : AlertSystem) :
  queueInvariant this ->
  (0 <= maxQueueSize (options this))%Z ->
  (Z.of_nat (List.length (limited alertData this)) <= maxQueueSize (options this))%Z.
Proof.
  intros [Hlen _] Hmax. unfold limited.
  destruct (maxQueueSize (options this) <?
            Z.of_nat (List.length (alertQueue this ++ [alertData])%list))%Z eqn:E.
  - destruct (alertQueue this) as [|x rest]; simpl in *; [lia |].
    rewrite length_app in *. simpl in *. lia.
  - apply Z.ltb_ge in E. exact E.
Qed.

Lemma limited_sublist (alertData : AlertData) (this : AlertSystem) :
  limited alertData this `sublist_of` (alertQueue this ++ [alertData])%list.
Proof.
  unfold limited.
  destruct (maxQueueSize (options this) <? _)%Z; [apply tail_sublist | reflexivity].
Qed.

Lemma showAlert_queueing (alertData : AlertData) (this : AlertSystem) :
  queueAlerts (options this) = true ->
  showAlert alertData this =
    let this' := {| options := options this;
                    alertQueue := limited alertData this;
                    isProcessing := isProcessing this;
                    shown := shown this |} in
    if negb (isProcessing this) then _processAlertQueue this' else this'.
Proof. intros H. unfold showAlert, limited. now rewrite H. Qed.

Lemma step_invariant (this : AlertSystem) (e : Event) :
  queueAlerts (options this) = true ->
  (0 <= maxQueueSize (options this))%Z ->
  queueInvariant this ->
  queueInvariant (step this e).
Proof.
  intros Hq Hmax Hinv. destruct e as [a|]; simpl.
  - rewrite showAlert_queueing by assumption. cbv zeta.
    pose proof (limited_length a this Hinv Hmax) as Hl.
    destruct (isProcessing this) eqn:Hp; simpl.
    + split; simpl; [exact Hl | congruence].
    + unfold _processAlertQueue. apply drain_invariant; simpl; auto.
  - unfold renderDone. destruct (isProcessing this) eqn:Hp; [|exact Hinv].
    apply drain_invariant; [apply Hinv | exact Hp].
Qed.

Lemma step_order (this : AlertSystem) (e : Event) (earlier : list AlertData) :
  queueAlerts (options this) = true ->
  (shown this ++ alertQueue this)%list `sublist_of` earlier ->
  (shown (step this e) ++ alertQueue (step this e))%list
    `sublist_of` (earlier ++ submitted [e])%list.
Proof.
  intros Hq Hsub. destruct e as [a|]; simpl.
  - assert (Hgoal : (shown this ++ limited a this)%list `sublist_of` (earlier ++ [a])%list).
    { transitivity (shown this ++ (alertQueue this ++ [a]))%list.
      - apply sublist_app; [reflexivity | apply limited_sublist].
      - rewrite app_assoc. apply sublist_app; [exact Hsub | reflexivity]. }
    rewrite showAlert_queueing by assumption. cbv zeta.
    destruct (negb (isProcessing this)); simpl; [|exact Hgoal].
    unfold _processAlertQueue. rewrite drain_order. simpl. exact Hgoal.
  - rewrite app_nil_r. unfold renderDone.
    destruct (isProcessing this); [now rewrite drain_order | exact Hsub].
Qed.

Lemma run_invariant (o : Options) (events : list Event) :
  queueAlerts o = true ->
  (0 <= maxQueueSize o)%Z ->
  queueInvariant (run events (newAlertSystem o)) /\
  (shown (run events (newAlertSystem o)) ++ alertQueue (run events (newAlertSystem o)))%list
    `sublist_of` submitted events.
Proof.
  intros Hq Hmax.
  induction events as [|e rest [IHinv IHsub]] using rev_ind.
  - simpl. split; [split; simpl; [lia | reflexivity] | constructor].
  - rewrite run_snoc, submitted_app. split.
    + apply step_invariant; rewrite ?options_run; auto.
    + apply step_order; rewrite ?options_run; auto.
Qed.

(** The state in which [showAlert] leaves a dispatcher that queues. *)
Lemma showAlert_in_flight (alertData : AlertData) (this : AlertSystem) :
  queueAlerts (options this) = true ->
  isProcessing this = true ->
  isProcessing (showAlert alertData this) = true /\
  shown (showAlert alertData this) = shown this /\
  alertQueue (showAlert alertData this) =
    if (Z.of_nat (List.length (alertQueue this)) <? maxQueueSize (options this))%Z
    then (alertQueue this ++ [alertData])%list
    else tail (alertQueue this ++ [alertData])%list.
Proof.
  intros Hq Hp. rewrite showAlert_queueing by exact Hq. cbv zeta. rewrite Hp. simpl.
  split; [reflexivity |]. split; [reflexivity |].
  unfold limited. rewrite length_app. simpl.
  destruct (maxQueueSize (options this) <? Z.of_nat (List.length (alertQueue this) + 1))%Z eqn:E,
    (Z.of_nat (List.length (alertQueue this)) <? maxQueueSize (options this))%Z eqn:E';
    try reflexivity;
    rewrite ?Z.ltb_lt, ?Z.ltb_ge in E, E'; lia.
Qed.

Lemma showAlert_idle (alertData : AlertData) (this : AlertSystem) :
  queueAlerts (options this) = true ->
  isProcessing this = false ->
  alertQueue this = [] ->
  if (1 <=? maxQueueSize (options this))%Z then
    isProcessing (showAlert alertData this) = true /\
    shown (showAlert alertData this) = (shown this ++ [alertData])%list /\
    alertQueue (showAlert alertData this) = []
  else
    isProcessing (showAlert alertData this) = false /\
    shown (showAlert alertData this) = shown this /\
    alertQueue (showAlert alertData this) = [].
Proof.
  intros Hq Hp Hempty. rewrite showAlert_queueing by exact Hq. cbv zeta. rewrite Hp. simpl.
  unfold _processAlertQueue, drain, limited. rewrite Hempty. simpl.
  change (Z.of_nat 1) with 1%Z.
  destruct (maxQueueSize (options this) <? 1)%Z eqn:E,
    (1 <=? maxQueueSize (options this))%Z eqn:E'; simpl; auto;
    rewrite ?Z.ltb_lt, ?Z.ltb_ge, ?Z.leb_le, ?Z.leb_gt in E, E'; lia.
Qed.

(** C8.  With queueing enabled and a capacity that is not negative (the
    default is 10), after every sequence of [showAlert] calls and render
    completions:
    - the pending queue holds at most [maxQueueSize] alerts, and alerts are
      pending only while the drain loop is in flight;
    - the alerts rendered so far followed by the pending ones are the
      submitted alerts in submission order with some left out;
    - a [showAlert] that arrives while the loop is in flight renders
      nothing and appends its alert to the queue; when the queue holds
      fewer than [maxQueueSize] alerts nothing else changes, and when it is
      full the oldest pending alert is dropped in the same step;
    - a [showAlert] that arrives while no loop is in flight starts the loop,
      which takes the alert to rendering at once (with capacity 0 the alert
      is dropped instead);
    - a render completion takes the oldest pending alert to rendering and
      leaves the others pending in their order, and it ends the loop when
      nothing is pending. *)
Theorem queue_bounded_fifo (o : Options) (events : list Event) :
  queueAlerts o = true ->
  (0 <= maxQueueSize o)%Z ->
  let this := run events (newAlertSystem o) in
  (Z.of_nat (List.length (alertQueue this)) <= maxQueueSize o)%Z /\
  (isProcessing this = false -> alertQueue this = []) /\
  (shown this ++ alertQueue this)%list `sublist_of` submitted events /\
  (forall alertData,
      isProcessing this = true ->
      isProcessing (showAlert alertData this) = true /\
      shown (showAlert alertData this) = shown this /\
      alertQueue (showAlert alertData this) =
        if (Z.of_nat (List.length (alertQueue this)) <? maxQueueSize o)%Z
        then (alertQueue this ++ [alertData])%list
        else tail (alertQueue this ++ [alertData])%list) /\
  (forall alertData,
      isProcessing this = false ->
      if (1 <=? maxQueueSize o)%Z then
        isProcessing (showAlert alertData this) = true /\
        shown (showAlert alertData this) = (shown this ++ [alertData])%list /\
        alertQueue (showAlert alertData this) = []
      else
        isProcessing (showAlert alertData this) = false /\
        shown (showAlert alertData this) = shown this /\
        alertQueue (showAlert alertData this) = []) /\
  (forall oldest rest,
      alertQueue this = oldest :: rest ->
      isProcessing (renderDone this) = true /\
      shown (renderDone this) = (shown this ++ [oldest])%list /\
      alertQueue (renderDone this) = rest) /\
  (alertQueue this = [] ->
   isProcessing (renderDone this) = false /\
   shown (renderDone this) = shown this /\
   alertQueue (renderDone this) = []).
Proof.
  intros Hq Hmax this.
  destruct (run_invariant o events Hq Hmax) as [[Hlen Hidle] Hsub].
  fold this in Hlen, Hidle, Hsub.
  assert (Hopt : options this = o) by apply options_run.
  rewrite Hopt in Hlen.
  split; [exact Hlen |]. split; [exact Hidle |]. split; [exact Hsub |].
  split; [| split; [| split]].
  - intros alertData Hp. rewrite <- Hopt.
    apply showAlert_in_flight; [now rewrite Hopt | exact Hp].
  - intros alertData Hp. rewrite <- Hopt.
    apply showAlert_idle; [now rewrite Hopt | exact Hp | now apply Hidle].
  - intros oldest rest Hqueue.
    assert (Hp : isProcessing this = true).
    { destruct (isProcessing this); [reflexivity |].
      rewrite (Hidle eq_refl) in Hqueue. discriminate. }
    unfold renderDone, drain. rewrite Hp, Hqueue. simpl. auto.
  - intros Hqueue. unfold renderDone, drain.
    destruct (isProcessing this) eqn:Hp; rewrite Hqueue; simpl; auto.
Qed.

Lemma queue_bounded_fifo_witness :
  alertQueue (showAlert (sampleAlert 13) (run burst (newAlertSystem defaultOptions)))
  = map sampleAlert [4; 5; 6; 7; 8; 9; 10; 11; 12; 13]%Z /\
  shown (renderDone (run burst (newAlertSystem defaultOptions)))
  = map sampleAlert [1; 3]%Z.
Proof.
  destruct (queue_bounded_fifo defaultOptions burst)
    as (_ & _ & _ & Hinsert & _ & Hrender & _); [reflexivity | simpl; lia |].
  split.
  - destruct (Hinsert (sampleAlert 13) eq_refl) as (_ & _ & Hqueue).
    rewrite Hqueue. reflexivity.
  - destruct (Hrender (sampleAlert 3) (map sampleAlert [4; 5; 6; 7; 8; 9; 10; 11; 12]%Z)
                      eq_refl) as (_ & Hshown & _).
    rewrite Hshown. reflexivity.
Defined.

(** The burst on the default dispatcher: the first alert goes straight to
    rendering, the next eleven are queued, and the eleventh insertion evicts
    alert 2, the oldest pending one. *)
Example burst_evicts_oldest :
  let this := run burst (newAlertSystem defaultOptions) in
  shown this = [sampleAlert 1] /\
  alertQueue this = map sampleAlert [3; 4; 5; 6; 7; 8; 9; 10; 11; 12]%Z /\
  shown (run (burst ++ [RenderDone; RenderDone])%list (newAlertSystem defaultOptions))
    = map sampleAlert [1; 3; 4]%Z.
Proof. repeat split. Qed.

End AlertsProps.

(** ** Preference Filter *)

Module FilteringProps.
Import Filtering.

Example chatMessage_category : _determineContentType chatMessage = "chat".
Proof. reflexivity. Qed.

Example outage_category : _determineContentType outageFirst = "error".
Proof. reflexivity. Qed.

Example outage_accepted :
  result (filterChanges noURL (One outageFirst) "") (newFilter defaultOptions)
  = Ok (FOne (Some outageFirst)).
Proof. vm_compute. reflexivity. Qed.

Example chat_after_burst :
  minPriorityOf "chat"
    (after (recordEach chatMessage dismissalsThenViews 0) (newFilter defaultOptions))
  = Some 10%Z.
Proof. vm_compute. reflexivity. Qed.

(** *** Methods that only read [this] *)

Lemma readOnly_ret {A} (a : A) : readOnly (mret a).
Proof. intros this. reflexivity. Qed.

Lemma readOnly_gets {A} (f : Filter -> A) : readOnly (gets f).
Proof. intros this. reflexivity. Qed.

Lemma readOnly_throw {A} : readOnly (@throw A).
Proof. intros this. reflexivity. Qed.

Lemma readOnly_bind {A B} (m : M A) (k : A -> M B) :
  readOnly m -> (forall a, readOnly (k a)) -> readOnly (m ≫= k).
Proof.
  intros Hm Hk this. specialize (Hm this).
  unfold after, mbind, M_bind in *.
  destruct (m this) as [[a|] this']; simpl in *; subst; [apply Hk | reflexivity].
Qed.

Lemma readOnly_mapM {A B} (f : A -> M B) (l : list A) :
  (forall a, readOnly (f a)) -> readOnly (mapM f l).
Proof.
  intros Hf. induction l as [|x rest IH]; simpl.
  - apply readOnly_ret.
  - apply readOnly_bind; [apply Hf | intros y].
    apply readOnly_bind; [exact IH | intros ys; apply readOnly_ret].
Qed.

Create HintDb readonly.

#[local] Hint Resolve readOnly_ret readOnly_gets readOnly_throw : readonly.

Lemma _isDuplicate_readOnly (change : Summarization.Summary) : readOnly (_isDuplicate change).
Proof.
  unfold _isDuplicate.
  destruct (negb (truthy (Summarization.summary change))); auto with readonly.
  apply readOnly_bind; auto with readonly.
Qed.

Lemma _shouldFilterByRules_readOnly (change : Summarization.Summary) (contentType : string)
      (preferences : GlobalPrefs) :
  readOnly (_shouldFilterByRules change contentType preferences).
Proof.
  unfold _shouldFilterByRules.
  destruct (_ && _ && _); auto with readonly.
  apply readOnly_bind; [apply _isDuplicate_readOnly |].
  intros []; auto with readonly.
Qed.

Section ReadOnlyWithURL.
Variable hostname : string -> option string.

Lemma _getApplicablePreferences_readOnly (siteUrl : string) :
  readOnly (_getApplicablePreferences hostname siteUrl).
Proof.
  unfold _getApplicablePreferences.
  apply readOnly_bind; [apply readOnly_gets | intros this].
  destruct (_ || _); auto with readonly.
  destruct (sites (userPreferences this) !! _); auto with readonly.
Qed.

Lemma _filterSingleChange_readOnly (change : Summarization.Summary) (siteUrl : string) :
  readOnly (_filterSingleChange hostname change siteUrl).
Proof.
  unfold _filterSingleChange.
  apply readOnly_bind; [apply _getApplicablePreferences_readOnly | intros preferences].
  destruct (match contentTypePreferences preferences !! _ with
            | Some p => Some p
            | None => contentTypePreferences preferences !! "text"
            end) as [typePrefs|]; auto with readonly.
  destruct (negb (enabled typePrefs)); auto with readonly.
  destruct (_ <? _)%Z; auto with readonly.
  apply readOnly_bind; [apply _shouldFilterByRules_readOnly |].
  intros []; auto with readonly.
Qed.

Lemma filterChanges_readOnly (changes : Changes) (siteUrl : string) :
  readOnly (filterChanges hostname changes siteUrl).
Proof.
  destruct changes as [change | changes]; simpl.
  - apply readOnly_bind; [apply _filterSingleChange_readOnly | auto with readonly].
  - apply readOnly_bind; [| auto with readonly].
    apply readOnly_mapM. intros change. apply _filterSingleChange_readOnly.
Qed.

(** C10, amended.  For every summary or list of summaries, site URL and
    filter state, [filterChanges] leaves the filter as it found it:
    [userPreferences] (global and per site) and [interactionHistory] are
    the same after the call, whether it returns or throws.  Of the public
    methods only [initializePreferences], [recordInteraction] and
    [updatePreferences] can leave a different state. *)
Theorem filterChanges_frame (changes : Changes) (siteUrl : string) (this : Filter) :
  after (filterChanges hostname changes siteUrl) this = this /\
  userPreferences (after (filterChanges hostname changes siteUrl) this)
    = userPreferences this /\
  interactionHistory (after (filterChanges hostname changes siteUrl) this)
    = interactionHistory this /\
  (forall c : Call, assignsState c = false -> perform hostname c this = this).
Proof.
  pose proof (filterChanges_readOnly changes siteUrl this) as H.
  rewrite H. repeat split.
  intros c Hc. destruct c; simpl in *; try discriminate.
  - apply filterChanges_readOnly.
  - apply _getApplicablePreferences_readOnly.
  - reflexivity.
Qed.

End ReadOnlyWithURL.

(** C10, as stated, fails in its last clause: [initializePreferences] with a
    stored object assigns [this.userPreferences] too (here the global
    threshold goes from 5 to 7), although it is neither [recordInteraction]
    nor [updatePreferences]. *)
Lemma initializePreferences_assigns_state_counterexample :
  let before := newFilter defaultOptions in
  let later := perform noURL (CallInitializePreferences (Some partialStored)) before in
  priorityThreshold (global (userPreferences before)) = 5%Z /\
  priorityThreshold (global (userPreferences later)) = 7%Z /\
  later <> before.
Proof.
  repeat split. intros H.
  apply (f_equal (fun f => priorityThreshold (global (userPreferences f)))) in H.
  discriminate.
Qed.

Lemma filterChanges_frame_witness :
  perform noURL (CallFilterChanges (Many [outageFirst; chatMessage]) "https://example.org/")
          (newFilter defaultOptions)
  = newFilter defaultOptions.
Proof.
  destruct (filterChanges_frame noURL (One outageFirst) "" (newFilter defaultOptions))
    as (_ & _ & _ & H).
  apply H. reflexivity.
Defined.

(** The other two methods do assign the state. *)
Example recordInteraction_assigns_history :
  List.length (interactionHistory
    (after (recordInteraction chatMessage viewed 0) (newFilter defaultOptions)))
  = 1%nat.
Proof. reflexivity. Qed.

Example updatePreferences_assigns_threshold :
  priorityThreshold (global (userPreferences
    (after (updatePreferences noURL
              {| site_priorityThreshold := Some 8%Z; site_contentTypePreferences := None |}
              "")
           (newFilter defaultOptions))))
  = 8%Z.
Proof. reflexivity. Qed.

(** Scenario D of the specification: with the default preferences the
    [advertisement] category is disabled, and a summary of that category is
    filtered out whatever its priority. *)
Example advertisement_filtered :
  _determineContentType (textSummary "Sponsored: new shoes" 10 1) = "advertisement" /\
  result (filterChanges noURL (One (textSummary "Sponsored: new shoes" 10 1)) "")
         (newFilter defaultOptions)
  = Ok (FOne None).
Proof. vm_compute. split; reflexivity. Qed.

(** *** Initialization from storage *)

(** C7, as stated, fails: the stored object names [global] with the [text]
    category only; [chat] is a default setting that is not present in it,
    and after initialization the effective preferences have no [chat] entry
    any more. *)
Lemma initializePreferences_counterexample :
  let before := newFilter defaultOptions in
  let later := after (initializePreferences (Some partialStored)) before in
  In "chat" categories /\
  (stored_global partialStored ≫= fun g => contentTypePreferences g !! "chat") = None /\
  contentTypePreferences (global (userPreferences before)) !! "chat"
    = Some {| enabled := true; minPriority := 4 |} /\
  contentTypePreferences (global (userPreferences later)) !! "chat" = None.
Proof. vm_compute. repeat split. tauto. Qed.

(** C7, amended.  [initializePreferences(stored)] merges at the top level
    only: a top-level key ([global], [sites]) that is absent from the stored
    object keeps its current value, a key that is present replaces the
    current value wholesale, and nothing happens without a stored object.
    In particular, on a fresh filter and a stored object without a [global]
    key the seven default [contentTypePreferences] entries are retained. *)
Theorem initializePreferences_top_level_merge
        (stored : option StoredPreferences) (this : Filter) :
  let later := after (initializePreferences stored) this in
  (stored = None -> later = this) /\
  (forall s, stored = Some s ->
     (stored_global s = None -> global (userPreferences later) = global (userPreferences this)) /\
     (stored_sites s = None -> sites (userPreferences later) = sites (userPreferences this)) /\
     (forall g, stored_global s = Some g -> global (userPreferences later) = g) /\
     (forall m, stored_sites s = Some m -> sites (userPreferences later) = m) /\
     (forall o category,
        this = newFilter o -> stored_global s = None -> In category categories ->
        contentTypePreferences (global (userPreferences later)) !! category
          = defaultContentTypePreferences !! category /\
        is_Some (defaultContentTypePreferences !! category))) /\
  options later = options this /\
  interactionHistory later = interactionHistory this.
Proof.
  destruct stored as [s|]; cbn -[categories defaultContentTypePreferences].
  - split; [discriminate |]. split; [| split; reflexivity].
    intros s' [= <-]. repeat split.
    + now intros ->.
    + now intros ->.
    + now intros g ->.
    + now intros m ->.
    + subst this. rewrite H0. reflexivity.
    + simpl in H1.
      repeat (destruct H1 as [<- | H1]; [vm_compute; eauto |]). contradiction.
  - split; [reflexivity |]. split; [discriminate | split; reflexivity].
Qed.

Lemma initializePreferences_top_level_merge_witness :
  contentTypePreferences
    (global (userPreferences
       (after (initializePreferences (Some foreignStored)) (newFilter defaultOptions))))
    !! "advertisement"
  = Some {| enabled := false; minPriority := 10 |}.
Proof.
  destruct (initializePreferences_top_level_merge
              (Some foreignStored) (newFilter defaultOptions)) as (_ & H & _).
  destruct (H foreignStored eq_refl) as (_ & _ & _ & _ & Hd).
  destruct (Hd defaultOptions "advertisement" eq_refl eq_refl) as [Heq _].
  - simpl. tauto.
  - rewrite Heq. reflexivity.
Defined.

(** *** Stepping through a sequence of method calls *)

Lemma bind_ok {A B} (m : M A) (k : A -> M B) (this this' : Filter) (a : A) :
  m this = (Ok a, this') -> (m ≫= k) this = k a this'.
Proof. intros H. unfold mbind, M_bind. now rewrite H. Qed.

Lemma bind_throw {A B} (m : M A) (k : A -> M B) (this this' : Filter) :
  m this = (TypeError, this') -> (m ≫= k) this = (TypeError, this').
Proof. intros H. unfold mbind, M_bind. now rewrite H. Qed.

(** *** Duplicates *)

Lemma truthy_nonempty (s : string) : s <> "" -> truthy s = true.
Proof. destruct s; [congruence | reflexivity]. Qed.

Lemma slice_last_snoc {A} (n : nat) (l : list A) (x : A) :
  exists l', JS.slice_last (S n) (l ++ [x])%list = (l' ++ [x])%list.
Proof.
  unfold JS.slice_last. rewrite length_app. simpl.
  exists (skipn (List.length l + 1 - S n) l).
  rewrite skipn_app.
  replace (List.length l + 1 - S n - List.length l)%nat with 0%nat by lia.
  reflexivity.
Qed.

Lemma duplicateAmong_snoc (l : list InteractionRecord) (x : InteractionRecord) (s : string) :
  i_summary x = s -> duplicateAmong (l ++ [x])%list s = true.
Proof.
  intros Hx. induction l as [|y rest IH]; simpl.
  - now rewrite Hx, String.eqb_refl.
  - destruct (String.eqb (i_summary y) s); [reflexivity |].
    destruct (JS.Qgtb _ _); [reflexivity | exact IH].
Qed.

Lemma limitHistory_snoc (h : list InteractionRecord) (x : InteractionRecord) :
  exists h', limitHistory (h ++ [x])%list = (h' ++ [x])%list.
Proof.
  unfold limitHistory.
  destruct (maxHistoryItems <? List.length (h ++ [x])%list)%nat eqn:E.
  - destruct h as [|y rest].
    + simpl in E. discriminate.
    + exists rest. reflexivity.
  - now exists h.
Qed.

(** The learning pass leaves the history alone. *)
Lemma learning_history (this : Filter) :
  interactionHistory (after _updatePreferencesFromInteractions this)
  = interactionHistory this.
Proof.
  unfold after, _updatePreferencesFromInteractions, mbind, M_bind, gets, modify. simpl.
  destruct (List.length (interactionHistory this) <? 10)%nat; reflexivity.
Qed.

Lemma learning_options (this : Filter) :
  options (after _updatePreferencesFromInteractions this) = options this.
Proof.
  unfold after, _updatePreferencesFromInteractions, mbind, M_bind, gets, modify. simpl.
  destruct (List.length (interactionHistory this) <? 10)%nat; reflexivity.
Qed.

(** [recordInteraction] with learning enabled: push, limit, learn. *)
Lemma recordInteraction_after (change : Summarization.Summary) (i : Interaction) (now : Z)
      (this : Filter) :
  enableLearning (options this) = true ->
  after (recordInteraction change i now) this =
  after _updatePreferencesFromInteractions
        (set_interactionHistory
           (limitHistory (interactionHistory this ++ [recordOf change i now])%list) this).
Proof.
  intros Hl.
  unfold after, recordInteraction, mbind, M_bind, gets, modify, mret, M_ret, limitHistory,
    recordOf.
  simpl. rewrite Hl. simpl.
  destruct (maxHistoryItems <? _)%nat; reflexivity.
Qed.

Lemma recordInteraction_history (change : Summarization.Summary) (i : Interaction) (now : Z)
      (this : Filter) :
  enableLearning (options this) = true ->
  exists h, interactionHistory (after (recordInteraction change i now) this)
            = (h ++ [recordOf change i now])%list.
Proof.
  intros Hl. rewrite recordInteraction_after by assumption.
  rewrite learning_history. simpl. apply limitHistory_snoc.
Qed.

Section DuplicatesWithURL.
Variable hostname : string -> option string.

Lemma _getApplicablePreferences_returns (siteUrl : string) (this : Filter) :
  exists p, _getApplicablePreferences hostname siteUrl this = (Ok p, this).
Proof.
  unfold _getApplicablePreferences, mbind, M_bind, gets, mret, M_ret. simpl.
  destruct (_ || _); eauto.
  destruct (sites (userPreferences this) !! _); eauto.
Qed.

(** A change that [_isDuplicate] flags is never let through. *)
Lemma duplicate_filtered_single (change : Summarization.Summary) (siteUrl : string)
      (this : Filter) :
  _isDuplicate change this = (Ok true, this) ->
  _filterSingleChange hostname change siteUrl this = (Ok None, this) \/
  _filterSingleChange hostname change siteUrl this = (TypeError, this).
Proof.
  intros Hdup.
  destruct (_getApplicablePreferences_returns siteUrl this) as (p & Hp).
  unfold _filterSingleChange. rewrite (bind_ok _ _ _ _ _ Hp).
  destruct (match contentTypePreferences p !! _ with
            | Some q => Some q
            | None => contentTypePreferences p !! "text"
            end) as [typePrefs|]; [| right; reflexivity].
  left.
  destruct (negb (enabled typePrefs)); [reflexivity |].
  destruct (_ <? _)%Z; [reflexivity |].
  assert (Hrules : _shouldFilterByRules change (_determineContentType change) p this
                   = (Ok true, this)).
  { unfold _shouldFilterByRules.
    destruct (_ && _ && _); [reflexivity |].
    now rewrite (bind_ok _ _ _ _ _ Hdup). }
  now rewrite (bind_ok _ _ _ _ _ Hrules).
Qed.

Lemma duplicate_never_accepted (change : Summarization.Summary) (siteUrl : string)
      (this : Filter) :
  _isDuplicate change this = (Ok true, this) ->
  result (filterChanges hostname (One change) siteUrl) this = Ok (FOne None) \/
  result (filterChanges hostname (One change) siteUrl) this = TypeError.
Proof.
  intros Hdup. unfold result, filterChanges.
  destruct (duplicate_filtered_single change siteUrl this Hdup) as [H | H].
  - left. now rewrite (bind_ok _ _ _ _ _ H).
  - right. now rewrite (bind_throw _ _ _ _ H).
Qed.

(** C1, amended.  The filter rejects a summary as a duplicate of what has
    been recorded, not of what it has merely let through.  Once a summary
    has been recorded with [recordInteraction] (learning enabled), a summary
    with the same non-empty text that is submitted next is flagged by
    [_isDuplicate] and is never accepted.  [filterChanges] itself records
    nothing: a submission that follows another one directly gets the
    verdict it would have got before it. *)
Theorem recorded_duplicate_rejected
        (this : Filter) (first second : Summarization.Summary)
        (i : Interaction) (now : Z) (siteUrl : string) :
  enableLearning (options this) = true ->
  Summarization.summary first <> "" ->
  Summarization.summary second = Summarization.summary first ->
  let recorded := after (recordInteraction first i now) this in
  result (_isDuplicate second) recorded = Ok true /\
  (result (filterChanges hostname (One second) siteUrl) recorded = Ok (FOne None) \/
   result (filterChanges hostname (One second) siteUrl) recorded = TypeError) /\
  result (filterChanges hostname (One second) siteUrl)
         (after (filterChanges hostname (One first) siteUrl) this)
    = result (filterChanges hostname (One second) siteUrl) this.
Proof.
  intros Hl Hne Hsame recorded.
  assert (Hdup : _isDuplicate second recorded = (Ok true, recorded)).
  { unfold _isDuplicate. rewrite Hsame, (truthy_nonempty _ Hne). simpl.
    unfold mbind, M_bind, gets, mret, M_ret.
    destruct (recordInteraction_history first i now this Hl) as (h & Hh).
    fold recorded in Hh. rewrite Hh.
    destruct (slice_last_snoc 4 h (recordOf first i now)) as (l' & Hs).
    rewrite Hs, duplicateAmong_snoc; reflexivity. }
  split; [unfold result; now rewrite Hdup |].
  split; [now apply duplicate_never_accepted |].
  now rewrite filterChanges_readOnly.
Qed.

End DuplicatesWithURL.

(** C1, as stated, fails: two summaries with the same text, submitted one
    after the other to a fresh filter with nothing in between, are both
    accepted, because the first submission leaves no trace in the filter. *)
Lemma duplicate_rejection_counterexample :
  let this := newFilter defaultOptions in
  let afterFirst := after (filterChanges noURL (One outageFirst) "") this in
  Summarization.summary outageFirst = Summarization.summary outageSecond /\
  result (filterChanges noURL (One outageFirst) "") this = Ok (FOne (Some outageFirst)) /\
  result (filterChanges noURL (One outageSecond) "") afterFirst
    = Ok (FOne (Some outageSecond)).
Proof. vm_compute. repeat split. Qed.

(** The same two summaries in one array. *)
Example duplicates_in_one_array :
  result (filterChanges noURL (Many [outageFirst; outageSecond]) "") (newFilter defaultOptions)
  = Ok (FMany (Some [outageFirst; outageSecond])).
Proof. vm_compute. reflexivity. Qed.

Lemma recorded_duplicate_rejected_witness :
  result (filterChanges noURL (One outageSecond) "")
         (after (recordInteraction outageFirst viewed 3) (newFilter defaultOptions))
  = Ok (FOne None).
Proof.
  destruct (recorded_duplicate_rejected noURL (newFilter defaultOptions)
              outageFirst outageSecond viewed 3 "") as (_ & [H | H] & _);
    try reflexivity; try discriminate.
Defined.

(** *** Learning *)









End FilteringProps.

(* ===================================================================== *)
(** * Further properties of the modules *)
(* ===================================================================== *)

(** ** Preference Filter: history, learning, verdicts, preferences *)

Module FilteringExtra.
Import Filtering.

(** *** The history buffer *)

Lemma recordInteraction_disabled (change : Summarization.Summary) (i : Interaction)
      (now : Z) (this : Filter) :
  enableLearning (options this) = false ->
  recordInteraction change i now this = (Ok tt, this).
Proof.
  intros H. unfold recordInteraction, mbind, M_bind, gets, mret, M_ret. simpl.
  now rewrite H.
Qed.

Lemma length_limitHistory (h : list InteractionRecord) (x : InteractionRecord) :
  (List.length h <= maxHistoryItems)%nat ->
  (List.length (limitHistory (h ++ [x])%list) <= maxHistoryItems)%nat /\
  (List.length (limitHistory (h ++ [x])%list) <= S (List.length h))%nat.
Proof.
  intros H. unfold limitHistory. rewrite length_app. simpl.
  destruct (maxHistoryItems <? List.length h + 1)%nat eqn:E.
  - apply Nat.ltb_lt in E. unfold maxHistoryItems in *.
    destruct h as [|y rest]; simpl in *; [lia |]. rewrite length_app. simpl. lia.
  - apply Nat.ltb_ge in E. rewrite length_app. simpl. lia.
Qed.

Lemma recordInteraction_history_bound (change : Summarization.Summary) (i : Interaction)
      (now : Z) (this : Filter) :
  (List.length (interactionHistory this) <= maxHistoryItems)%nat ->
  (List.length (interactionHistory (after (recordInteraction change i now) this))
   <= maxHistoryItems)%nat.
Proof.
  intros H. destruct (enableLearning (options this)) eqn:E.
  - rewrite FilteringProps.recordInteraction_after by assumption.
    rewrite FilteringProps.learning_history. simpl.
    now apply length_limitHistory.
  - unfold after. now rewrite recordInteraction_disabled.
Qed.

Lemma updatePreferences_history (hostname : string -> option string)
      (newPreferences : SitePrefs) (siteUrl : string) (this : Filter) :
  interactionHistory (after (updatePreferences hostname newPreferences siteUrl) this)
  = interactionHistory this.
Proof.
  unfold after, updatePreferences. destruct (negb (truthy siteUrl)); reflexivity.
Qed.

Lemma initializePreferences_history (stored : option StoredPreferences) (this : Filter) :
  interactionHistory (after (initializePreferences stored) this) = interactionHistory this.
Proof. destruct stored; reflexivity. Qed.

Lemma perform_history_bound (hostname : string -> option string) (c : Call) (this : Filter) :
  (List.length (interactionHistory this) <= maxHistoryItems)%nat ->
  (List.length (interactionHistory (perform hostname c this)) <= maxHistoryItems)%nat.
Proof.
  intros H. destruct c; simpl.
  - now rewrite initializePreferences_history.
  - now rewrite FilteringProps.filterChanges_readOnly.
  - now apply recordInteraction_history_bound.
  - now rewrite updatePreferences_history.
  - unfold getPreferences. now rewrite FilteringProps._getApplicablePreferences_readOnly.
  - exact H.
Qed.

(** X1.  The interaction history is a bounded buffer: whatever public
    methods are called in whatever order, a history of at most 100 entries
    stays at most 100 entries long; in particular it does on a filter that
    starts empty. *)
Theorem history_never_exceeds_limit
        (hostname : string -> option string) (calls : list Call) (this : Filter) :
  (List.length (interactionHistory this) <= 100)%nat ->
  (List.length (interactionHistory (performAll hostname calls this)) <= 100)%nat.
Proof.
  revert this. induction calls as [|c rest IH]; intros this H; [exact H |].
  simpl. apply IH. now apply perform_history_bound.
Qed.

Lemma history_never_exceeds_limit_witness :
  (List.length (interactionHistory
     (performAll noURL
        (repeat (CallRecordInteraction chatMessage viewed 0) 120)
        (newFilter defaultOptions))) <= 100)%nat.
Proof.
  apply (history_never_exceeds_limit noURL
           (repeat (CallRecordInteraction chatMessage viewed 0) 120)
           (newFilter defaultOptions)).
  simpl. lia.
Defined.

(** *** Learning *)

Lemma steadyEntry_refl (o : option TypePrefs) : steadyEntry o o.
Proof. destruct o; simpl; auto. Qed.

Lemma steadyEntry_trans (a b c : option TypePrefs) :
  steadyEntry a b -> steadyEntry b c -> steadyEntry a c.
Proof.
  destruct a, b, c; simpl; try tauto.
  intros [H1 H2] [H3 H4]. split; [congruence | auto].
Qed.

(** Replacing the entry of one key, when it exists, by a rewritten one. *)
Lemma rewrite_entry_lookup (f : TypePrefs -> TypePrefs) (prefs : gmap string TypePrefs)
      (t category : string) :
  match prefs !! t with
  | Some currentPrefs => <[t := f currentPrefs]> prefs
  | None => prefs
  end !! category
  = if decide (t = category) then f <$> prefs !! category else prefs !! category.
Proof.
  destruct (decide (t = category)) as [<- | Hne].
  - destruct (prefs !! t) eqn:E; simpl; [apply lookup_insert_eq | exact E].
  - destruct (prefs !! t); [now apply lookup_insert_ne | reflexivity].
Qed.

(** [adjustType] on one entry, as a rewriting of that entry's category. *)
Lemma adjustType_lookup (prefs : gmap string TypePrefs) (t : string) (c : Counts)
      (category : string) :
  adjustType prefs (t, c) !! category =
  if decide (t = category) then
    if (total c <? 3)%nat then prefs !! category
    else
      let afterRaise :=
        if JS.Qgtb (JS.ratio (n_dismissed c) (total c)) (7 # 10)
        then raised <$> prefs !! category else prefs !! category in
      if JS.Qgtb (JS.ratio (n_clicked c) (total c)) (3 # 10)
      then lowered <$> afterRaise else afterRaise
  else prefs !! category.
Proof.
  unfold adjustType.
  destruct (total c <? 3)%nat; [now destruct (decide (t = category)) |].
  destruct (JS.Qgtb (JS.ratio (n_dismissed c) (total c)) (7 # 10));
    destruct (JS.Qgtb (JS.ratio (n_clicked c) (total c)) (3 # 10)); cbv zeta;
    rewrite ?(rewrite_entry_lookup lowered), ?(rewrite_entry_lookup raised);
    destruct (decide (t = category)); try reflexivity.
Qed.

(** What the learning pass leaves of the filter. *)
Lemma learning_pass_shape (this : Filter) :
  exists entries,
    after _updatePreferencesFromInteractions this =
    set_global_contentTypePreferences
      (fold_left adjustType entries
                 (contentTypePreferences (global (userPreferences this))))
      this /\
    ((List.length (interactionHistory this) < 10)%nat -> entries = []) /\
    ((10 <= List.length (interactionHistory this))%nat ->
     entries = fold_left countItem (JS.slice_last 20 (interactionHistory this)) []).
Proof.
  unfold after, _updatePreferencesFromInteractions, mbind, M_bind, gets, modify, mret, M_ret.
  simpl.
  destruct (List.length (interactionHistory this) <? 10)%nat eqn:E.
  - exists []. simpl. apply Nat.ltb_lt in E. repeat split; [| lia].
    destruct this as [o [[t c] s] h]. reflexivity.
  - apply Nat.ltb_ge in E. eexists. repeat split. lia.
Qed.

(** A filter short of ten entries learns nothing from one more. *)
Lemma recordInteraction_too_few (change : Summarization.Summary) (i : Interaction)
      (now : Z) (this : Filter) :
  (List.length (interactionHistory this) < 9)%nat ->
  userPreferences (after (recordInteraction change i now) this) = userPreferences this /\
  (List.length (interactionHistory (after (recordInteraction change i now) this))
   <= S (List.length (interactionHistory this)))%nat.
Proof.
  intros H. destruct (enableLearning (options this)) eqn:E.
  - rewrite FilteringProps.recordInteraction_after by assumption.
    set (pushed := set_interactionHistory _ this).
    assert (Hlen : (List.length (interactionHistory pushed)
                    <= S (List.length (interactionHistory this)))%nat).
    { unfold pushed. simpl. apply length_limitHistory. unfold maxHistoryItems. lia. }
    destruct (learning_pass_shape pushed) as (entries & -> & Hnil & _).
    rewrite Hnil by lia. simpl. split; [| exact Hlen].
    destruct this as [o [[t c] s] h]. reflexivity.
  - unfold after. rewrite recordInteraction_disabled by assumption. simpl. split; [reflexivity | lia].
Qed.

Lemma recordInteraction_returns (change : Summarization.Summary) (i : Interaction)
      (now : Z) (this : Filter) :
  recordInteraction change i now this
  = (Ok tt, after (recordInteraction change i now) this).
Proof.
  unfold after, recordInteraction, _updatePreferencesFromInteractions,
    mbind, M_bind, gets, modify, mret, M_ret. simpl.
  destruct (enableLearning (options this)); simpl; [| reflexivity].
  repeat match goal with
         | |- context [if ?b then _ else _] => destruct b; simpl
         end; reflexivity.
Qed.

Lemma recordEach_cons (change : Summarization.Summary) (i : Interaction)
      (rest : list Interaction) (now : Z) (this : Filter) :
  after (recordEach change (i :: rest) now) this
  = after (recordEach change rest now) (after (recordInteraction change i now) this).
Proof.
  unfold after at 1. simpl.
  now rewrite (FilteringProps.bind_ok _ _ _ _ _ (recordInteraction_returns change i now this)).
Qed.

(** X3.  Learning needs ten recorded interactions: as long as the history,
    with the recordings added, stays below ten entries, recording any series
    of interactions leaves the preferences exactly as they were. *)
Theorem no_learning_below_ten_entries
        (change : Summarization.Summary) (interactions : list Interaction)
        (now : Z) (this : Filter) :
  (List.length (interactionHistory this) + List.length interactions < 10)%nat ->
  userPreferences (after (recordEach change interactions now) this)
  = userPreferences this.
Proof.
  revert this. induction interactions as [|i rest IH]; intros this H; [reflexivity |].
  rewrite recordEach_cons. simpl in H.
  destruct (recordInteraction_too_few change i now this) as [Hp Hl]; [lia |].
  rewrite IH by lia. exact Hp.
Qed.

Lemma no_learning_below_ten_entries_witness :
  userPreferences
    (after (recordEach chatMessage (repeat dismissed 9) 0) (newFilter defaultOptions))
  = userPreferences (newFilter defaultOptions).
Proof.
  apply (no_learning_below_ten_entries chatMessage (repeat dismissed 9) 0
           (newFilter defaultOptions)).
  simpl. lia.
Defined.

(** *** Rates *)

(** A quotient of counts exceeds a fraction exactly when the cross products
    say so. *)
Lemma Qgtb_ratio (a b : nat) (n : Z) (d : positive) :
  b <> 0%nat ->
  (JS.Qgtb (JS.ratio a b) (n # d) = true <->
   (n * Z.of_nat b < Z.of_nat a * Z.pos d)%Z).
Proof.
  intros Hb. destruct b as [|b']; [congruence |].
  unfold JS.Qgtb. rewrite negb_true_iff, <- not_true_iff_false, Qle_bool_iff.
  unfold JS.ratio, Qle, Qdiv, Qmult, Qinv, inject_Z.
  change (Z.of_nat (S b')) with (Z.pos (Pos.of_succ_nat b')). cbv iota. cbn [Qnum Qden].
  rewrite Pos2Z.inj_mul, !Zpos_P_of_succ_nat. lia.
Qed.

Lemma ratio_range (a b : nat) :
  (a <= b)%nat -> (0 <= JS.ratio a b)%Q /\ (JS.ratio a b <= 1)%Q.
Proof.
  intros H. destruct b as [|b'].
  - assert (a = 0%nat) as -> by lia. split; discriminate.
  - unfold JS.ratio, Qle, Qdiv, Qmult, Qinv, inject_Z.
    change (Z.of_nat (S b')) with (Z.pos (Pos.of_succ_nat b')). cbv iota.
    cbn [Qnum Qden]. rewrite ?Pos2Z.inj_mul, ?Zpos_P_of_succ_nat. lia.
Qed.

(** With counters that add up, the dismiss rate and the click rate cannot
    both be high. *)
Lemma rates_exclusive (c : Counts) :
  balanced c ->
  (3 <= total c)%nat ->
  JS.Qgtb (JS.ratio (n_dismissed c) (total c)) (7 # 10) = true ->
  JS.Qgtb (JS.ratio (n_clicked c) (total c)) (3 # 10) = false.
Proof.
  intros Hb Ht Hd. apply Qgtb_ratio in Hd; [| lia].
  apply not_true_iff_false. intros Hc. apply Qgtb_ratio in Hc; [| lia].
  unfold balanced in Hb. lia.
Qed.

(** *** One step per pass *)

Lemma has_key_In (k : string) (l : list (string * Counts)) :
  has_key k l = true <-> In k (map fst l).
Proof.
  induction l as [|[k' v] rest IH]; simpl; [split; [discriminate | tauto] |].
  destruct (String.eqb_spec k k') as [-> | Hne].
  - split; auto.
  - rewrite IH. split; [auto | intros [H | H]; [congruence | exact H]].
Qed.

Lemma alter_key_keys (f : Counts -> Counts) (k : string) (l : list (string * Counts)) :
  map fst (alter_key f k l) = map fst l.
Proof.
  induction l as [|[k' v] rest IH]; simpl; [reflexivity |].
  destruct (String.eqb k k'); simpl; [reflexivity | now rewrite IH].
Qed.

Lemma alter_key_balanced (f : Counts -> Counts) (k : string) (l : list (string * Counts)) :
  (forall c, balanced c -> balanced (f c)) ->
  Forall (fun e => balanced (snd e)) l ->
  Forall (fun e => balanced (snd e)) (alter_key f k l).
Proof.
  intros Hf. induction l as [|[k' v] rest IH]; simpl; intros Hall; [constructor |].
  apply Forall_cons_iff in Hall as [Hv Hrest].
  destruct (String.eqb k k'); constructor; simpl; auto.
Qed.

Lemma bump_balanced (i : Interaction) (c : Counts) : balanced c -> balanced (bump i c).
Proof. unfold balanced. destruct i; simpl; lia. Qed.

Lemma countItem_invariant (acc : list (string * Counts)) (item : InteractionRecord) :
  NoDup (map fst acc) /\ Forall (fun e => balanced (snd e)) acc ->
  NoDup (map fst (countItem acc item)) /\
  Forall (fun e => balanced (snd e)) (countItem acc item).
Proof.
  intros [Hnd Hall]. unfold countItem.
  destruct (has_key (contentType item) acc) eqn:E.
  - rewrite alter_key_keys. split; [exact Hnd |].
    apply alter_key_balanced; [apply bump_balanced | exact Hall].
  - rewrite alter_key_keys. split.
    + rewrite map_app. simpl. apply NoDup_app. repeat split; auto.
      * intros k Hk Hin. apply list_elem_of_In in Hk.
        apply list_elem_of_In in Hin. destruct Hin as [<- | []].
        apply has_key_In in Hk. congruence.
      * apply NoDup_singleton.
    + apply alter_key_balanced; [apply bump_balanced |].
      apply Forall_app. split; [exact Hall |].
      constructor; [reflexivity | constructor].
Qed.

Lemma count_invariant (items : list InteractionRecord) (acc : list (string * Counts)) :
  NoDup (map fst acc) /\ Forall (fun e => balanced (snd e)) acc ->
  NoDup (map fst (fold_left countItem items acc)) /\
  Forall (fun e => balanced (snd e)) (fold_left countItem items acc).
Proof.
  revert acc. induction items as [|item rest IH]; intros acc H; [exact H |].
  simpl. apply IH. now apply countItem_invariant.
Qed.

(** *** Learning on entry objects *)

Lemma assign_lookup (f : TypePrefs -> TypePrefs) (entries : gmap string nat)
      (t : string) (objects : gmap nat TypePrefs) (id : nat) :
  Objects.assign f entries t objects !! id
  = if decide (entries !! t = Some id) then f <$> objects !! id else objects !! id.
Proof.
  unfold Objects.assign. destruct (entries !! t) as [id'|].
  - destruct (decide (Some id' = Some id)) as [Heq | Hne].
    + injection Heq as ->.
      destruct (objects !! id) eqn:E; simpl; [apply lookup_insert_eq | exact E].
    + assert (id' <> id) by congruence.
      destruct (objects !! id'); [now apply lookup_insert_ne | reflexivity].
  - destruct (decide (None = Some id)); [discriminate | reflexivity].
Qed.

(** The loop body on one entry of the counters, as a rewriting of the
    object that the global preferences hold for its category. *)
Lemma adjustObjects_lookup (entries : gmap string nat) (objects : gmap nat TypePrefs)
      (t : string) (c : Counts) (id : nat) :
  Objects.adjustType entries objects (t, c) !! id =
  if decide (entries !! t = Some id) then
    if (total c <? 3)%nat then objects !! id
    else
      let afterRaise :=
        if JS.Qgtb (JS.ratio (n_dismissed c) (total c)) (7 # 10)
        then raised <$> objects !! id else objects !! id in
      if JS.Qgtb (JS.ratio (n_clicked c) (total c)) (3 # 10)
      then lowered <$> afterRaise else afterRaise
  else objects !! id.
Proof.
  unfold Objects.adjustType.
  destruct (total c <? 3)%nat; [now destruct (decide (entries !! t = Some id)) |].
  destruct (JS.Qgtb (JS.ratio (n_dismissed c) (total c)) (7 # 10));
    destruct (JS.Qgtb (JS.ratio (n_clicked c) (total c)) (3 # 10)); cbv zeta;
    rewrite ?assign_lookup;
    destruct (decide (entries !! t = Some id)); reflexivity.
Qed.

Lemma adjustObjects_steady (entries : gmap string nat) (objects : gmap nat TypePrefs)
      (entry : string * Counts) (id : nat) :
  steadyEntry (objects !! id) (Objects.adjustType entries objects entry !! id).
Proof.
  destruct entry as [t c]. rewrite adjustObjects_lookup.
  destruct (decide (entries !! t = Some id)); [| apply steadyEntry_refl].
  destruct (total c <? 3)%nat; [apply steadyEntry_refl |]. cbv zeta.
  destruct (JS.Qgtb _ (7 # 10)), (JS.Qgtb _ (3 # 10)), (objects !! id) as [p|];
    simpl; auto; split; auto; lia.
Qed.

Lemma learning_objects_steady (counters : list (string * Counts))
      (entries : gmap string nat) (objects : gmap nat TypePrefs) (id : nat) :
  steadyEntry (objects !! id)
              (fold_left (Objects.adjustType entries) counters objects !! id).
Proof.
  revert objects. induction counters as [|e rest IH]; intros objects; simpl.
  - apply steadyEntry_refl.
  - eapply steadyEntry_trans; [apply adjustObjects_steady | apply IH].
Qed.

Lemma oneStep_refl (o : option TypePrefs) : oneStep o o.
Proof. destruct o; simpl; auto. Qed.

Lemma adjustObjects_oneStep (entries : gmap string nat) (objects : gmap nat TypePrefs)
      (t : string) (c : Counts) (id : nat) :
  balanced c ->
  oneStep (objects !! id) (Objects.adjustType entries objects (t, c) !! id).
Proof.
  intros Hb. rewrite adjustObjects_lookup.
  destruct (decide (entries !! t = Some id)); [| apply oneStep_refl].
  destruct (total c <? 3)%nat eqn:Et; [apply oneStep_refl |]. apply Nat.ltb_ge in Et.
  cbv zeta.
  destruct (JS.Qgtb _ (7 # 10)) eqn:Ed.
  - rewrite (rates_exclusive c Hb Et Ed).
    destruct (objects !! id); simpl; auto.
  - destruct (JS.Qgtb _ (3 # 10)); [| apply oneStep_refl].
    destruct (objects !! id); simpl; auto.
Qed.

(** An object that no counted category holds is left alone. *)
Lemma learning_objects_untouched (counters : list (string * Counts))
      (entries : gmap string nat) (objects : gmap nat TypePrefs) (id : nat) :
  (forall t, In t (map fst counters) -> entries !! t <> Some id) ->
  fold_left (Objects.adjustType entries) counters objects !! id = objects !! id.
Proof.
  revert objects. induction counters as [|[t c] rest IH]; intros objects Hnot;
    [reflexivity |].
  cbn [fold_left map fst In] in *. rewrite IH by auto. rewrite adjustObjects_lookup.
  destruct (decide (entries !! t = Some id)) as [Heq |]; [| reflexivity].
  exfalso. apply (Hnot t); auto.
Qed.

Lemma learning_objects_oneStep (counters : list (string * Counts))
      (entries : gmap string nat) (objects : gmap nat TypePrefs) (id : nat) :
  Objects.distinctGlobalEntries entries ->
  NoDup (map fst counters) ->
  Forall (fun e => balanced (snd e)) counters ->
  oneStep (objects !! id)
          (fold_left (Objects.adjustType entries) counters objects !! id).
Proof.
  intros Hdistinct. revert objects.
  induction counters as [|[t c] rest IH]; intros objects Hnd Hall.
  - apply oneStep_refl.
  - cbn [fold_left map fst] in *. apply NoDup_cons in Hnd as [Hnot Hnd].
    apply Forall_cons_iff in Hall as [Hc Hall]. simpl in Hc.
    destruct (decide (entries !! t = Some id)) as [Heq | Hne].
    + rewrite learning_objects_untouched; [now apply adjustObjects_oneStep |].
      intros t' Hin Heq'. apply Hnot. apply list_elem_of_In.
      now rewrite (Hdistinct t t' id Heq Heq').
    + specialize (IH (Objects.adjustType entries objects (t, c)) Hnd Hall).
      rewrite adjustObjects_lookup in IH.
      destruct (decide (entries !! t = Some id)); [congruence | exact IH].
Qed.

(** What [recordInteraction] leaves of the filter: the places hold the
    objects they held, and the objects have gone through the loop, once
    per counted category. *)
Lemma recordInteraction_objects (change : Summarization.Summary) (i : Interaction)
      (now : Z) (this : Objects.Filter) :
  let later := Objects.recordInteraction change i now this in
  Objects.globalEntries later = Objects.globalEntries this /\
  Objects.siteEntries later = Objects.siteEntries this /\
  Objects.enableLearning later = Objects.enableLearning this /\
  exists counters,
    NoDup (map fst counters) /\
    Forall (fun e => balanced (snd e)) counters /\
    Objects.objects later
    = fold_left (Objects.adjustType (Objects.globalEntries this)) counters
                (Objects.objects this).
Proof.
  unfold Objects.recordInteraction.
  destruct (Objects.enableLearning this) eqn:E; simpl.
  - unfold Objects._updatePreferencesFromInteractions.
    match goal with
    | |- context [if ?b then _ else _] => destruct b
    end; simpl.
    + repeat split; auto. exists []. repeat split; constructor.
    + repeat split; auto. eexists. split; [| split; [| reflexivity]];
        apply (count_invariant _ []); split; constructor.
  - repeat split; auto. exists []. repeat split; constructor.
Qed.

Lemma reading_steady (held : option nat) (objects objects' : gmap nat TypePrefs) :
  (forall id, steadyEntry (objects !! id) (objects' !! id)) ->
  steadyEntry (held ≫= fun id => objects !! id) (held ≫= fun id => objects' !! id).
Proof. intros H. destruct held; simpl; [apply H | exact I]. Qed.

Lemma reading_oneStep (held : option nat) (objects objects' : gmap nat TypePrefs) :
  (forall id, oneStep (objects !! id) (objects' !! id)) ->
  oneStep (held ≫= fun id => objects !! id) (held ≫= fun id => objects' !! id).
Proof. intros H. destruct held; simpl; [apply H | exact I]. Qed.

(** X2.  Recording an interaction never creates or removes an entry, never
    changes an [enabled] flag, and keeps every [minPriority] that lies
    within 1..10 within 1..10: this holds of every entry object, and so of
    every category of the global preferences and of every entry of every
    site, also where one object is held in several places.  The places go
    on holding the objects they held. *)
Theorem recordInteraction_keeps_preferences_sane
        (change : Summarization.Summary) (i : Interaction) (now : Z)
        (this : Objects.Filter) :
  let later := Objects.recordInteraction change i now this in
  Objects.globalEntries later = Objects.globalEntries this /\
  Objects.siteEntries later = Objects.siteEntries this /\
  (forall id, steadyEntry (Objects.objects this !! id) (Objects.objects later !! id)) /\
  (forall category,
     steadyEntry (Objects.globalEntry this category) (Objects.globalEntry later category)) /\
  (forall domain category,
     steadyEntry (Objects.siteEntry this domain category)
                 (Objects.siteEntry later domain category)).
Proof.
  intros later.
  destruct (recordInteraction_objects change i now this)
    as (Hglobal & Hsites & _ & counters & _ & _ & Hobjects).
  fold later in Hglobal, Hsites, Hobjects.
  assert (Hsteady : forall id,
             steadyEntry (Objects.objects this !! id) (Objects.objects later !! id)).
  { intros id. rewrite Hobjects. apply learning_objects_steady. }
  split; [exact Hglobal |]. split; [exact Hsites |]. split; [exact Hsteady |].
  split.
  - intros category. unfold Objects.globalEntry. rewrite Hglobal.
    now apply reading_steady.
  - intros domain category. unfold Objects.siteEntry. rewrite Hsites.
    destruct (Objects.siteEntries this !! domain) as [held|]; simpl; [| exact I].
    now apply reading_steady.
Qed.

(** X4.  When no entry object is held under two categories of the global
    preferences, one recorded interaction moves the [minPriority] of an
    entry by one step at most: afterwards it is what it was, or one higher
    (capped at 10), or one lower (floored at 1).  This holds of every entry
    object, and so of every global category and of every entry of every
    site, which moves with the global category whose object it holds.  The
    raise and the lowering never both apply in one pass, since a dismiss
    rate above 0.7 leaves no room for a click rate above 0.3. *)
Theorem recordInteraction_moves_one_step
        (change : Summarization.Summary) (i : Interaction) (now : Z)
        (this : Objects.Filter) :
  Objects.distinctGlobalEntries (Objects.globalEntries this) ->
  let later := Objects.recordInteraction change i now this in
  (forall id, oneStep (Objects.objects this !! id) (Objects.objects later !! id)) /\
  (forall category,
     oneStep (Objects.globalEntry this category) (Objects.globalEntry later category)) /\
  (forall domain category,
     oneStep (Objects.siteEntry this domain category)
             (Objects.siteEntry later domain category)).
Proof.
  intros Hdistinct later.
  destruct (recordInteraction_objects change i now this)
    as (Hglobal & Hsites & _ & counters & Hnd & Hall & Hobjects).
  fold later in Hglobal, Hsites, Hobjects.
  assert (Hstep : forall id,
             oneStep (Objects.objects this !! id) (Objects.objects later !! id)).
  { intros id. rewrite Hobjects. now apply learning_objects_oneStep. }
  split; [exact Hstep |]. split.
  - intros category. unfold Objects.globalEntry. rewrite Hglobal.
    now apply reading_oneStep.
  - intros domain category. unfold Objects.siteEntry. rewrite Hsites.
    destruct (Objects.siteEntries this !! domain) as [held|]; simpl; [| exact I].
    now apply reading_oneStep.
Qed.

Lemma recordInteraction_moves_one_step_witness :
  let later := Objects.recordInteraction chatMessage dismissed 0 Objects.siteSharesChat in
  oneStep (Objects.globalEntry Objects.siteSharesChat "chat")
          (Objects.globalEntry later "chat") /\
  oneStep (Objects.siteEntry Objects.siteSharesChat "example.com" "chat")
          (Objects.siteEntry later "example.com" "chat").
Proof.
  destruct (recordInteraction_moves_one_step chatMessage dismissed 0 Objects.siteSharesChat)
    as (_ & Hglobal & Hsite).
  - intros category category' id H H'. simpl in H, H'.
    apply lookup_insert_Some in H as [[<- <-] | [_ H]];
      apply lookup_insert_Some in H' as [[<- Heq] | [_ H']];
      try reflexivity;
      repeat match goal with
             | Hs : {[ _ := _ ]} !! _ = Some _ |- _ =>
                 apply lookup_singleton_Some in Hs as [<- ?]
             end; congruence.
  - split; [apply Hglobal | apply Hsite].
Defined.

(** An entry that a site shares with the global preferences moves with
    them: two more dismissed chat notifications take the global [chat]
    entry from 4 to 6, and the site's with it. *)
Example shared_site_entry_moves_with_global :
  let later :=
    Objects.recordInteraction chatMessage dismissed 0
      (Objects.recordInteraction chatMessage dismissed 0 Objects.siteSharesChat) in
  Objects.globalEntry later "chat" = Some {| enabled := true; minPriority := 6 |} /\
  Objects.siteEntry later "example.com" "chat"
  = Some {| enabled := true; minPriority := 6 |}.
Proof. split; vm_compute; reflexivity. Qed.

(** One object under two categories goes through the loop once for each:
    the tenth recording raises it twice. *)
Example one_object_under_two_categories_moves_twice :
  let later :=
    Objects.recordInteraction (textSummary "Plain words" 5 1) dismissed 0
                              Objects.oneObjectTwice in
  Objects.globalEntry Objects.oneObjectTwice "chat"
  = Some {| enabled := true; minPriority := 4 |} /\
  Objects.globalEntry later "chat" = Some {| enabled := true; minPriority := 6 |}.
Proof. split; vm_compute; reflexivity. Qed.

(** *** Entry values and entry objects *)

Lemma adjustType_on_values (entries : gmap string nat) (objects : gmap nat TypePrefs)
      (entry : string * Counts) :
  Objects.distinctGlobalEntries entries ->
  Objects.globalValues entries (Objects.adjustType entries objects entry)
  = adjustType (Objects.globalValues entries objects) entry.
Proof.
  intros Hdistinct. destruct entry as [t c]. apply map_eq. intros k.
  unfold Objects.globalValues. rewrite adjustType_lookup, !lookup_omap.
  destruct (entries !! k) as [id|] eqn:Ek; cbn [mbind option_bind].
  - rewrite adjustObjects_lookup.
    destruct (decide (entries !! t = Some id)) as [Heq | Hne],
             (decide (t = k)) as [-> | Hne']; try reflexivity.
    + exfalso. apply Hne'. exact (Hdistinct t k id Heq Ek).
    + congruence.
  - destruct (decide (t = k)); [| reflexivity].
    destruct (total c <? 3)%nat; [reflexivity |]. cbv zeta.
    now destruct (JS.Qgtb _ (7 # 10)), (JS.Qgtb _ (3 # 10)).
Qed.

Lemma learning_on_values (counters : list (string * Counts))
      (entries : gmap string nat) (objects : gmap nat TypePrefs) :
  Objects.distinctGlobalEntries entries ->
  Objects.globalValues entries (fold_left (Objects.adjustType entries) counters objects)
  = fold_left adjustType counters (Objects.globalValues entries objects).
Proof.
  intros Hdistinct. revert objects.
  induction counters as [|e rest IH]; intros objects; [reflexivity |].
  simpl. now rewrite IH, adjustType_on_values.
Qed.

(** The filter on entry values is the filter on entry objects where no
    object is held under two categories: when the two have the same
    switch and the same history, and the global categories of the one read
    as the values of the other, they still do after [recordInteraction]. *)
Lemma recordInteraction_on_values
      (change : Summarization.Summary) (i : Interaction) (now : Z)
      (values : Filter) (this : Objects.Filter) :
  Objects.distinctGlobalEntries (Objects.globalEntries this) ->
  enableLearning (options values) = Objects.enableLearning this ->
  interactionHistory values = Objects.interactionHistory this ->
  contentTypePreferences (global (userPreferences values))
  = Objects.globalValues (Objects.globalEntries this) (Objects.objects this) ->
  let values' := after (recordInteraction change i now) values in
  let this' := Objects.recordInteraction change i now this in
  interactionHistory values' = Objects.interactionHistory this' /\
  contentTypePreferences (global (userPreferences values'))
  = Objects.globalValues (Objects.globalEntries this') (Objects.objects this').
Proof.
  intros Hdistinct Hswitch Hhistory Hvalues values' this'. unfold values', this'.
  unfold Objects.recordInteraction. rewrite <- Hswitch.
  destruct (enableLearning (options values)) eqn:E; simpl.
  - rewrite FilteringProps.recordInteraction_after by assumption.
    set (pushed := set_interactionHistory _ values).
    destruct (learning_pass_shape pushed) as (counters & -> & Hnil & Hcount).
    unfold Objects._updatePreferencesFromInteractions. simpl.
    assert (Hsame : limitHistory (interactionHistory values ++ [recordOf change i now])%list
                    = (if (maxHistoryItems <?
                           List.length (Objects.interactionHistory this ++
                                          [recordOf change i now]))%nat
                       then tail (Objects.interactionHistory this ++ [recordOf change i now])
                       else (Objects.interactionHistory this ++ [recordOf change i now]))%list)
      by (unfold limitHistory; now rewrite Hhistory).
    unfold recordOf in Hsame at 2 3 4. rewrite <- Hsame.
    change (interactionHistory pushed)
      with (limitHistory (interactionHistory values ++ [recordOf change i now])%list)
      in Hnil, Hcount.
    destruct (List.length (limitHistory _) <? 10)%nat eqn:El; simpl.
    + apply Nat.ltb_lt in El. rewrite (Hnil El). simpl. auto.
    + apply Nat.ltb_ge in El. rewrite (Hcount El). simpl. split; [reflexivity |].
      rewrite learning_on_values by exact Hdistinct. now rewrite Hvalues.
  - unfold after. rewrite recordInteraction_disabled by assumption. simpl. auto.
Qed.

(** An entry of a site whose object no global category holds stays as it
    was. *)
Lemma unshared_site_entry_stays
      (change : Summarization.Summary) (i : Interaction) (now : Z)
      (this : Objects.Filter) (domain category : string)
      (held : gmap string nat) (id : nat) :
  Objects.siteEntries this !! domain = Some held ->
  held !! category = Some id ->
  (forall category', Objects.globalEntries this !! category' <> Some id) ->
  Objects.siteEntry (Objects.recordInteraction change i now this) domain category
  = Objects.siteEntry this domain category.
Proof.
  intros Hdomain Hheld Happart.
  destruct (recordInteraction_objects change i now this)
    as (_ & Hsites & _ & counters & _ & _ & Hobjects).
  unfold Objects.siteEntry. rewrite Hsites, Hdomain. simpl. rewrite Hheld. simpl.
  rewrite Hobjects. apply learning_objects_untouched. auto.
Qed.

(** *** Verdicts *)

Lemma _isDuplicate_verdict (change : Summarization.Summary) (this : Filter) :
  _isDuplicate change this = (Ok (flaggedDuplicate change this), this).
Proof.
  unfold _isDuplicate, flaggedDuplicate.
  destruct (truthy (Summarization.summary change)); reflexivity.
Qed.

Lemma _shouldFilterByRules_verdict (change : Summarization.Summary) (contentType : string)
      (preferences : GlobalPrefs) (this : Filter) :
  _shouldFilterByRules change contentType preferences this
  = (Ok (tooShort contentType change || flaggedDuplicate change this), this).
Proof.
  unfold _shouldFilterByRules. fold (tooShort contentType change).
  destruct (tooShort contentType change); [reflexivity |].
  rewrite (FilteringProps.bind_ok _ _ _ _ _ (_isDuplicate_verdict change this)).
  now destruct (flaggedDuplicate change this).
Qed.

Section VerdictsWithURL.
Variable hostname : string -> option string.

(** The decision of [_filterSingleChange], given the preferences that
    apply. *)
Lemma _filterSingleChange_table (change : Summarization.Summary) (siteUrl : string)
      (this : Filter) (p : GlobalPrefs) :
  _getApplicablePreferences hostname siteUrl this = (Ok p, this) ->
  _filterSingleChange hostname change siteUrl this =
  match chosenTypePrefs p (_determineContentType change) with
  | None => (TypeError, this)
  | Some typePrefs =>
      (Ok (if negb (enabled typePrefs) then None
           else if (effectivePriority change
                    <? Z.max (minPriority typePrefs) (priorityThreshold p))%Z then None
           else if tooShort (_determineContentType change) change
                   || flaggedDuplicate change this then None
           else Some change), this)
  end.
Proof.
  intros Hp. unfold _filterSingleChange. rewrite (FilteringProps.bind_ok _ _ _ _ _ Hp).
  fold (chosenTypePrefs p (_determineContentType change)).
  destruct (chosenTypePrefs p (_determineContentType change)) as [typePrefs|];
    [| reflexivity].
  destruct (negb (enabled typePrefs)); [reflexivity |].
  fold (effectivePriority change).
  destruct (effectivePriority change <? _)%Z; [reflexivity |].
  rewrite (FilteringProps.bind_ok _ _ _ _ _
             (_shouldFilterByRules_verdict change _ p this)).
  now destruct (tooShort _ change || flaggedDuplicate change this).
Qed.

Lemma filterChanges_one (change : Summarization.Summary) (siteUrl : string) (this : Filter) :
  result (filterChanges hostname (One change) siteUrl) this =
  match result (_filterSingleChange hostname change siteUrl) this with
  | Ok r => Ok (FOne r)
  | TypeError => TypeError
  end.
Proof.
  unfold result, filterChanges, mbind, M_bind.
  destruct (_filterSingleChange hostname change siteUrl this) as [[r|] this'];
    reflexivity.
Qed.

(** The preferences that apply hold every category of the global ones. *)
Lemma applicable_keeps_global_keys (siteUrl : string) (this : Filter) (p : GlobalPrefs)
      (category : string) :
  _getApplicablePreferences hostname siteUrl this = (Ok p, this) ->
  is_Some (contentTypePreferences (global (userPreferences this)) !! category) ->
  is_Some (contentTypePreferences p !! category).
Proof.
  unfold _getApplicablePreferences. rewrite (FilteringProps.bind_ok _ _ this this this) by reflexivity.
  destruct (_ || _); [intros [= <-]; auto |].
  destruct (sites (userPreferences this) !! _) as [site|]; intros [= <-]; auto.
  simpl. intros [x Hx].
  destruct (from_option id ∅ (site_contentTypePreferences site) !! category) as [y|] eqn:E.
  - exists y. now apply lookup_union_Some_l.
  - exists x. rewrite lookup_union_r; auto.
Qed.

Lemma mapM_returns {A B} (f : A -> M B) (l : list A) (this : Filter) :
  (forall a, exists b, f a this = (Ok b, this)) ->
  exists bs, mapM f l this = (Ok bs, this) /\
             Forall2 (fun a b => f a this = (Ok b, this)) l bs.
Proof.
  intros Hf. induction l as [|a rest (bs & Hrest & Hall)].
  - exists []. split; [reflexivity | constructor].
  - destruct (Hf a) as (b & Hb). exists (b :: bs). split; [| now constructor].
    simpl. rewrite (FilteringProps.bind_ok _ _ _ _ _ Hb).
    now rewrite (FilteringProps.bind_ok _ _ _ _ _ Hrest).
Qed.

(** X5.  A filter whose global preferences hold a [text] entry never throws:
    for a single summary and for an array alike, with or without site
    overrides, [filterChanges] returns.  (The [text] entry is the fallback
    for a category without preferences; without it a category that has no
    entry makes the call throw.) *)
Theorem filterChanges_returns_with_text_entry
        (changes : Changes) (siteUrl : string) (this : Filter) :
  is_Some (contentTypePreferences (global (userPreferences this)) !! "text") ->
  exists r, result (filterChanges hostname changes siteUrl) this = Ok r.
Proof.
  intros Htext.
  destruct (FilteringProps._getApplicablePreferences_returns hostname siteUrl this)
    as (p & Hp).
  pose proof (applicable_keeps_global_keys siteUrl this p "text" Hp Htext) as [tp Htp].
  assert (Hsingle : forall change, exists r,
             _filterSingleChange hostname change siteUrl this = (Ok r, this)).
  { intros change. rewrite (_filterSingleChange_table change siteUrl this p Hp).
    unfold chosenTypePrefs.
    destruct (contentTypePreferences p !! _determineContentType change);
      [| rewrite Htp]; eauto. }
  destruct changes as [change | changes].
  - destruct (Hsingle change) as (r & Hr).
    rewrite filterChanges_one. unfold result. rewrite Hr. eauto.
  - destruct (mapM_returns (fun change => _filterSingleChange hostname change siteUrl)
                changes this Hsingle) as (bs & Hbs & _).
    unfold result, filterChanges.
    rewrite (FilteringProps.bind_ok _ _ _ _ _ Hbs). simpl. eauto.
Qed.

(** X6.  What the filter lets through: an accepted summary is handed back
    as it came, its category (or the [text] fallback) is enabled in the
    preferences that apply, its priority (5 when it has none) reaches both
    the category's [minPriority] and the priority threshold, its text is not
    a duplicate of a recent entry, and outside the [error] category its text
    is empty or at least 3 characters long. *)
Theorem accepted_summary_meets_preferences
        (change accepted : Summarization.Summary) (siteUrl : string) (this : Filter) :
  result (filterChanges hostname (One change) siteUrl) this = Ok (FOne (Some accepted)) ->
  accepted = change /\
  exists preferences typePrefs,
    result (getPreferences hostname siteUrl) this = Ok preferences /\
    chosenTypePrefs preferences (_determineContentType change) = Some typePrefs /\
    enabled typePrefs = true /\
    (minPriority typePrefs <= effectivePriority change)%Z /\
    (priorityThreshold preferences <= effectivePriority change)%Z /\
    flaggedDuplicate change this = false /\
    (_determineContentType change = "error" \/
     Summarization.summary change = "" \/
     (3 <= String.length (Summarization.summary change))%nat).
Proof.
  intros H.
  destruct (FilteringProps._getApplicablePreferences_returns hostname siteUrl this)
    as (p & Hp).
  rewrite filterChanges_one in H. unfold result in H.
  rewrite (_filterSingleChange_table change siteUrl this p Hp) in H.
  destruct (chosenTypePrefs p (_determineContentType change)) as [tp|] eqn:Etp;
    [| discriminate].
  simpl in H.
  destruct (enabled tp) eqn:Een; simpl in H; [| discriminate].
  destruct (effectivePriority change <? _)%Z eqn:Ethr; [discriminate |].
  destruct (tooShort _ change) eqn:Eshort; simpl in H; [discriminate |].
  destruct (flaggedDuplicate change this) eqn:Edup; [discriminate |].
  injection H as <-. split; [reflexivity |].
  exists p, tp. apply Z.ltb_ge in Ethr.
  unfold getPreferences, result. rewrite Hp. repeat split; auto; try lia.
  unfold tooShort in Eshort.
  destruct (String.eqb_spec (_determineContentType change) "error") as [-> | _];
    [now left | right].
  simpl in Eshort.
  destruct (Summarization.summary change) as [|c s] eqn:Es; [now left | right].
  simpl in Eshort. apply Nat.ltb_ge in Eshort. exact Eshort.
Qed.

(** X7.  Acceptance is monotone in the priority: a summary that is accepted
    is still accepted when its priority is raised to any non-zero value at
    least as high (0 stands for "no priority" and counts as 5). *)
Theorem accepted_at_higher_priority
        (change : Summarization.Summary) (p : Z) (siteUrl : string) (this : Filter) :
  result (filterChanges hostname (One change) siteUrl) this = Ok (FOne (Some change)) ->
  (effectivePriority change <= p)%Z ->
  p <> 0%Z ->
  result (filterChanges hostname (One (withPriority change p)) siteUrl) this
  = Ok (FOne (Some (withPriority change p))).
Proof.
  intros H Hle Hnz.
  destruct (FilteringProps._getApplicablePreferences_returns hostname siteUrl this)
    as (q & Hq).
  rewrite filterChanges_one in *. unfold result in *.
  rewrite (_filterSingleChange_table change siteUrl this q Hq) in H.
  rewrite (_filterSingleChange_table (withPriority change p) siteUrl this q Hq).
  change (_determineContentType (withPriority change p))
    with (_determineContentType change).
  change (tooShort (_determineContentType change) (withPriority change p))
    with (tooShort (_determineContentType change) change).
  change (flaggedDuplicate (withPriority change p) this)
    with (flaggedDuplicate change this).
  destruct (chosenTypePrefs q (_determineContentType change)) as [tp|];
    [| simpl in *; discriminate].
  simpl in *.
  destruct (negb (enabled tp)); [discriminate |].
  destruct (effectivePriority change <? _)%Z eqn:E; [discriminate |].
  apply Z.ltb_ge in E.
  assert (Hp : effectivePriority (withPriority change p) = p).
  { unfold effectivePriority. simpl. destruct (Z.eqb_spec p 0); [contradiction | reflexivity]. }
  rewrite Hp.
  destruct (p <? _)%Z eqn:E'; [apply Z.ltb_lt in E'; lia |].
  destruct (tooShort _ change || flaggedDuplicate change this); [discriminate | reflexivity].
Qed.

End VerdictsWithURL.

Lemma accepted_at_higher_priority_witness :
  result (filterChanges noURL (One (withPriority outageFirst 9)) "")
         (newFilter defaultOptions)
  = Ok (FOne (Some (withPriority outageFirst 9))).
Proof.
  apply (accepted_at_higher_priority noURL outageFirst 9 "" (newFilter defaultOptions));
    [vm_compute; reflexivity | unfold effectivePriority; simpl; lia | lia].
Defined.

Lemma accepted_summary_meets_preferences_witness :
  effectivePriority outageFirst = 5%Z /\
  (priorityThreshold (global (userPreferences (newFilter defaultOptions)))
   <= effectivePriority outageFirst)%Z.
Proof.
  destruct (accepted_summary_meets_preferences noURL outageFirst outageFirst ""
              (newFilter defaultOptions)) as (_ & p & tp & Hp & _ & _ & _ & Hthr & _).
  - vm_compute. reflexivity.
  - split; [reflexivity |]. injection Hp as <-. exact Hthr.
Defined.

Lemma filterChanges_returns_with_text_entry_witness :
  exists r, result (filterChanges noURL (Many [outageFirst; chatMessage]) "")
                   (newFilter defaultOptions) = Ok r.
Proof.
  apply (filterChanges_returns_with_text_entry noURL).
  vm_compute. eauto.
Defined.

(** Priority 0 counts as 5, so on the default filter a summary without
    priority passes where the same summary with priority 1 does not. *)
Example zero_priority_counts_as_five :
  result (filterChanges noURL (One (withPriority outageFirst 0)) "")
         (newFilter defaultOptions) = Ok (FOne (Some (withPriority outageFirst 0))) /\
  result (filterChanges noURL (One (withPriority outageFirst 1)) "")
         (newFilter defaultOptions) = Ok (FOne None).
Proof. vm_compute. split; reflexivity. Qed.

(** Without a [text] entry a category that has no entry makes the call
    throw. *)
Example filterChanges_throws_without_fallback :
  result (filterChanges noURL (One chatMessage) "")
         (after (updatePreferences noURL
                   {| site_priorityThreshold := None;
                      site_contentTypePreferences :=
                        Some {[ "error" := {| enabled := true; minPriority := 1 |} ]} |}
                   "")
                (newFilter defaultOptions))
  = TypeError.
Proof. vm_compute. reflexivity. Qed.

(** *** Arrays *)


Section ArraysWithURL.
Variable hostname : string -> option string.




End ArraysWithURL.


(** An empty array is filtered to [null]. *)
Example filterChanges_empty_array :
  result (filterChanges noURL (Many []) "") (newFilter defaultOptions) = Ok (FMany None).
Proof. reflexivity. Qed.

(** *** Similarity and duplicates *)

Lemma matchCount_bound (words1 words2 : list string) (start : nat) :
  (fold_left
     (fun matchCount word =>
        if (3 <? String.length word)%nat && JS.arr_includes words2 word
        then S matchCount else matchCount)
     words1 start <= start + List.length words1)%nat.
Proof.
  revert start. induction words1 as [|w rest IH]; intros start; simpl; [lia |].
  destruct (_ && _); [specialize (IH (S start)) | specialize (IH start)]; lia.
Qed.

(** X9.  The similarity score is a number between 0 and 1, whatever the two
    strings. *)
Theorem similarity_in_unit_interval (str1 str2 : string) :
  (0 <= _calculateSimilarity str1 str2)%Q /\ (_calculateSimilarity str1 str2 <= 1)%Q.
Proof.
  unfold _calculateSimilarity.
  destruct (String.eqb str1 str2); [split; discriminate |].
  destruct (_ || _); [split; discriminate |].
  destruct (_ || _).
  - apply ratio_range. lia.
  - apply ratio_range.
    pose proof (matchCount_bound (JS.split_ws (JS.toLowerCase str1))
                  (JS.split_ws (JS.toLowerCase str2)) 0) as Hb.
    simpl in Hb. lia.
Qed.

Lemma length_toLowerCase (s : string) :
  String.length (JS.toLowerCase s) = String.length s.
Proof. induction s as [|c s IH]; simpl; [reflexivity | now rewrite IH]. Qed.

Lemma prefix_refl (s : string) : String.prefix s s = true.
Proof.
  induction s as [|c s IH]; simpl; [reflexivity |].
  destruct (ascii_dec c c); [exact IH | congruence].
Qed.

Lemma includes_refl (s : string) : JS.includes s s = true.
Proof.
  destruct s as [|c s]; [reflexivity |].
  cbn [JS.includes]. now rewrite prefix_refl.
Qed.

(** Two non-empty strings that agree up to letter case are more than 0.8
    similar. *)
Lemma similar_up_to_case (str1 str2 : string) :
  str2 <> "" ->
  JS.toLowerCase str1 = JS.toLowerCase str2 ->
  JS.Qgtb (_calculateSimilarity str1 str2) (8 # 10) = true.
Proof.
  intros Hne Hcase. unfold _calculateSimilarity.
  destruct (String.eqb str1 str2); [reflexivity |].
  assert (Hlen : String.length str1 = String.length str2)
    by (rewrite <- (length_toLowerCase str1), Hcase; apply length_toLowerCase).
  assert (Hpos : (0 < String.length str2)%nat) by (destruct str2; simpl; [congruence | lia]).
  destruct (String.length str1 =? 0)%nat eqn:E1; [apply Nat.eqb_eq in E1; lia |].
  destruct (String.length str2 =? 0)%nat eqn:E2; [apply Nat.eqb_eq in E2; lia |].
  simpl. rewrite Hcase, includes_refl. simpl.
  rewrite Nat.max_id, Nat.min_id, length_toLowerCase.
  apply Qgtb_ratio; lia.
Qed.

Lemma duplicateAmong_exists (recentItems : list InteractionRecord) (summary : string) :
  duplicateAmong recentItems summary = true <->
  exists item,
    In item recentItems /\
    (i_summary item = summary \/
     JS.Qgtb (_calculateSimilarity (i_summary item) summary) (8 # 10) = true).
Proof.
  induction recentItems as [|item rest IH]; simpl.
  - split; [discriminate | intros (x & [] & _)].
  - destruct (String.eqb_spec (i_summary item) summary) as [Heq | Hne].
    + split; [| reflexivity]. intros _. exists item. auto.
    + destruct (JS.Qgtb _ _) eqn:Es.
      * split; [| reflexivity]. intros _. exists item. auto.
      * rewrite IH. split.
        -- intros (x & Hin & Hx). exists x. auto.
        -- intros (x & [<- | Hin] & Hx); [| exists x; auto].
           destruct Hx; congruence.
Qed.

(** X10.  [_isDuplicate] flags a summary exactly when its text is not empty
    and one of the five most recent history entries has the same text or a
    text more than 0.8 similar; it never throws and never touches the
    filter.  A summary with an empty text is never flagged, not even right
    after it has been recorded. *)
Theorem _isDuplicate_characterised (change : Summarization.Summary) (this : Filter) :
  exists flag,
    _isDuplicate change this = (Ok flag, this) /\
    (flag = true <->
     Summarization.summary change <> "" /\
     exists item,
       In item (JS.slice_last 5 (interactionHistory this)) /\
       (i_summary item = Summarization.summary change \/
        JS.Qgtb (_calculateSimilarity (i_summary item) (Summarization.summary change))
                (8 # 10) = true)).
Proof.
  exists (flaggedDuplicate change this). split; [apply _isDuplicate_verdict |].
  unfold flaggedDuplicate. rewrite andb_true_iff, duplicateAmong_exists.
  assert (Ht : truthy (Summarization.summary change) = true
               <-> Summarization.summary change <> "").
  { destruct (Summarization.summary change); simpl; split; intros H;
      first [discriminate | reflexivity | contradiction ]. }
  now rewrite Ht.
Qed.

(** An empty summary, submitted again right after it was recorded, passes
    the duplicate test and the filter. *)
Example empty_summary_is_no_duplicate :
  let blank := textSummary "" 7 1 in
  let recorded := after (recordInteraction blank viewed 2) (newFilter defaultOptions) in
  result (_isDuplicate blank) recorded = Ok false /\
  result (filterChanges noURL (One blank) "") recorded = Ok (FOne (Some blank)).
Proof. vm_compute. split; reflexivity. Qed.

(** X11.  Duplicates are recognised whatever the letter case: a summary
    whose non-empty text equals, up to letter case, the text of one of the
    five most recent history entries is flagged by [_isDuplicate] and is
    never accepted by [filterChanges]. *)
Theorem duplicate_up_to_case
        (hostname : string -> option string) (change : Summarization.Summary)
        (item : InteractionRecord) (siteUrl : string) (this : Filter) :
  In item (JS.slice_last 5 (interactionHistory this)) ->
  Summarization.summary change <> "" ->
  JS.toLowerCase (i_summary item) = JS.toLowerCase (Summarization.summary change) ->
  result (_isDuplicate change) this = Ok true /\
  (result (filterChanges hostname (One change) siteUrl) this = Ok (FOne None) \/
   result (filterChanges hostname (One change) siteUrl) this = TypeError).
Proof.
  intros Hin Hne Hcase.
  assert (Hflag : flaggedDuplicate change this = true).
  { unfold flaggedDuplicate. apply andb_true_iff. split.
    - destruct (Summarization.summary change); [congruence | reflexivity].
    - apply duplicateAmong_exists. exists item. split; [exact Hin |].
      right. now apply similar_up_to_case. }
  pose proof (_isDuplicate_verdict change this) as Hv. rewrite Hflag in Hv.
  split; [unfold result; now rewrite Hv |].
  now apply FilteringProps.duplicate_never_accepted.
Qed.

Lemma duplicate_up_to_case_witness :
  result (filterChanges noURL (One (textSummary "SERVER ERROR OCCURRED" 9 5)) "")
         (after (recordInteraction outageFirst viewed 3) (newFilter defaultOptions))
  = Ok (FOne None).
Proof.
  destruct (duplicate_up_to_case noURL (textSummary "SERVER ERROR OCCURRED" 9 5)
              (recordOf outageFirst viewed 3) ""
              (after (recordInteraction outageFirst viewed 3) (newFilter defaultOptions)))
    as (_ & [H | H]).
  - vm_compute. auto.
  - discriminate.
  - reflexivity.
  - exact H.
  - vm_compute in H. discriminate.
Defined.

(** *** Updating and storing preferences *)

Section PreferencesWithURL.
Variable hostname : string -> option string.

Lemma truthy_true (s : string) : s <> "" -> truthy s = true.
Proof. destruct s; [congruence | reflexivity]. Qed.

Lemma _getApplicablePreferences_site (siteUrl : string) (this : Filter) (site : SitePrefs) :
  siteUrl <> "" ->
  siteSpecificSettings (options this) = true ->
  sites (userPreferences this) !! _extractDomain hostname siteUrl = Some site ->
  _getApplicablePreferences hostname siteUrl this =
  (Ok {| priorityThreshold :=
           from_option id (priorityThreshold (global (userPreferences this)))
                       (site_priorityThreshold site);
         contentTypePreferences :=
           from_option id ∅ (site_contentTypePreferences site)
             ∪ contentTypePreferences (global (userPreferences this)) |}, this).
Proof.
  intros Hurl Hsite Hlookup.
  unfold _getApplicablePreferences, mbind, M_bind, gets. simpl.
  now rewrite (truthy_true _ Hurl), Hsite, Hlookup.
Qed.

(** X12.  A site-specific update is read back for that site: after
    [updatePreferences(newPreferences, siteUrl)] the preferences that
    [getPreferences(siteUrl)] returns carry the new threshold, and for every
    category the entry of [newPreferences.contentTypePreferences] where it
    names the category and the global entry where it does not.  The global
    preferences and the entries of all other sites stay as they were. *)
Theorem site_update_is_read_back
        (newPreferences : SitePrefs) (siteUrl : string) (this : Filter) :
  siteUrl <> "" ->
  siteSpecificSettings (options this) = true ->
  let later := after (updatePreferences hostname newPreferences siteUrl) this in
  exists p,
    result (getPreferences hostname siteUrl) later = Ok p /\
    (forall t, site_priorityThreshold newPreferences = Some t -> priorityThreshold p = t) /\
    (forall types category,
        site_contentTypePreferences newPreferences = Some types ->
        contentTypePreferences p !! category =
        match types !! category with
        | Some entry => Some entry
        | None => contentTypePreferences (global (userPreferences this)) !! category
        end) /\
    global (userPreferences later) = global (userPreferences this) /\
    (forall domain, domain <> _extractDomain hostname siteUrl ->
        sites (userPreferences later) !! domain = sites (userPreferences this) !! domain).
Proof.
  intros Hurl Hsite later.
  assert (Hlater : later =
    {| options := options this;
       userPreferences :=
         {| global := global (userPreferences this);
            sites := <[_extractDomain hostname siteUrl :=
                         mergeSite
                           (from_option id
                              {| site_priorityThreshold := None;
                                 site_contentTypePreferences := Some ∅ |}
                              (sites (userPreferences this)
                                 !! _extractDomain hostname siteUrl))
                           newPreferences]>
                       (sites (userPreferences this)) |};
       interactionHistory := interactionHistory this |}).
  { unfold later, after, updatePreferences. now rewrite (truthy_true _ Hurl). }
  clearbody later. subst later.
  eexists. split.
  - unfold getPreferences, result.
    erewrite _getApplicablePreferences_site;
      [reflexivity | exact Hurl | exact Hsite | simpl; apply lookup_insert_eq].
  - simpl. repeat split.
    + intros t Ht. unfold mergeSite. rewrite Ht.
      destruct (site_contentTypePreferences newPreferences); reflexivity.
    + intros types category Htypes. unfold mergeSite. rewrite Htypes. simpl.
      rewrite (idemp_L (∪) types).
      destruct (types !! category) as [entry|] eqn:E.
      * now apply lookup_union_Some_l.
      * now rewrite lookup_union_r.
    + intros domain Hd. now apply lookup_insert_ne.
Qed.

(** X13.  A global update that carries [contentTypePreferences] replaces the
    global categories by the ones it carries: the object spread assigns the
    new map before the key-by-key merge runs, so the merge adds nothing and
    a category the update does not name is gone afterwards.  The threshold
    is the new one when the update carries one, and the per-site
    preferences are untouched. *)
Theorem global_update_replaces_categories
        (newPreferences : SitePrefs) (types : gmap string TypePrefs) (this : Filter) :
  site_contentTypePreferences newPreferences = Some types ->
  let later := after (updatePreferences hostname newPreferences "") this in
  contentTypePreferences (global (userPreferences later)) = types /\
  (forall category, types !! category = None ->
     contentTypePreferences (global (userPreferences later)) !! category = None) /\
  priorityThreshold (global (userPreferences later))
    = from_option id (priorityThreshold (global (userPreferences this)))
                  (site_priorityThreshold newPreferences) /\
  sites (userPreferences later) = sites (userPreferences this).
Proof.
  intros Htypes later.
  assert (Hc : contentTypePreferences (global (userPreferences later)) = types).
  { unfold later, after, updatePreferences, mergeGlobal. simpl. rewrite Htypes. simpl.
    apply (idemp_L (∪) types). }
  repeat split.
  - exact Hc.
  - intros category Hnone. now rewrite Hc.
  - unfold later, after, updatePreferences, mergeGlobal. simpl. now rewrite Htypes.
Qed.

(** X14.  Preferences survive a round trip through storage: a filter that
    is initialised with what [getPreferencesForStorage] returned for another
    filter holds that filter's preferences, and with the same options it
    applies the same preferences to every site. *)
Theorem stored_preferences_round_trip
        (source target : Filter) (saved : UserPreferences) (siteUrl : string) :
  result getPreferencesForStorage source = Ok saved ->
  options target = options source ->
  let restored := after (initializePreferences (Some (storedOf saved))) target in
  userPreferences restored = userPreferences source /\
  result (getPreferences hostname siteUrl) restored
    = result (getPreferences hostname siteUrl) source.
Proof.
  intros [= <-] Hopt restored.
  assert (Hp : userPreferences restored = userPreferences source).
  { unfold restored. simpl. now destruct (userPreferences source). }
  split; [exact Hp |].
  unfold getPreferences, result, _getApplicablePreferences.
  rewrite (FilteringProps.bind_ok _ _ restored restored restored) by reflexivity.
  rewrite (FilteringProps.bind_ok _ _ source source source) by reflexivity.
  assert (Ho : options restored = options source) by (unfold restored; simpl; exact Hopt).
  rewrite Hp, Ho.
  destruct (_ || _); [reflexivity |].
  destruct (sites (userPreferences source) !! _); reflexivity.
Qed.

End PreferencesWithURL.

Lemma site_update_is_read_back_witness :
  exists p,
    result (getPreferences noURL "shop.example")
           (after (updatePreferences noURL
                     {| site_priorityThreshold := Some 2%Z;
                        site_contentTypePreferences :=
                          Some {[ "advertisement" :=
                                    {| enabled := true; minPriority := 1 |} ]} |}
                     "shop.example")
                  (newFilter defaultOptions)) = Ok p /\
    priorityThreshold p = 2%Z.
Proof.
  destruct (site_update_is_read_back noURL
              {| site_priorityThreshold := Some 2%Z;
                 site_contentTypePreferences :=
                   Some {[ "advertisement" := {| enabled := true; minPriority := 1 |} ]} |}
              "shop.example" (newFilter defaultOptions))
    as (p & Hp & Ht & _); [discriminate | reflexivity |].
  exists p. split; [exact Hp | now apply Ht].
Defined.

Lemma global_update_replaces_categories_witness :
  contentTypePreferences
    (global (userPreferences
       (after (updatePreferences noURL
                 {| site_priorityThreshold := None;
                    site_contentTypePreferences :=
                      Some {[ "chat" := {| enabled := false; minPriority := 9 |} ]} |} "")
              (newFilter defaultOptions)))) !! "text" = None.
Proof.
  destruct (global_update_replaces_categories noURL
              {| site_priorityThreshold := None;
                 site_contentTypePreferences :=
                   Some {[ "chat" := {| enabled := false; minPriority := 9 |} ]} |}
              {[ "chat" := {| enabled := false; minPriority := 9 |} ]}
              (newFilter defaultOptions) eq_refl) as (_ & H & _).
  apply H. reflexivity.
Defined.

Lemma stored_preferences_round_trip_witness :
  userPreferences
    (after (initializePreferences
              (Some (storedOf (userPreferences
                 (after (recordEach chatMessage dismissalsThenViews 0)
                        (newFilter defaultOptions))))))
           (newFilter defaultOptions))
  = userPreferences (after (recordEach chatMessage dismissalsThenViews 0)
                           (newFilter defaultOptions)).
Proof.
  destruct (stored_preferences_round_trip noURL
              (after (recordEach chatMessage dismissalsThenViews 0)
                     (newFilter defaultOptions))
              (newFilter defaultOptions)
              (userPreferences (after (recordEach chatMessage dismissalsThenViews 0)
                                      (newFilter defaultOptions)))
              "") as [H _]; [reflexivity | | exact H].
  rewrite !FilteringProps.learning_options || reflexivity.
Defined.

End FilteringExtra.

(** ** Alert Dispatcher: draining, capacity, immediate mode *)

Module AlertsExtra.
Import Alerts.

Lemma run_cons (e : Event) (events : list Event) (this : AlertSystem) :
  run (e :: events) this = run events (step this e).
Proof. reflexivity. Qed.

(** With the loop in flight, one render completion per pending alert and one
    more empty the queue and end the loop. *)
Lemma drain_all (this : AlertSystem) :
  isProcessing this = true ->
  run (repeat RenderDone (S (List.length (alertQueue this)))) this =
  {| options := options this;
     alertQueue := [];
     isProcessing := false;
     shown := (shown this ++ alertQueue this)%list |}.
Proof.
  destruct this as [o queue processing sh]. cbn [isProcessing alertQueue options shown].
  intros ->.
  revert sh. induction queue as [|a rest IH]; intros sh.
  - simpl. now rewrite app_nil_r.
  - cbn [List.length repeat]. rewrite run_cons.
    cbn [step renderDone drain isProcessing alertQueue options shown].
    rewrite IH. now rewrite <- app_assoc.
Qed.

(** X15.  No alert stays in the queue: in any state the dispatcher can
    reach with queueing enabled, as many render completions as there are
    pending alerts, plus one, leave the queue empty and the loop stopped,
    and the pending alerts have been rendered in queue order after the ones
    rendered before. *)
Theorem queue_drains_completely (o : Options) (events : list Event) :
  queueAlerts o = true ->
  (0 <= maxQueueSize o)%Z ->
  let this := run events (newAlertSystem o) in
  let final := run (repeat RenderDone (S (List.length (alertQueue this)))) this in
  alertQueue final = [] /\
  isProcessing final = false /\
  shown final = (shown this ++ alertQueue this)%list.
Proof.
  intros Hq Hmax this final.
  destruct (AlertsProps.run_invariant o events Hq Hmax) as [[_ Hidle] _].
  fold this in Hidle. unfold final.
  destruct (isProcessing this) eqn:Hp.
  - rewrite drain_all by assumption. simpl. auto.
  - rewrite (Hidle eq_refl). simpl. unfold renderDone. rewrite Hp.
    rewrite Hp, (Hidle eq_refl), app_nil_r. auto.
Qed.

Lemma queue_drains_completely_witness :
  shown (run (repeat RenderDone 11) (run burst (newAlertSystem defaultOptions)))
  = map sampleAlert [1; 3; 4; 5; 6; 7; 8; 9; 10; 11; 12]%Z.
Proof.
  destruct (queue_drains_completely defaultOptions burst) as (_ & _ & H);
    [reflexivity | simpl; lia |].
  exact H.
Defined.

(** X16.  Nothing is lost below capacity: with queueing enabled, as long as
    no more alerts have been submitted than the queue can hold, the alerts
    rendered so far followed by the pending ones are exactly the submitted
    alerts, in submission order. *)
Theorem no_alert_lost_within_capacity (o : Options) (events : list Event) :
  queueAlerts o = true ->
  (Z.of_nat (List.length (submitted events)) <= maxQueueSize o)%Z ->
  let this := run events (newAlertSystem o) in
  (shown this ++ alertQueue this)%list = submitted events.
Proof.
  intros Hq. induction events as [|e rest IH] using rev_ind; intros Hcap this.
  - reflexivity.
  - unfold this. rewrite AlertsProps.run_snoc.
    rewrite AlertsProps.submitted_app, length_app in *.
    assert (Hmax : (0 <= maxQueueSize o)%Z) by lia.
    specialize (IH ltac:(lia)). cbv zeta in IH.
    destruct (AlertsProps.run_invariant o rest Hq Hmax) as [[_ Hidle] _].
    set (before := run rest (newAlertSystem o)) in *.
    assert (Hopt : options before = o) by apply AlertsProps.options_run.
    destruct e as [a|]; simpl.
    + rewrite AlertsProps.showAlert_queueing by (now rewrite Hopt). cbv zeta.
      assert (Hlim : limited a before = (alertQueue before ++ [a])%list).
      { unfold limited. rewrite Hopt.
        destruct (maxQueueSize o <? _)%Z eqn:E; [| reflexivity].
        apply Z.ltb_lt in E. rewrite length_app in E. simpl in *.
        apply (f_equal (@List.length AlertData)) in IH. rewrite length_app in IH. lia. }
      rewrite Hlim.
      destruct (negb (isProcessing before)); simpl.
      * unfold _processAlertQueue. rewrite AlertsProps.drain_order. simpl.
        now rewrite app_assoc, IH.
      * now rewrite app_assoc, IH.
    + rewrite app_nil_r. unfold renderDone.
      destruct (isProcessing before); [now rewrite AlertsProps.drain_order | exact IH].
Qed.

Lemma no_alert_lost_within_capacity_witness :
  let events := [ShowAlert (sampleAlert 1); ShowAlert (sampleAlert 2); RenderDone;
                 ShowAlert (sampleAlert 3)] in
  let this := run events (newAlertSystem defaultOptions) in
  (shown this ++ alertQueue this)%list = map sampleAlert [1; 2; 3]%Z.
Proof.
  intros events this.
  apply (no_alert_lost_within_capacity defaultOptions events); [reflexivity | simpl; lia].
Defined.

(** X17.  With queueing disabled every alert goes to rendering at once, in
    submission order, and nothing is ever queued. *)
Theorem immediate_mode_renders_everything (o : Options) (events : list Event) :
  queueAlerts o = false ->
  let this := run events (newAlertSystem o) in
  shown this = submitted events /\ alertQueue this = [] /\ isProcessing this = false.
Proof.
  intros Hq. induction events as [|e rest IH] using rev_ind; intros this.
  - repeat split.
  - unfold this. rewrite AlertsProps.run_snoc, AlertsProps.submitted_app.
    cbv zeta in IH. destruct IH as (Hs & Hqueue & Hp).
    set (before := run rest (newAlertSystem o)) in *.
    assert (Hopt : options before = o) by apply AlertsProps.options_run.
    destruct e as [a|]; simpl.
    + unfold showAlert. rewrite Hopt, Hq. simpl. now rewrite Hs.
    + unfold renderDone. rewrite Hp, app_nil_r. auto.
Qed.

Lemma immediate_mode_renders_everything_witness :
  shown (run burst (newAlertSystem {| queueAlerts := false; maxQueueSize := 10 |}))
  = submitted burst.
Proof.
  destruct (immediate_mode_renders_everything
              {| queueAlerts := false; maxQueueSize := 10 |} burst) as [H _];
    [reflexivity | exact H].
Defined.

End AlertsExtra.

(** ** Grouping with a map in insertion order *)

Module GroupingFacts.

Section Grouping.
Context {K A : Type}.
Variable eqb : K -> K -> bool.
Variable key : A -> K.
Hypothesis eqb_eq : forall a b, eqb a b = true <-> a = b.

#[local] Set Default Proof Using "All".

Lemma push_group_perm (k : K) (x : A) (m : list (K * list A)) :
  Permutation (concat (map snd (JS.push_group eqb k x m)))
              (concat (map snd m) ++ [x])%list.
Proof.
  induction m as [|[k' g] rest IH]; simpl; [reflexivity |].
  destruct (eqb k k'); simpl.
  - rewrite <- !app_assoc. apply Permutation_app_head. apply Permutation_app_comm.
  - rewrite IH. now rewrite app_assoc.
Qed.

Lemma push_group_wellGrouped (x : A) (m : list (K * list A)) :
  Forall (JS.wellGrouped key) m ->
  Forall (JS.wellGrouped key) (JS.push_group eqb (key x) x m).
Proof.
  induction m as [|[k' g] rest IH]; simpl; intros Hall.
  - constructor; [| constructor]. split; simpl; [discriminate | repeat constructor].
  - apply Forall_cons_iff in Hall as [[Hne Hkeys] Hrest]. simpl in *.
    destruct (eqb (key x) k') eqn:E.
    + apply eqb_eq in E. constructor; [| exact Hrest]. split; simpl.
      * destruct g; discriminate.
      * apply Forall_app. split; [exact Hkeys | repeat constructor; exact E].
    + constructor; [split; assumption | now apply IH].
Qed.

Lemma push_group_keys (k : K) (x : A) (m : list (K * list A)) :
  map fst (JS.push_group eqb k x m) =
  if existsb (eqb k) (map fst m) then map fst m else (map fst m ++ [k])%list.
Proof.
  induction m as [|[k' g] rest IH]; simpl; [reflexivity |].
  destruct (eqb k k'); simpl; [reflexivity |].
  rewrite IH. now destruct (existsb (eqb k) (map fst rest)).
Qed.

Lemma push_group_NoDup (k : K) (x : A) (m : list (K * list A)) :
  NoDup (map fst m) -> NoDup (map fst (JS.push_group eqb k x m)).
Proof.
  intros Hnd. rewrite push_group_keys.
  destruct (existsb (eqb k) (map fst m)) eqn:E; [exact Hnd |].
  apply NoDup_app. repeat split; [exact Hnd | | apply NoDup_singleton].
  intros k' Hk' Hin. apply list_elem_of_In in Hk'. apply list_elem_of_In in Hin.
  destruct Hin as [<- | []].
  assert (existsb (eqb k) (map fst m) = true); [| congruence].
  apply existsb_exists. exists k. split; [exact Hk' | now apply eqb_eq].
Qed.

Lemma push_group_length (k : K) (x : A) (m : list (K * list A)) :
  (List.length (JS.push_group eqb k x m) <= S (List.length m))%nat.
Proof.
  induction m as [|[k' g] rest IH]; simpl; [lia |].
  destruct (eqb k k'); simpl; lia.
Qed.

Lemma fold_push_facts (l : list A) (m : list (K * list A)) :
  let m' := fold_left (fun m x => JS.push_group eqb (key x) x m) l m in
  (Forall (JS.wellGrouped key) m -> Forall (JS.wellGrouped key) m') /\
  (NoDup (map fst m) -> NoDup (map fst m')) /\
  Permutation (concat (map snd m')) (concat (map snd m) ++ l)%list /\
  (List.length m' <= List.length m + List.length l)%nat.
Proof.
  revert m. induction l as [|x rest IH]; intros m; simpl.
  - repeat split; auto; [now rewrite app_nil_r | lia].
  - destruct (IH (JS.push_group eqb (key x) x m)) as (Hw & Hn & Hp & Hl).
    repeat split.
    + intros H. apply Hw. now apply push_group_wellGrouped.
    + intros H. apply Hn. now apply push_group_NoDup.
    + rewrite Hp, push_group_perm. now rewrite <- app_assoc.
    + pose proof (push_group_length (key x) x m). lia.
Qed.

Lemma push_group_sublist (k : K) (x : A) (l : list A) (m : list (K * list A)) :
  Forall (fun e => snd e `sublist_of` l) m ->
  Forall (fun e => snd e `sublist_of` (l ++ [x])%list) (JS.push_group eqb k x m).
Proof.
  induction m as [|[k' g] rest IH]; simpl; intros Hall.
  - constructor; [| constructor]. simpl. apply sublist_inserts_l. reflexivity.
  - apply Forall_cons_iff in Hall as [Hg Hrest]. simpl in Hg.
    assert (Hweak : Forall (fun e : K * list A => snd e `sublist_of` (l ++ [x])%list) rest).
    { eapply Forall_impl; [exact Hrest |]. intros e He. now apply sublist_inserts_r. }
    destruct (eqb k k'); constructor; simpl; auto.
    + now apply sublist_app.
    + now apply sublist_inserts_r.
Qed.

Lemma fold_push_sublist (l' l : list A) (m : list (K * list A)) :
  Forall (fun e => snd e `sublist_of` l) m ->
  Forall (fun e => snd e `sublist_of` (l ++ l')%list)
         (fold_left (fun m x => JS.push_group eqb (key x) x m) l' m).
Proof.
  revert l m. induction l' as [|x rest IH]; intros l m Hall; simpl.
  - now rewrite app_nil_r.
  - replace (l ++ x :: rest)%list with ((l ++ [x]) ++ rest)%list
      by now rewrite <- app_assoc.
    apply IH. now apply push_group_sublist.
Qed.

(** Every group lists its elements in the order of the list. *)
Lemma group_by_sublist (l : list A) :
  Forall (fun e => snd e `sublist_of` l) (JS.group_by eqb key l).
Proof. apply (fold_push_sublist l [] []). constructor. Qed.

(** Filing the elements of a list under their keys partitions the list:
    every group is non-empty and of one key, no key has two groups, the
    groups together hold the elements of the list, each as often as the list
    does, and there are at most as many groups as elements. *)
Lemma group_by_partition (l : list A) :
  Forall (JS.wellGrouped key) (JS.group_by eqb key l) /\
  NoDup (map fst (JS.group_by eqb key l)) /\
  Permutation (concat (map snd (JS.group_by eqb key l))) l /\
  (List.length (JS.group_by eqb key l) <= List.length l)%nat.
Proof.
  destruct (fold_push_facts l []) as (Hw & Hn & Hp & Hl).
  repeat split; [apply Hw; constructor | apply Hn; constructor | exact Hp | exact Hl].
Qed.

End Grouping.

#[local] Set Default Proof Using "Type".

End GroupingFacts.

(** ** Summarization Engine: lengths, history, live regions, batches *)

Module SummarizationExtra.
Import Summarization.

(** *** Lengths of strings *)

Lemma length_append (s t : string) :
  String.length (s ++ t) = (String.length s + String.length t)%nat.
Proof. induction s as [|c s IH]; simpl; [reflexivity | now rewrite IH]. Qed.

Lemma length_substring0 (n : nat) (s : string) :
  String.length (JS.substring0 n s) = Nat.min n (String.length s).
Proof.
  unfold JS.substring0. revert n. induction s as [|c s IH]; intros [|n]; simpl; auto.
Qed.

Lemma prefix_append (s t : string) : String.prefix s (s ++ t) = true.
Proof.
  induction s as [|c s IH]; simpl; [now destruct t |].
  destruct (ascii_dec c c); [exact IH | congruence].
Qed.

(** X18.  A summary that comes out of the simulated summarization is never
    longer than [maxSummaryLength], provided that limit is at least 3 (the
    length of the ellipsis that marks a cut). *)
Theorem simulated_summary_fits
        (o : Options) (t : string) (context : SummarizationContext)
        (changeData : ChangeData) :
  (3 <= maxSummaryLength o)%nat ->
  (String.length (_simulateAISummarization o t context changeData)
   <= maxSummaryLength o)%nat.
Proof.
  intros H3. unfold _simulateAISummarization.
  match goal with
  | |- context [if (maxSummaryLength o <? String.length ?s)%nat then _ else _] =>
      set (drafted := s)
  end.
  destruct (maxSummaryLength o <? String.length drafted)%nat eqn:E.
  - apply Nat.ltb_lt in E. rewrite length_append, length_substring0. simpl. lia.
  - apply Nat.ltb_ge in E. exact E.
Qed.

Lemma simulated_summary_fits_witness :
  (String.length
     (_simulateAISummarization
        {| maxSummaryLength := 12; minContentLength := 5;
           preserveContext := true; localProcessingOnly := false |}
        "Breaking News"
        (_buildSummarizationContext (newEngine defaultOptions) breakingNews)
        breakingNews) <= 12)%nat.
Proof.
  apply (simulated_summary_fits
           {| maxSummaryLength := 12; minContentLength := 5;
              preserveContext := true; localProcessingOnly := false |}).
  simpl. lia.
Defined.

(** The rule-based local summary is cut on the text only, so its template
    can take it past the limit. *)
Example local_summary_can_exceed_limit :
  _generateLocalSummary
    {| maxSummaryLength := 13; minContentLength := 5;
       preserveContext := true; localProcessingOnly := true |}
    breakingNews "Breaking News"
  = Some "New section: Breaking News".
Proof. reflexivity. Qed.

(** *** The rolling context history *)

Lemma _updateContextHistory_bound (this : Engine) (changeData : ChangeData)
      (s : string) (now : Z) :
  (List.length (contextHistory this) <= maxContextItems)%nat ->
  (List.length (contextHistory (_updateContextHistory this changeData s now))
   <= maxContextItems)%nat.
Proof.
  intros H. unfold _updateContextHistory. simpl. rewrite length_app. simpl.
  destruct (maxContextItems <? List.length (contextHistory this) + 1)%nat eqn:E.
  - destruct (contextHistory this) as [|x rest]; simpl in *; [unfold maxContextItems; lia |].
    rewrite length_app. simpl. lia.
  - apply Nat.ltb_ge in E. rewrite length_app. simpl. lia.
Qed.

Lemma _processSingleChange_engine (this : Engine) (changeData : ChangeData) (now : Z) :
  options (snd (_processSingleChange this changeData now)) = options this /\
  ((List.length (contextHistory this) <= maxContextItems)%nat ->
   (List.length (contextHistory (snd (_processSingleChange this changeData now)))
    <= maxContextItems)%nat).
Proof.
  unfold _processSingleChange.
  destruct (_ <? minContentLength (options this))%nat; [auto |].
  destruct (_generateSummary this changeData _); [| auto].
  destruct (preserveContext (options this)); simpl; [| auto].
  split; [reflexivity | apply _updateContextHistory_bound].
Qed.

(** X19.  The rolling context history holds at most 5 entries: whatever
    changes an engine processes, one after the other, a history of at most 5
    entries stays at most 5 entries long, and the options stay as they
    were. *)
Theorem context_history_bounded (changes : list (ChangeData * Z)) (this : Engine) :
  (List.length (contextHistory this) <= 5)%nat ->
  (List.length (contextHistory (processAll changes this)) <= 5)%nat /\
  options (processAll changes this) = options this.
Proof.
  revert this. induction changes as [|[c now] rest IH]; intros this H; [auto |].
  simpl. destruct (_processSingleChange_engine this c now) as [Ho Hb].
  destruct (IH (snd (_processSingleChange this c now)) (Hb H)) as [Hl Ho'].
  split; [exact Hl | congruence].
Qed.

Lemma context_history_bounded_witness :
  (List.length (contextHistory
     (processAll (repeat (breakingNews, 0%Z) 8) (newEngine eagerOptions))) <= 5)%nat.
Proof.
  destruct (context_history_bounded (repeat (breakingNews, 0%Z) 8)
              (newEngine eagerOptions)) as [H _]; [simpl; lia | exact H].
Defined.

(** *** Live regions *)

Lemma live_region_priority (changeData : ChangeData) (ctx : Context) (s : string) :
  context changeData = Some ctx ->
  isLiveRegion ctx = true ->
  type changeData <> removal ->
  (8 <= _determinePriority changeData s)%Z.
Proof.
  intros Hctx Hlive Hkind.
  rewrite SummarizationProps._determinePriority_sum.
  unfold clamp, scoreBesidesKeyword, keywordAdjustment, liveRegionAdjustment,
    interactiveAdjustment, formErrorAdjustment, headingAdjustment, kindAdjustment.
  rewrite Hctx, Hlive.
  destruct (isInteractive ctx), (isForm ctx && _), (String.eqb (role ctx) "heading"),
    (mentionsKeywordAsWritten s), (type changeData); try congruence; lia.
Qed.

(** X20.  The text of a live region is announced as it is: for an
    [addition], or a [text] change outside a form, on a live region, an
    engine that does not run in local mode returns the extracted text itself
    as the summary, on the direct path and on the generated path alike, as
    long as the text is within [maxSummaryLength]; and the priority of the
    summary is at least 8. *)
Theorem live_region_text_passes_through
        (this : Engine) (changeData : ChangeData) (ctx : Context) (now : Z) :
  context changeData = Some ctx ->
  isLiveRegion ctx = true ->
  type changeData = addition \/ (type changeData = text /\ isForm ctx = false) ->
  localProcessingOnly (options this) = false ->
  (String.length (_extractRelevantText changeData) <= maxSummaryLength (options this))%nat ->
  summary (fst (_processSingleChange this changeData now)) = _extractRelevantText changeData /\
  (8 <= priority (fst (_processSingleChange this changeData now)))%Z.
Proof.
  intros Hctx Hlive Hkind Hlocal Hlen.
  assert (Hnotremoval : type changeData <> removal)
    by (destruct Hkind as [-> | [-> _]]; discriminate).
  set (t := _extractRelevantText changeData) in *.
  assert (Hdirect : directSummaryText changeData t = t).
  { unfold directSummaryText. rewrite Hctx, Hlive. reflexivity. }
  assert (Hgen : _generateSummary this changeData t = Some t).
  { unfold _generateSummary. rewrite Hlocal.
    unfold _simulateAISummarization, _buildSummarizationContext. rewrite Hctx. simpl.
    destruct (maxSummaryLength (options this) * 2 <? String.length t)%nat eqn:E;
      [apply Nat.ltb_lt in E; lia |].
    destruct Hkind as [Hk | [Hk Hform]]; rewrite Hk; rewrite ?Hform, Hlive;
      (destruct (maxSummaryLength (options this) <? String.length t)%nat eqn:E';
       [apply Nat.ltb_lt in E'; lia | reflexivity]). }
  unfold _processSingleChange. fold t.
  destruct (String.length t <? minContentLength (options this))%nat.
  - simpl. rewrite Hdirect. split; [reflexivity |].
    now apply (live_region_priority changeData ctx).
  - rewrite Hgen. simpl. split; [reflexivity |].
    now apply (live_region_priority changeData ctx).
Qed.

Lemma live_region_text_passes_through_witness :
  let liveText :=
    {| type := text; content := plainContent "3 new messages"; element := 4;
       cd_timestamp := 0;
       context := Some {| role := ""; label := ""; parentContext := None;
                          isForm := false; isInteractive := false;
                          isLiveRegion := true |} |} in
  summary (fst (_processSingleChange (newEngine defaultOptions) liveText 0))
  = "3 new messages".
Proof.
  intros liveText.
  destruct (live_region_text_passes_through (newEngine defaultOptions) liveText
              {| role := ""; label := ""; parentContext := None;
                 isForm := false; isInteractive := false; isLiveRegion := true |} 0)
    as [H _];
    [reflexivity | reflexivity | right; split; reflexivity | reflexivity
    | simpl; lia | exact H].
Defined.

(** *** Batches: grouping *)

Lemma groupByTarget_fold (positions : list nat) (changes : list ChangeData)
      (m : list (nat * list ChangeData)) (assignedChanges : list nat) :
  List.length positions = List.length changes ->
  fold_left
    (fun acc entry =>
       (JS.push_group Nat.eqb (element (snd entry)) (snd entry) (fst acc),
        (snd acc ++ [fst entry])%list))
    (combine positions changes) (m, assignedChanges)
  = (fold_left (fun m x => JS.push_group Nat.eqb (element x) x m) changes m,
     (assignedChanges ++ positions)%list).
Proof.
  revert changes m assignedChanges.
  induction positions as [|i rest IH]; intros [|c changes] m a Hlen;
    try discriminate; simpl.
  - now rewrite app_nil_r.
  - rewrite IH by (simpl in Hlen; lia). now rewrite <- app_assoc.
Qed.

Lemma isAssigned_In (i : nat) (assignedChanges : list nat) :
  In i assignedChanges -> isAssigned i assignedChanges = true.
Proof.
  intros H. unfold isAssigned. apply existsb_exists. exists i.
  split; [exact H | apply Nat.eqb_refl].
Qed.

Lemma groupByContext_all_assigned (positions : list nat) (changes : list ChangeData)
      (contextGroups : list (string * list ChangeData)) (assignedChanges : list nat) :
  (forall i, In i positions -> In i assignedChanges) ->
  groupByContext (combine positions changes) contextGroups assignedChanges
  = Some (contextGroups, assignedChanges).
Proof.
  revert changes. induction positions as [|i rest IH]; intros [|c changes] Hall;
    try reflexivity.
  simpl. rewrite isAssigned_In by (apply Hall; now left).
  apply IH. intros j Hj. apply Hall. now right.
Qed.

Lemma leftoverGroups_all_assigned (positions : list nat) (changes : list ChangeData)
      (assignedChanges : list nat) :
  (forall i, In i positions -> In i assignedChanges) ->
  leftoverGroups (combine positions changes) assignedChanges = [].
Proof.
  revert changes. induction positions as [|i rest IH]; intros [|c changes] Hall;
    try reflexivity.
  unfold leftoverGroups in *. simpl.
  rewrite isAssigned_In by (apply Hall; now left). simpl.
  apply IH. intros j Hj. apply Hall. now right.
Qed.

Lemma filter_nonempty_groups {K} (key : ChangeData -> K) (m : list (K * list ChangeData)) :
  Forall (JS.wellGrouped key) m ->
  List.filter nonemptyGroup (map snd m) = map snd m.
Proof.
  induction m as [|[k g] rest IH]; intros Hall; [reflexivity |].
  apply Forall_cons_iff in Hall as [[Hne _] Hrest]. simpl in *.
  destruct g; [congruence |]. simpl. now rewrite IH.
Qed.

Lemma Nat_eqb_eq (a b : nat) : Nat.eqb a b = true <-> a = b.
Proof. apply Nat.eqb_eq. Qed.

(** The three passes amount to the first. *)
Lemma _groupRelatedChanges_by_target (changes : list ChangeData) :
  _groupRelatedChanges changes = Some (map snd (JS.group_by Nat.eqb element changes)).
Proof.
  unfold _groupRelatedChanges, numbered, groupByTarget.
  rewrite groupByTarget_fold by apply length_seq. simpl.
  rewrite groupByContext_all_assigned by auto.
  rewrite leftoverGroups_all_assigned by auto.
  destruct (GroupingFacts.group_by_partition Nat.eqb element Nat_eqb_eq changes)
    as (Hw & _).
  fold (JS.group_by Nat.eqb element changes).
  rewrite (filter_nonempty_groups element) by exact Hw.
  simpl. now rewrite !app_nil_r.
Qed.

Lemma wellGrouped_Forall2 (m : list (nat * list ChangeData)) :
  Forall (JS.wellGrouped element) m ->
  Forall2 (fun e g => g <> [] /\ Forall (fun change => element change = e) g)
          (map fst m) (map snd m).
Proof.
  induction 1 as [|[k g] rest Hg Hrest IH]; simpl; constructor;
    [exact Hg | exact IH].
Qed.

(** X21.  A batch is grouped by target element and by nothing else: for
    every array of changes [_groupRelatedChanges] returns (it never reaches
    the parent context, so it does not throw on changes without one); every
    group is non-empty and holds changes of one element, no two groups are
    of the same element, and the groups together hold exactly the changes of
    the array, each as often as the array does. *)
Theorem changes_grouped_by_element (changes : list ChangeData) :
  exists groups elements,
    _groupRelatedChanges changes = Some groups /\
    NoDup elements /\
    Forall2 (fun e g => g <> [] /\ Forall (fun change => element change = e) g)
            elements groups /\
    Permutation (concat groups) changes /\
    (List.length groups <= List.length changes)%nat.
Proof.
  destruct (GroupingFacts.group_by_partition Nat.eqb element Nat_eqb_eq changes)
    as (Hw & Hn & Hp & Hl).
  exists (map snd (JS.group_by Nat.eqb element changes)),
         (map fst (JS.group_by Nat.eqb element changes)).
  split; [apply _groupRelatedChanges_by_target |].
  split; [exact Hn |]. split; [| split; [exact Hp | now rewrite length_map]].
  now apply wellGrouped_Forall2.
Qed.

(** Three changes on two elements, none with a context. *)
Example grouping_without_contexts :
  _groupRelatedChanges
    [bareTextChange "a"; breakingNews; bareTextChange "b"]
  = Some [[bareTextChange "a"; bareTextChange "b"]; [breakingNews]].
Proof. reflexivity. Qed.

(** *** Batches: combining the groups *)

Lemma insertByPriority_perm (x : ProcessedGroup) (l : list ProcessedGroup) :
  Permutation (insertByPriority x l) (x :: l).
Proof.
  induction l as [|y rest IH]; simpl; [reflexivity |].
  destruct (priority (processed y) <=? priority (processed x))%Z; [reflexivity |].
  rewrite IH. apply perm_swap.
Qed.

Lemma sortByPriority_perm (l : list ProcessedGroup) : Permutation (sortByPriority l) l.
Proof.
  induction l as [|x rest IH]; simpl; [reflexivity |].
  rewrite insertByPriority_perm. now constructor.
Qed.

Lemma insertByPriority_descending (x : ProcessedGroup) (l : list ProcessedGroup) :
  descending l -> descending (insertByPriority x l).
Proof.
  induction l as [|y rest IH]; simpl; [auto |]. intros [Hy Hrest].
  destruct (priority (processed y) <=? priority (processed x))%Z eqn:E.
  - apply Z.leb_le in E. simpl. repeat split; auto.
    constructor; [exact E |].
    eapply Forall_impl; [exact Hy |]. simpl. intros; lia.
  - apply Z.leb_gt in E. simpl. split; [| auto].
    rewrite insertByPriority_perm. constructor; [lia | exact Hy].
Qed.

Lemma sortByPriority_descending (l : list ProcessedGroup) : descending (sortByPriority l).
Proof.
  induction l as [|x rest IH]; simpl; [exact I |].
  now apply insertByPriority_descending.
Qed.

Lemma concat_members_perm (l l' : list ProcessedGroup) :
  Permutation l l' ->
  Permutation (concat (map members l)) (concat (map members l')).
Proof.
  induction 1 as [| x l l' _ IH | x y l | l l' l'' _ IH1 _ IH2]; simpl.
  - reflexivity.
  - now rewrite IH.
  - rewrite !app_assoc. apply Permutation_app_tail, Permutation_app_comm.
  - now rewrite IH1.
Qed.

(** X22.  The groups of a batch are combined around the one of highest
    priority: for at least one group [_combineGroupResults] returns, and
    its result carries the change and the priority of a group that no other
    group exceeds in priority; its summary starts with the summary of that
    group, and is that summary when the group is the only one;
    [allChanges] holds the changes of all groups, each as often as the
    groups do. *)
Theorem combined_result_leads_with_top_priority (processedGroups : list ProcessedGroup) :
  processedGroups <> [] ->
  exists r top,
    _combineGroupResults processedGroups = Some r /\
    In top processedGroups /\
    Forall (fun g => (priority (processed g) <= priority (processed top))%Z)
           processedGroups /\
    original (main r) = original (processed top) /\
    priority (main r) = priority (processed top) /\
    String.prefix (summary (processed top)) (summary (main r)) = true /\
    (List.length processedGroups = 1%nat ->
     summary (main r) = summary (processed top)) /\
    Permutation (allChanges r) (concat (map members processedGroups)).
Proof.
  intros Hne. unfold _combineGroupResults.
  pose proof (sortByPriority_perm processedGroups) as Hperm.
  pose proof (sortByPriority_descending processedGroups) as Hdesc.
  destruct (sortByPriority processedGroups) as [|top others] eqn:Hs.
  - apply Permutation_nil in Hperm. congruence.
  - eexists. exists top. split; [reflexivity |]. simpl.
    split; [eapply Permutation_in; [exact Hperm | now left] |].
    split.
    { destruct Hdesc as [Hle _]. rewrite <- Hperm.
      constructor; [lia | exact Hle]. }
    split; [reflexivity |]. split; [reflexivity |].
    split.
    { destruct others; simpl; [apply FilteringExtra.prefix_refl |].
      apply prefix_append. }
    split.
    { intros Hlen. apply Permutation_length in Hperm. simpl in Hperm.
      destruct others; [reflexivity | simpl in Hperm; lia]. }
    apply (concat_members_perm (top :: others) processedGroups Hperm).
Qed.

Lemma combined_result_leads_with_top_priority_witness :
  exists r top,
    _combineGroupResults
      [ {| processed := fst (_processSingleChange (newEngine defaultOptions)
                                                  (bareTextChange "saved") 0);
           members := [bareTextChange "saved"] |};
        {| processed := fst (_processSingleChange (newEngine defaultOptions)
                                                  breakingNews 0);
           members := [breakingNews] |} ] = Some r /\
    original (main r) = breakingNews /\
    allChanges r = [breakingNews; bareTextChange "saved"] /\
    priority (main r) = priority (processed top).
Proof.
  destruct (combined_result_leads_with_top_priority
              [ {| processed := fst (_processSingleChange (newEngine defaultOptions)
                                                          (bareTextChange "saved") 0);
                   members := [bareTextChange "saved"] |};
                {| processed := fst (_processSingleChange (newEngine defaultOptions)
                                                          breakingNews 0);
                   members := [breakingNews] |} ])
    as (r & top & Hr & _ & _ & _ & Hp & _); [discriminate |].
  exists r, top. split; [exact Hr |].
  vm_compute in Hr. injection Hr as <-. repeat split. exact Hp.
Defined.

(** *** Batches: from the array to the result *)

Lemma _combineGroupResults_returns (processedGroups : list ProcessedGroup) :
  processedGroups <> [] ->
  exists r top others,
    sortByPriority processedGroups = top :: others /\
    _combineGroupResults processedGroups = Some r /\
    priority (main r) = priority (processed top) /\
    original (main r) = original (processed top) /\
    allChanges r = concat (map members (top :: others)).
Proof.
  intros Hne. unfold _combineGroupResults.
  pose proof (sortByPriority_perm processedGroups) as Hperm.
  destruct (sortByPriority processedGroups) as [|top others].
  - apply Permutation_nil in Hperm. congruence.
  - eexists. exists top, others. repeat split.
Qed.

Lemma _processSingleChange_priority (this : Engine) (changeData : ChangeData) (now : Z) :
  (1 <= priority (fst (_processSingleChange this changeData now)) <= 10)%Z.
Proof.
  unfold _processSingleChange.
  destruct (_ <? minContentLength (options this))%nat;
    [| destruct (_generateSummary this changeData _)]; simpl;
    rewrite SummarizationProps._determinePriority_sum;
    apply SummarizationProps.clamp_range.
Qed.

Lemma _summarizeChangeGroup_returns (this : Engine) (g : list ChangeData) (now : Z) :
  g <> [] ->
  exists p this',
    _summarizeChangeGroup this g now = Some (p, this') /\
    members p = g /\
    (1 <= priority (processed p) <= 10)%Z /\
    options this' = options this /\
    ((List.length (contextHistory this) <= maxContextItems)%nat ->
     (List.length (contextHistory this') <= maxContextItems)%nat).
Proof.
  intros Hne. destruct g as [|first [|second rest]]; [congruence | |];
    simpl; eexists; eexists; (split; [reflexivity |]); simpl;
    (split; [reflexivity |]);
    (split; [apply _processSingleChange_priority |]);
    apply _processSingleChange_engine.
Qed.

Lemma summarizeGroups_returns (groups : list (list ChangeData)) (this : Engine) (now : Z) :
  Forall (fun g => g <> []) groups ->
  exists ps this',
    summarizeGroups this groups now = Some (ps, this') /\
    map members ps = groups /\
    Forall (fun p => (1 <= priority (processed p) <= 10)%Z) ps /\
    options this' = options this /\
    ((List.length (contextHistory this) <= maxContextItems)%nat ->
     (List.length (contextHistory this') <= maxContextItems)%nat).
Proof.
  revert this. induction groups as [|g rest IH]; intros this Hall.
  - exists [], this. repeat split; auto.
  - apply Forall_cons_iff in Hall as [Hg Hrest].
    destruct (_summarizeChangeGroup_returns this g now Hg)
      as (p & this1 & Hp & Hm & Hr & Ho & Hb).
    destruct (IH this1 Hrest) as (ps & this2 & Hps & Hms & Hrs & Hos & Hbs).
    exists (p :: ps), this2. simpl. rewrite Hp, Hps.
    split; [reflexivity |]. split; [now rewrite Hm, Hms |].
    split; [now constructor |]. split; [congruence | auto].
Qed.

Lemma groups_nonempty (changes : list ChangeData) :
  Forall (fun g => g <> [])
         (map snd (JS.group_by Nat.eqb element changes)).
Proof.
  destruct (GroupingFacts.group_by_partition Nat.eqb element Nat_eqb_eq changes)
    as (Hw & _).
  induction Hw as [|[k g] rest [Hg _] _ IH]; simpl; constructor; auto.
Qed.

(** X23.  A batch rejects on the empty array and on no other: for an array
    of at least one change, with or without contexts,
    [_processBatchChanges] returns a result; for the empty array it fails
    (on the missing first group). *)
Theorem batch_fails_exactly_on_empty_array
        (this : Engine) (changes : list ChangeData) (now : Z) :
  _processBatchChanges this changes now = None <-> changes = [].
Proof.
  split.
  - intros Hnone. destruct changes as [|c rest]; [reflexivity | exfalso].
    unfold _processBatchChanges in Hnone.
    rewrite _groupRelatedChanges_by_target in Hnone.
    destruct (summarizeGroups_returns _ this now (groups_nonempty (c :: rest)))
      as (ps & this' & Hps & Hm & _).
    rewrite Hps in Hnone.
    assert (Hne : ps <> []).
    { intros ->. simpl in Hm.
      destruct (GroupingFacts.group_by_partition Nat.eqb element Nat_eqb_eq (c :: rest))
        as (_ & _ & Hperm & _).
      rewrite <- Hm in Hperm. simpl in Hperm.
      apply Permutation_nil in Hperm. discriminate. }
    destruct (_combineGroupResults_returns ps Hne) as (r & ? & ? & _ & Hr & _).
    now rewrite Hr in Hnone.
  - intros ->. reflexivity.
Qed.

(** X24.  A batch accounts for every change: for an array of at least one
    change the result's [allChanges] holds exactly the changes of the
    array, each as often as the array does; the priority of the result is
    between 1 and 10; and the engine keeps its options and a context
    history of at most 5 entries. *)
Theorem batch_accounts_for_every_change
        (this : Engine) (changes : list ChangeData) (now : Z) :
  changes <> [] ->
  exists r this',
    _processBatchChanges this changes now = Some (r, this') /\
    Permutation (allChanges r) changes /\
    (1 <= priority (main r) <= 10)%Z /\
    options this' = options this /\
    ((List.length (contextHistory this) <= 5)%nat ->
     (List.length (contextHistory this') <= 5)%nat).
Proof.
  intros Hne. unfold _processBatchChanges.
  rewrite _groupRelatedChanges_by_target.
  destruct (GroupingFacts.group_by_partition Nat.eqb element Nat_eqb_eq changes)
    as (_ & _ & Hperm & _).
  destruct (summarizeGroups_returns _ this now (groups_nonempty changes))
    as (ps & this' & Hps & Hm & Hrange & Ho & Hb).
  rewrite Hps. rewrite <- Hm in Hperm.
  assert (Hps_ne : ps <> []).
  { intros ->. simpl in Hperm. apply Permutation_nil in Hperm. congruence. }
  destruct (_combineGroupResults_returns ps Hps_ne)
    as (r & top & others & Hsort & Hr & Hprio & _ & Hall).
  rewrite Hr. exists r, this'. split; [reflexivity |].
  pose proof (sortByPriority_perm ps) as Hsorted. rewrite Hsort in Hsorted.
  split.
  { rewrite Hall, <- Hperm. now apply concat_members_perm. }
  split.
  { rewrite Hprio. rewrite <- Hsorted in Hrange.
    apply Forall_cons_iff in Hrange as [Htop _]. exact Htop. }
  split; [exact Ho | exact Hb].
Qed.

Lemma batch_accounts_for_every_change_witness :
  exists r this',
    _processBatchChanges (newEngine eagerOptions)
      [bareTextChange "first line of text"; breakingNews;
       bareTextChange "second line of text"] 0 = Some (r, this') /\
    Permutation (allChanges r)
      [bareTextChange "first line of text"; breakingNews;
       bareTextChange "second line of text"] /\
    (1 <= priority (main r) <= 10)%Z.
Proof.
  destruct (batch_accounts_for_every_change (newEngine eagerOptions)
              [bareTextChange "first line of text"; breakingNews;
               bareTextChange "second line of text"] 0)
    as (r & this' & Hr & Hp & Hrange & _); [discriminate |].
  exists r, this'. auto.
Defined.

(** X25.  An array of one change is summarized as the change alone is: the
    batch returns the summary, the priority and the engine that
    [_processSingleChange] gives for the change, and [allChanges] is the
    change. *)
Theorem batch_of_one_is_single (this : Engine) (change : ChangeData) (now : Z) :
  _processBatchChanges this [change] now
  = Some ({| main := fst (_processSingleChange this change now);
             allChanges := [change] |},
          snd (_processSingleChange this change now)).
Proof.
  unfold _processBatchChanges. rewrite _groupRelatedChanges_by_target. simpl.
  destruct (_processSingleChange this change now) as [[o s p t d] this'].
  reflexivity.
Qed.

End SummarizationExtra.

(** ** Content Detection: grouping, throttling, significance *)

Module DetectionExtra.
Import Detection.

(** *** Grouping by target *)

Lemma Nat_eqb_spec (a b : nat) : Nat.eqb a b = true <-> a = b.
Proof. apply Nat.eqb_eq. Qed.

Lemma groups_Forall2 (mutations : list MutationRecord)
      (m : list (nat * list MutationRecord)) :
  Forall (JS.wellGrouped target) m ->
  Forall (fun e => snd e `sublist_of` mutations) m ->
  Forall2 (fun t g => g <> [] /\ Forall (fun r => target r = t) g /\
                      g `sublist_of` mutations)
          (map fst m) (map snd m).
Proof.
  induction 1 as [|[k g] rest [Hne Hk] _ IH]; intros Hsub; simpl; constructor.
  - apply Forall_cons_iff in Hsub as [Hg _]. auto.
  - apply Forall_cons_iff in Hsub as [_ Hrest]. auto.
Qed.

(** X26.  Mutation records are grouped by their target node: no group is
    empty, every group holds records of one target in the order in which
    they were delivered, no two groups are of the same target, and the
    groups together hold exactly the delivered records, each as often as
    it was delivered. *)
Theorem mutations_grouped_by_target (mutations : list MutationRecord) :
  exists targets,
    NoDup targets /\
    Forall2 (fun t g => g <> [] /\ Forall (fun r => target r = t) g /\
                        g `sublist_of` mutations)
            targets (_groupRelatedMutations mutations) /\
    Permutation (concat (_groupRelatedMutations mutations)) mutations.
Proof.
  destruct (GroupingFacts.group_by_partition Nat.eqb target Nat_eqb_spec mutations)
    as (Hw & Hn & Hp & _).
  pose proof (GroupingFacts.group_by_sublist Nat.eqb target Nat_eqb_spec mutations) as Hs.
  exists (map fst (JS.group_by Nat.eqb target mutations)).
  split; [exact Hn |]. split; [| exact Hp].
  now apply groups_Forall2.
Qed.

(** Records on two targets, delivered interleaved. *)
Example grouping_interleaved_targets :
  map (map oldValue)
      (_groupRelatedMutations
         [ {| m_type := characterData; target := 4; addedNodes := []; removedNodes := [];
              attributeName := None; oldValue := Some "a" |};
           {| m_type := characterData; target := 9; addedNodes := []; removedNodes := [];
              attributeName := None; oldValue := Some "b" |};
           {| m_type := characterData; target := 4; addedNodes := []; removedNodes := [];
              attributeName := None; oldValue := Some "c" |} ])
  = [[Some "a"; Some "c"]; [Some "b"]].
Proof. reflexivity. Qed.

(** *** Throttling *)

Lemma observerRun_snoc (events : list ObserverEvent) (e : ObserverEvent) (this : Observer) :
  observerRun (events ++ [e]) this = observerStep (observerRun events this) e.
Proof. unfold observerRun. now rewrite fold_left_app. Qed.

Lemma delivered_snoc (events : list ObserverEvent) (e : ObserverEvent) :
  delivered (events ++ [e]) = (delivered events ++ delivered [e])%list.
Proof.
  induction events as [|[now ms|] rest IH]; simpl in *.
  - reflexivity.
  - now rewrite IH, app_assoc.
  - exact IH.
Qed.

(** Between any two events, as long as no timer callback has thrown, a
    timeout is set exactly while [isProcessing] is set, and records are
    pending only then. *)
Lemma observerStep_timer (this : Observer) (e : ObserverEvent) :
  e <> Timeout false ->
  timers this = (if isProcessing this then 1 else 0)%nat /\
  (isProcessing this = false -> pendingChanges this = []) ->
  timers (observerStep this e) = (if isProcessing (observerStep this e) then 1 else 0)%nat /\
  (isProcessing (observerStep this e) = false -> pendingChanges (observerStep this e) = []).
Proof.
  intros He [Ht Hp]. destruct e as [now ms|[|]]; simpl; [| | congruence].
  - unfold _handleMutations.
    destruct (now - lastProcessedTime this <? throttleTime this)%Z.
    + destruct (isProcessing this) eqn:E; simpl; rewrite ?E; simpl; split;
        try congruence; lia.
    + simpl. auto.
  - unfold timeout. destruct (timers this) as [|n] eqn:En; [rewrite En; auto |].
    unfold _processPendingChanges. simpl.
    destruct (isProcessing this); [| discriminate Ht].
    destruct (nonempty (pendingChanges this)) eqn:E; simpl; split; auto; try lia.
    intros _. unfold nonempty in E. apply Nat.ltb_ge in E.
    destruct (pendingChanges this); [reflexivity | simpl in E; lia].
Qed.

Lemma observerStep_conserves (this : Observer) (e : ObserverEvent) :
  e <> Timeout false ->
  Permutation
    (concat (processedBatches (observerStep this e)) ++ pendingChanges (observerStep this e))
    ((concat (processedBatches this) ++ pendingChanges this) ++ delivered [e]).
Proof.
  intros He. destruct e as [now ms|[|]]; simpl; [| | congruence].
  - unfold _handleMutations. rewrite app_nil_r.
    destruct (now - lastProcessedTime this <? throttleTime this)%Z.
    + destruct (isProcessing this); simpl; now rewrite app_assoc.
    + simpl. rewrite concat_app. simpl. rewrite app_nil_r, <- !app_assoc.
      apply Permutation_app_head, Permutation_app_comm.
  - rewrite app_nil_r. unfold timeout. destruct (timers this); [reflexivity |].
    unfold _processPendingChanges. simpl.
    destruct (nonempty (pendingChanges this)); simpl; [| reflexivity].
    rewrite concat_app. simpl. now rewrite !app_nil_r.
Qed.

Lemma callbacksReturn_snoc (events : list ObserverEvent) (e : ObserverEvent) :
  callbacksReturn (events ++ [e]) -> callbacksReturn events /\ e <> Timeout false.
Proof.
  intros H. split.
  - intros e' He'. apply H, in_or_app. now left.
  - apply H, in_or_app. right. now left.
Qed.

Lemma observerRun_facts (throttle : Z) (events : list ObserverEvent) :
  callbacksReturn events ->
  let this := observerRun events (newObserver throttle) in
  (timers this = (if isProcessing this then 1 else 0)%nat /\
   (isProcessing this = false -> pendingChanges this = [])) /\
  Permutation (concat (processedBatches this) ++ pendingChanges this) (delivered events).
Proof.
  induction events as [|e rest IH] using rev_ind; intros Hret; [simpl; auto |].
  apply callbacksReturn_snoc in Hret as [Hrest He].
  rewrite observerRun_snoc, delivered_snoc. destruct (IH Hrest) as [Hinv Hperm].
  split; [now apply observerStep_timer |].
  rewrite observerStep_conserves by exact He. now rewrite Hperm.
Qed.

(** X27.  As long as no timer callback throws, throttling loses no
    mutation record and processes none twice: after any run of deliveries
    and timeouts on a new observer, the records handed to
    [_processMutations] together with the pending ones are exactly the
    delivered records, each as often as it was delivered; while records are
    pending one timeout is set; and when it fires and its callback returns,
    nothing is left pending, so that all delivered records have been handed
    over. *)
Theorem throttling_loses_nothing (throttle : Z) (events : list ObserverEvent) :
  callbacksReturn events ->
  let this := observerRun events (newObserver throttle) in
  Permutation (concat (processedBatches this) ++ pendingChanges this) (delivered events) /\
  (pendingChanges this <> [] -> timers this = 1%nat) /\
  pendingChanges (timeout true this) = [] /\
  timers (timeout true this) = 0%nat /\
  Permutation (concat (processedBatches (timeout true this))) (delivered events).
Proof.
  intros Hret this. destruct (observerRun_facts throttle events Hret) as [[Ht Hp] Hperm].
  fold this in Ht, Hp, Hperm.
  assert (Hfires : Timeout true <> Timeout false) by discriminate.
  destruct (observerStep_timer this (Timeout true) Hfires (conj Ht Hp)) as [Ht' Hp'].
  pose proof (observerStep_conserves this (Timeout true) Hfires) as Hc.
  simpl in Ht', Hp', Hc.
  assert (Hidle : isProcessing (timeout true this) = false).
  { unfold timeout. destruct (timers this); [| unfold _processPendingChanges; simpl;
      now destruct (nonempty (pendingChanges this))].
    destruct (isProcessing this); [discriminate | reflexivity]. }
  split; [exact Hperm |]. split.
  { intros Hne. destruct (isProcessing this); [exact Ht | now destruct Hne; apply Hp]. }
  split; [now apply Hp' |]. split; [now rewrite Ht', Hidle |].
  rewrite app_nil_r in Hc. rewrite (Hp' Hidle), app_nil_r in Hc.
  now rewrite Hc.
Qed.

Lemma throttling_loses_nothing_witness :
  let record n :=
    {| m_type := characterData; target := n; addedNodes := []; removedNodes := [];
       attributeName := None; oldValue := None |} in
  let events := [Mutations 1000 [record 1]; Mutations 1050 [record 2];
                 Mutations 1060 [record 3]] in
  let this := observerRun events (newObserver 100) in
  (pendingChanges this <> [] -> timers this = 1%nat) /\
  pendingChanges (timeout true this) = [] /\
  Permutation (concat (processedBatches (timeout true this))) (delivered events).
Proof.
  intros record events this.
  destruct (throttling_loses_nothing 100 events) as (_ & Htimer & Hempty & _ & Hall).
  - intros e [<- | [<- | [<- | []]]]; discriminate.
  - repeat split; assumption.
Defined.

(** A delivery after the throttle window overtakes the records that wait
    for the timeout. *)
Example late_delivery_overtakes_pending :
  let record n :=
    {| m_type := characterData; target := n; addedNodes := []; removedNodes := [];
       attributeName := None; oldValue := None |} in
  map (map target)
      (processedBatches
         (observerRun [Mutations 1000 [record 1]; Mutations 1050 [record 2];
                       Mutations 1100 [record 3]; Timeout true]
                      (newObserver 100)))
  = [[1]; [3]; [2]]%nat.
Proof. reflexivity. Qed.

(** *** A throw in the timer callback *)

Lemma blocked_step (this : Observer) (e : ObserverEvent) :
  blocked this ->
  blocked (observerStep this e) /\
  (exists more, pendingChanges (observerStep this e) = (pendingChanges this ++ more)%list) /\
  (exists direct,
      processedBatches (observerStep this e) = (processedBatches this ++ direct)%list /\
      Forall (fun batch => exists now, e = Mutations now batch) direct).
Proof.
  intros [Hp Ht]. destruct e as [now ms|returns]; simpl.
  - unfold _handleMutations, blocked.
    destruct (now - lastProcessedTime this <? throttleTime this)%Z; rewrite ?Hp; simpl.
    + split; [auto |]. split; [now exists ms |].
      exists []. now rewrite app_nil_r.
    + split; [auto |]. split; [exists []; now rewrite app_nil_r |].
      exists [ms]. split; [reflexivity |]. repeat constructor. now exists now.
  - unfold timeout. rewrite Ht. split; [now split |].
    split; exists []; now rewrite app_nil_r.
Qed.

Lemma blocked_run (start : Observer) (events : list ObserverEvent) :
  blocked start ->
  blocked (observerRun events start) /\
  (exists more,
      pendingChanges (observerRun events start) = (pendingChanges start ++ more)%list) /\
  (exists direct,
      processedBatches (observerRun events start) = (processedBatches start ++ direct)%list /\
      Forall (fun batch => exists now, In (Mutations now batch) events) direct).
Proof.
  intros Hblocked.
  induction events as [|e rest (Hb & (more & Hmore) & (direct & Hdirect & Hfrom))]
    using rev_ind.
  - split; [exact Hblocked |]. split; exists []; simpl; now rewrite app_nil_r.
  - rewrite observerRun_snoc.
    destruct (blocked_step _ e Hb) as (Hb' & (more' & Hmore') & (direct' & Hdirect' & Hfrom')).
    split; [exact Hb' |]. split.
    + exists (more ++ more')%list. now rewrite Hmore', Hmore, app_assoc.
    + exists (direct ++ direct')%list. split; [now rewrite Hdirect', Hdirect, app_assoc |].
      apply Forall_app. split.
      * eapply Forall_impl; [exact Hfrom |]. intros batch [now Hin].
        exists now. apply in_or_app. now left.
      * eapply Forall_impl; [exact Hfrom' |]. intros batch [now ->].
        exists now. apply in_or_app. right. now left.
Qed.

(** When [_processMutations] throws in the timer callback, the observer
    stays as the throw left it: [isProcessing] is set and no timeout is, so
    that no later delivery sets one; the records that were pending stay
    pending, and whatever is delivered within the throttle window is added
    to them; the only arrays handed to [_processMutations] from then on are
    the ones delivered outside the window. *)
Lemma throwing_callback_blocks_throttling
      (this : Observer) (events : list ObserverEvent) :
  timers this = 1%nat ->
  isProcessing this = true ->
  pendingChanges this <> [] ->
  let later := observerRun events (timeout false this) in
  blocked later /\
  (exists more, pendingChanges later = (pendingChanges this ++ more)%list) /\
  (exists direct,
      processedBatches later
      = (processedBatches this ++ [pendingChanges this] ++ direct)%list /\
      Forall (fun batch => exists now, In (Mutations now batch) events) direct).
Proof.
  intros Ht Hp Hne later.
  assert (Hstart : blocked (timeout false this) /\
                   pendingChanges (timeout false this) = pendingChanges this /\
                   processedBatches (timeout false this)
                   = (processedBatches this ++ [pendingChanges this])%list).
  { unfold timeout, _processPendingChanges, blocked, nonempty. rewrite Ht. simpl.
    destruct (pendingChanges this); [congruence |]. simpl. auto. }
  destruct Hstart as (Hblocked & Hsame & Hhanded).
  destruct (blocked_run (timeout false this) events Hblocked)
    as (Hb & Hmore & (direct & Hdirect & Hfrom)).
  split; [exact Hb |]. split; [now rewrite <- Hsame |].
  exists direct. split; [| exact Hfrom].
  unfold later. now rewrite Hdirect, Hhanded, <- app_assoc.
Qed.

(** A throw while two records wait: the delivery that follows within the
    window joins them, no timeout is set for it, and a timeout event finds
    nothing to fire. *)
Example blocked_after_throw :
  let record n :=
    {| m_type := characterData; target := n; addedNodes := []; removedNodes := [];
       attributeName := None; oldValue := None |} in
  let this :=
    observerRun [Mutations 1000 [record 1]; Mutations 1050 [record 2];
                 Timeout false; Mutations 1060 [record 3]; Timeout true]
                (newObserver 100) in
  map target (pendingChanges this) = [2; 3]%nat /\
  map (map target) (processedBatches this) = [[1]; [2]]%nat /\
  isProcessing this = true /\ timers this = 0%nat.
Proof. repeat split. Qed.

(** *** Significance of a change *)

Section Significance.
Variable textContent : nat -> option string.
Variable outerHTML : nat -> option string.
Variable getAttribute : nat -> string -> option string.

Local Abbreviation extracted :=
  (_extractContentFromChange textContent outerHTML getAttribute).

(** X28.  A removal is reported by a fixed marker, not by what was
    removed: whatever the records of the group and whatever the page, the
    content of a [removal] is the 17 characters "[Content removed]" with an
    empty text, so that the removal is significant exactly when
    [minTextLength] is at most 17. *)
Theorem removal_significant_by_marker
        (mutationGroup : list MutationRecord) (minTextLength : Z) :
  _categorizeChangeType mutationGroup = removal ->
  exists content,
    extracted mutationGroup (_categorizeChangeType mutationGroup) = Some content /\
    c_text content = "" /\
    c_new content = "[Content removed]" /\
    _isSignificantChange minTextLength content (_categorizeChangeType mutationGroup)
    = (minTextLength <=? 17)%Z.
Proof.
  intros ->. eexists. split; [reflexivity |]. split; [reflexivity |].
  split; [reflexivity |].
  unfold _isSignificantChange. cbn [c_text c_new c_old andb].
  replace (JS.trim "[Content removed]") with "[Content removed]" by reflexivity.
  change (Z.of_nat (String.length "")) with 0%Z.
  change (Z.of_nat (String.length "[Content removed]")) with 17%Z.
  destruct (0 <? minTextLength)%Z eqn:E0, (17 <? minTextLength)%Z eqn:E17,
    (minTextLength <=? 17)%Z eqn:E; simpl; try reflexivity; lia.
Qed.

(** *** ARIA attributes *)

Lemma prefix_app_l (p a x : string) :
  String.prefix p a = true -> String.prefix p (a ++ x) = true.
Proof.
  revert a. induction p as [|c p IH]; intros a H.
  - now destruct (a ++ x).
  - destruct a as [|d a]; simpl in *; [discriminate |].
    destruct (ascii_dec c d); [now apply IH | discriminate].
Qed.

Lemma attributeLoop_aria (mutationGroup : list MutationRecord) (t : string) :
  (forall r, In r mutationGroup -> m_type r = attributes ->
             exists a, attributeName r = Some a /\ JS.startsWith a "aria-" = true) ->
  exists t',
    attributeLoop getAttribute mutationGroup t = Some t' /\
    ((existsb is_attributes mutationGroup = false /\ t' = t) \/
     JS.startsWith t' "aria-" = true \/
     (existsb is_attributes mutationGroup = true -> False) /\ t' = t).
Proof.
  revert t. induction mutationGroup as [|r rest IH]; intros t Hall.
  - exists t. simpl. auto.
  - simpl. destruct (is_attributes r) eqn:Er.
    + destruct (Hall r (or_introl eq_refl)) as (a & Ha & Haria).
      { unfold is_attributes in Er. now destruct (m_type r). }
      rewrite Ha, Haria. simpl.
      destruct (IH (attributeText a (oldValue r) (getAttribute (target r) a)))
        as (t' & Ht' & Hcase).
      { intros r' Hr'. apply Hall. now right. }
      exists t'. split; [exact Ht' |]. right. left.
      destruct Hcase as [[_ ->] | [H | [_ ->]]]; try exact H;
        unfold attributeText; now apply prefix_app_l.
    + destruct (IH t) as (t' & Ht' & Hcase).
      { intros r' Hr'. apply Hall. now right. }
      exists t'. split; [exact Ht' |]. simpl.
      destruct Hcase as [[Hno ->] | [H | [Hno ->]]]; auto.
Qed.

Lemma attribute_records_categorized (mutationGroup : list MutationRecord) :
  mutationGroup <> [] ->
  onlyAttributeRecords mutationGroup ->
  _categorizeChangeType mutationGroup = attribute /\
  existsb is_attributes mutationGroup = true.
Proof.
  intros Hne Honly.
  assert (Hchild : forall f, existsb (fun m => is_childList m && f m) mutationGroup = false).
  { intros f. apply not_true_is_false. intros H. apply existsb_exists in H.
    destruct H as (m & Hm & Hc). specialize (Honly m Hm).
    unfold is_childList in Hc. rewrite Honly in Hc. discriminate. }
  assert (Hattr : existsb is_attributes mutationGroup = true).
  { destruct mutationGroup as [|m rest]; [congruence |].
    simpl. unfold is_attributes at 1. now rewrite (Honly m (or_introl eq_refl)). }
  unfold _categorizeChangeType. rewrite !Hchild, Hattr. auto.
Qed.

(** X29.  Changes of ARIA attributes are always significant: for a
    non-empty group of [attributes] records that all name an attribute
    starting with "aria-", the group is categorized as [attribute], its
    text starts with "aria-", and it is significant whatever
    [minTextLength] and whatever the page. *)
Theorem aria_changes_always_significant
        (mutationGroup : list MutationRecord) (minTextLength : Z) :
  mutationGroup <> [] ->
  onlyAttributeRecords mutationGroup ->
  (forall r, In r mutationGroup ->
             exists a, attributeName r = Some a /\ JS.startsWith a "aria-" = true) ->
  exists content,
    _categorizeChangeType mutationGroup = attribute /\
    extracted mutationGroup (_categorizeChangeType mutationGroup) = Some content /\
    JS.startsWith (c_text content) "aria-" = true /\
    _isSignificantChange minTextLength content (_categorizeChangeType mutationGroup) = true.
Proof.
  intros Hne Honly Hall.
  destruct (attribute_records_categorized mutationGroup Hne Honly) as [Hty Hattr].
  destruct (attributeLoop_aria mutationGroup "") as (t & Ht & Hcase); [now auto |].
  assert (Haria : JS.startsWith t "aria-" = true).
  { destruct Hcase as [[Hno _] | [H | [Hno _]]]; [congruence | exact H | now destruct Hno]. }
  assert (Htruthy : truthy t = true).
  { destruct t; [discriminate Haria | reflexivity]. }
  rewrite Hty. unfold _extractContentFromChange. rewrite Ht, Htruthy.
  eexists. split; [reflexivity |]. split; [reflexivity |].
  split; [exact Haria |].
  unfold _isSignificantChange. cbn [c_text andb]. now rewrite Haria.
Qed.

(** *** Text changes *)

Lemma lastCharacterData_same (mutationGroup : list MutationRecord) (acc : string * string) :
  JS.trim (fst acc) = JS.trim (snd acc) ->
  (forall r, In r mutationGroup -> m_type r = characterData ->
             JS.trim (orEmpty (oldValue r)) = JS.trim (orEmpty (textContent (target r)))) ->
  let result :=
    fold_left
      (fun acc mutation =>
         if is_characterData mutation
         then (orEmpty (oldValue mutation), orEmpty (textContent (target mutation)))
         else acc)
      mutationGroup acc in
  JS.trim (fst result) = JS.trim (snd result).
Proof.
  revert acc. induction mutationGroup as [|r rest IH]; intros acc Hacc Hall; [exact Hacc |].
  simpl. apply IH; [| intros r' Hr'; apply Hall; now right].
  destruct (is_characterData r) eqn:Er; [| exact Hacc].
  simpl. apply Hall; [now left |].
  unfold is_characterData in Er. now destruct (m_type r).
Qed.

(** X30.  A text change that leaves the text as it was, up to white space
    at its ends, is never significant: when every [characterData] record
    of the group has an old value that trims to what its target's text
    trims to, the change is not significant as [text], whatever
    [minTextLength]. *)
Theorem unchanged_text_never_significant
        (mutationGroup : list MutationRecord) (minTextLength : Z) :
  (forall r, In r mutationGroup -> m_type r = characterData ->
             JS.trim (orEmpty (oldValue r)) = JS.trim (orEmpty (textContent (target r)))) ->
  exists content,
    extracted mutationGroup text = Some content /\
    c_old content = c_new content /\
    _isSignificantChange minTextLength content text = false.
Proof.
  intros Hall. unfold _extractContentFromChange.
  pose proof (lastCharacterData_same mutationGroup ("", "") eq_refl Hall) as Hsame.
  simpl in Hsame. fold (lastCharacterData textContent mutationGroup) in Hsame.
  destruct (lastCharacterData textContent mutationGroup) as [oldContent newContent].
  simpl in Hsame.
  eexists. split; [reflexivity |]. split; [exact Hsame |].
  unfold _isSignificantChange. cbn [c_text c_old c_new andb].
  rewrite Hsame, String.eqb_refl.
  now destruct (_ && _).
Qed.

End Significance.

Lemma removal_significant_by_marker_witness :
  exists content,
    _extractContentFromChange helloText noMarkup allTrue [removalRecord]
      (_categorizeChangeType [removalRecord]) = Some content /\
    c_text content = "" /\
    c_new content = "[Content removed]" /\
    _isSignificantChange 5 content (_categorizeChangeType [removalRecord])
    = (5 <=? 17)%Z.
Proof.
  apply (removal_significant_by_marker helloText noMarkup allTrue [removalRecord] 5).
  reflexivity.
Defined.

Lemma aria_changes_always_significant_witness :
  exists content,
    _categorizeChangeType [ariaRecord] = attribute /\
    _extractContentFromChange helloText noMarkup allTrue [ariaRecord]
      (_categorizeChangeType [ariaRecord]) = Some content /\
    JS.startsWith (c_text content) "aria-" = true /\
    _isSignificantChange 1000 content (_categorizeChangeType [ariaRecord]) = true.
Proof.
  apply (aria_changes_always_significant helloText noMarkup allTrue [ariaRecord] 1000).
  - discriminate.
  - intros r [<- | []]. reflexivity.
  - intros r [<- | []]. exists "aria-expanded". split; reflexivity.
Defined.

Lemma unchanged_text_never_significant_witness :
  exists content,
    _extractContentFromChange helloText noMarkup allTrue [textRecord] text = Some content /\
    c_old content = c_new content /\
    _isSignificantChange 5 content text = false.
Proof.
  apply (unchanged_text_never_significant helloText noMarkup allTrue [textRecord] 5).
  intros r [<- | []] _. reflexivity.
Defined.

End DetectionExtra.
